(** * Supabase provisioning scripts: environment-file synchronisation,
      retry loops and password generation

    Shallow embedding of [tools/scripts/setup.py],
    [tools/scripts/create-project.py] and the [read_env_file] helper of
    [link.py], [migrate.py] and [link-and-migrate.py].

    Python [str] values are lists of characters; a character is an 8-bit
    code ([ascii]), which covers every literal of the scripts. *)

From Stdlib Require Import Ascii String List ZArith Lia Bool Arith.
Import ListNotations.

Set Implicit Arguments.

(** ** Text *)

Definition text := list ascii.

Definition txt (s : string) : text := list_ascii_of_string s.

Definition text_eqb (a b : text) : bool :=
  if list_eq_dec ascii_dec a b then true else false.

(** The line feed, Python's ["\n"]. *)
Definition LF : ascii := ascii_of_nat 10.

Definition BACKSLASH : ascii := ascii_of_nat 92.

Definition is_lf (c : ascii) : bool := Ascii.eqb c LF.

Definition not_lf (c : ascii) : bool := negb (is_lf c).

(** [s.startswith(p)] *)
Fixpoint startswith (p s : text) : bool :=
  match p, s with
  | [], _ => true
  | a :: p', b :: s' => Ascii.eqb a b && startswith p' s'
  | _ :: _, [] => false
  end.

(** The lines of a text: the pieces between line feeds.  A text always has
    at least one line; a text that ends in a line feed has an empty last
    line.  These are the positions at which [^] matches under
    [re.MULTILINE]. *)
Fixpoint split_lines (s : text) : list text :=
  match s with
  | [] => [[]]
  | c :: s' =>
      if is_lf c then [] :: split_lines s'
      else match split_lines s' with
           | l :: ls => (c :: l) :: ls
           | [] => [[c]]
           end
  end.

(** The first line of a text, and what follows it (empty, or starting
    with the line feed that ends the first line). *)
Fixpoint first_line (s : text) : text :=
  match s with
  | [] => []
  | c :: s' => if is_lf c then [] else c :: first_line s'
  end.

Fixpoint after_line (s : text) : text :=
  match s with
  | [] => []
  | c :: s' => if is_lf c then s else after_line s'
  end.

Definition one_line (l : text) : Prop := forallb not_lf l = true.

(** The carriage return, Python's ["\r"]. *)
Definition CR : ascii := ascii_of_nat 13.

Definition is_cr (c : ascii) : bool := Ascii.eqb c CR.

(** What a file opened in text mode gives when it is read: the scripts
    call [open(path, "r")], so every line end of the file, be it a line
    feed, a carriage return or the two in a row, is read as one line
    feed.  What they write is stored as it is (the line separator of the
    system is the line feed). *)
Fixpoint universal_newlines (s : text) : text :=
  match s with
  | [] => []
  | c :: s' =>
      if is_cr c then
        LF :: match s' with
              | c' :: s'' =>
                  if is_lf c' then universal_newlines s''
                  else universal_newlines s'
              | [] => []
              end
      else c :: universal_newlines s'
  end.

(** A text that holds no carriage return. *)
Definition no_cr (t : text) : Prop :=
  forallb (fun c => negb (is_cr c)) t = true.

(** A text that holds no backslash. *)
Definition no_backslash (t : text) : Prop :=
  forallb (fun c => negb (Ascii.eqb c BACKSLASH)) t = true.

(** ["\n".join(ls)] *)
Fixpoint join_lines (ls : list text) : text :=
  match ls with
  | [] => []
  | l :: ls' =>
      match ls' with
      | [] => l
      | _ :: _ => l ++ LF :: join_lines ls'
      end
  end.

(** A text with [f] applied to each of its lines; when [bol] is false the
    text starts inside a line, and that first piece is left as it is. *)
Definition map_lines (f : text -> text) (bol : bool) (s : text) : text :=
  join_lines
    match split_lines s with
    | [] => []
    | l :: ls => (if bol then f l else l) :: map f ls
    end.

(** ** The fragment of Python's [re] that the scripts use

    Patterns are sequences of atoms: the anchor [^] (compiled with
    [re.MULTILINE]), literal characters, greedy repetitions of a character
    class, and capture groups around such repetitions.  Matching is leftmost
    with backtracking over the repetitions, longest repetition first. *)

Module Re.

Inductive atom : Type :=
| Bol                               (* the anchor, with re.MULTILINE *)
| Chr (c : ascii)                   (* a literal character *)
| Star (cls : ascii -> bool)        (* class, zero or more times *)
| CapStar (cls : ascii -> bool)     (* the same inside a group *)
| CapPlus (cls : ascii -> bool).    (* class, once or more, in a group *)

Definition regex := list atom.

Definition lit (s : text) : regex := map Chr s.

(** A match: the text matched, the text after it, the capture groups. *)
Definition found := (text * text * list text)%type.

(** Greedy repetition of a class, then the continuation [k]; gives up one
    character at a time when the continuation fails.  [bol] tells whether
    the current position follows a line feed (or starts the text). *)
Fixpoint greedy (cls : ascii -> bool) (k : bool -> text -> option found)
    (bol : bool) (s : text) : option (text * found) :=
  match s with
  | c :: s' =>
      if cls c then
        match greedy cls k (is_lf c) s' with
        | Some (taken, r) => Some (c :: taken, r)
        | None => option_map (pair []) (k bol s)
        end
      else option_map (pair []) (k bol s)
  | [] => option_map (pair []) (k bol s)
  end.

Fixpoint match_here (re : regex) (bol : bool) (s : text) : option found :=
  match re with
  | [] => Some ([], s, [])
  | Bol :: re' => if bol then match_here re' bol s else None
  | Chr c :: re' =>
      match s with
      | c' :: s' =>
          if Ascii.eqb c c' then
            match match_here re' (is_lf c') s' with
            | Some (m, r, g) => Some (c' :: m, r, g)
            | None => None
            end
          else None
      | [] => None
      end
  | Star cls :: re' =>
      match greedy cls (match_here re') bol s with
      | Some (taken, (m, r, g)) => Some (taken ++ m, r, g)
      | None => None
      end
  | CapStar cls :: re' =>
      match greedy cls (match_here re') bol s with
      | Some (taken, (m, r, g)) => Some (taken ++ m, r, taken :: g)
      | None => None
      end
  | CapPlus cls :: re' =>
      match s with
      | c :: s' =>
          if cls c then
            match greedy cls (match_here re') (is_lf c) s' with
            | Some (taken, (m, r, g)) =>
                Some (c :: taken ++ m, r, (c :: taken) :: g)
            | None => None
            end
          else None
      | [] => None
      end
  end.

(** [pattern.search(s)]: the leftmost match, with the text before it. *)
Fixpoint search_from (re : regex) (bol : bool) (s : text)
  : option (text * found) :=
  match match_here re bol s with
  | Some r => Some ([], r)
  | None =>
      match s with
      | [] => None
      | c :: s' =>
          match search_from re (is_lf c) s' with
          | Some (skipped, r) => Some (c :: skipped, r)
          | None => None
          end
      end
  end.

Definition search (re : regex) (s : text) : option found :=
  option_map snd (search_from re true s).

(** [m.group(1)] of a successful search. *)
Definition group1 (m : found) : text := nth 0 (snd m) [].

(** *** Replacement templates

    [pattern.sub(repl, s)] reads [repl] as a template: a backslash starts an
    escape or a group reference.  [parse_template] follows the template
    parser of the [re] module for a pattern with [ngroups] capture groups;
    [None] stands for the [re.error] (or [IndexError]) it raises. *)

Inductive piece : Type :=
| PLit (c : ascii)
| PGroup (n : nat).

Inductive tstate : Type :=
| TLit                            (* outside an escape *)
| TEsc                            (* after a backslash *)
| TGOpen                          (* after \g *)
| TGName (name : text)            (* inside \g< *)
| TOct0 (digits : list nat)       (* after \0 and the digits read so far *)
| TDig1 (d : nat)                 (* after \d, d in 1..9 *)
| TDig2 (d1 d2 : nat).            (* after \d1d2, both octal digits *)

Definition digit_val (c : ascii) : option nat :=
  let n := nat_of_ascii c in
  if (48 <=? n) && (n <=? 57) then Some (n - 48) else None.

Definition is_ascii_letter (c : ascii) : bool :=
  let n := nat_of_ascii c in
  ((65 <=? n) && (n <=? 90)) || ((97 <=? n) && (n <=? 122)).

(** The escapes the template parser knows: \a \b \f \n \r \t \v and \\. *)
Definition escape_code (c : ascii) : option nat :=
  let n := nat_of_ascii c in
  if n =? 97 then Some 7
  else if n =? 98 then Some 8
  else if n =? 102 then Some 12
  else if n =? 110 then Some 10
  else if n =? 114 then Some 13
  else if n =? 116 then Some 9
  else if n =? 118 then Some 11
  else if n =? 92 then Some 92
  else None.

Definition octal (ds : list nat) : nat :=
  fold_left (fun acc d => 8 * acc + d) ds 0.

Fixpoint decimal (name : text) (acc : nat) : option nat :=
  match name with
  | [] => Some acc
  | c :: name' =>
      match digit_val c with
      | Some d => decimal name' (10 * acc + d)
      | None => None
      end
  end.

Definition group_ref (ngroups n : nat) : option piece :=
  if n <=? ngroups then Some (PGroup n) else None.

(** What a character does outside an escape. *)
Definition lit_step (c : ascii) : list piece * tstate :=
  if Ascii.eqb c BACKSLASH then ([], TEsc) else ([PLit c], TLit).

Definition emit (ps : list piece) (rest : option (list piece))
  : option (list piece) :=
  option_map (app ps) rest.

Fixpoint parse_template (ngroups : nat) (st : tstate) (s : text)
  : option (list piece) :=
  match s with
  | [] =>
      match st with
      | TLit => Some []
      | TEsc | TGOpen | TGName _ => None
      | TOct0 ds => Some [PLit (ascii_of_nat (octal ds mod 256))]
      | TDig1 d => option_map (fun p => [p]) (group_ref ngroups d)
      | TDig2 d1 d2 =>
          option_map (fun p => [p]) (group_ref ngroups (10 * d1 + d2))
      end
  | c :: s' =>
      match st with
      | TLit =>
          let (out, st') := lit_step c in
          emit out (parse_template ngroups st' s')
      | TEsc =>
          if Ascii.eqb c "g" then parse_template ngroups TGOpen s'
          else
            match digit_val c with
            | Some 0 => parse_template ngroups (TOct0 []) s'
            | Some d => parse_template ngroups (TDig1 d) s'
            | None =>
                match escape_code c with
                | Some n =>
                    emit [PLit (ascii_of_nat n)]
                      (parse_template ngroups TLit s')
                | None =>
                    if is_ascii_letter c then None
                    else emit [PLit BACKSLASH; PLit c]
                           (parse_template ngroups TLit s')
                end
            end
      | TGOpen =>
          if Ascii.eqb c "<" then parse_template ngroups (TGName []) s'
          else None
      | TGName name =>
          if Ascii.eqb c ">" then
            match name with
            | [] => None
            | _ :: _ =>
                match decimal name 0 with
                | Some n =>
                    match group_ref ngroups n with
                    | Some p => emit [p] (parse_template ngroups TLit s')
                    | None => None
                    end
                | None => None
                end
            end
          else parse_template ngroups (TGName (name ++ [c])) s'
      | TOct0 ds =>
          match digit_val c with
          | Some d =>
              if (d <? 8) && (length ds <? 2)
              then parse_template ngroups (TOct0 (ds ++ [d])) s'
              else emit [PLit (ascii_of_nat (octal ds mod 256)); PLit c]
                     (parse_template ngroups TLit s')
          | None =>
              let (out, st') := lit_step c in
              emit (PLit (ascii_of_nat (octal ds mod 256)) :: out)
                (parse_template ngroups st' s')
          end
      | TDig1 d1 =>
          match digit_val c with
          | Some d2 =>
              if (d1 <? 8) && (d2 <? 8)
              then parse_template ngroups (TDig2 d1 d2) s'
              else
                match group_ref ngroups (10 * d1 + d2) with
                | Some p => emit [p] (parse_template ngroups TLit s')
                | None => None
                end
          | None =>
              match group_ref ngroups d1 with
              | Some p =>
                  let (out, st') := lit_step c in
                  emit (p :: out) (parse_template ngroups st' s')
              | None => None
              end
          end
      | TDig2 d1 d2 =>
          match digit_val c with
          | Some d3 =>
              if d3 <? 8 then
                if octal [d1; d2; d3] <=? 255
                then emit [PLit (ascii_of_nat (octal [d1; d2; d3]))]
                       (parse_template ngroups TLit s')
                else None
              else
                match group_ref ngroups (10 * d1 + d2) with
                | Some p => emit [p; PLit c] (parse_template ngroups TLit s')
                | None => None
                end
          | None =>
              match group_ref ngroups (10 * d1 + d2) with
              | Some p =>
                  let (out, st') := lit_step c in
                  emit (p :: out) (parse_template ngroups st' s')
              | None => None
              end
          end
      end
  end.

Definition expand_piece (m : text) (groups : list text) (p : piece) : text :=
  match p with
  | PLit c => [c]
  | PGroup 0 => m
  | PGroup (S i) => nth i groups []
  end.

Definition expand (ps : list piece) (m : text) (groups : list text) : text :=
  concat (map (expand_piece m groups) ps).

Definition count_groups (re : regex) : nat :=
  length (filter (fun a => match a with
                           | CapStar _ | CapPlus _ => true
                           | _ => false
                           end) re).

Definition ends_with_lf (bol : bool) (m : text) : bool :=
  match rev m with
  | [] => bol
  | c :: _ => is_lf c
  end.

(** The scan of [pattern.sub]: at each position try the pattern; a
    non-empty match is replaced and the scan resumes after it; an empty
    match is replaced and the next character copied; no match copies one
    character.  Every round consumes a character, so one round per
    character of [s] and one for its end are enough. *)
Fixpoint sub_scan (fuel : nat) (re : regex) (ps : list piece)
    (bol : bool) (s : text) : text :=
  match fuel with
  | 0 => s
  | S fuel' =>
      match match_here re bol s with
      | Some (m, r, g) =>
          match m with
          | [] =>
              expand ps m g ++
              match s with
              | [] => []
              | c :: s' => c :: sub_scan fuel' re ps (is_lf c) s'
              end
          | _ :: _ =>
              expand ps m g ++ sub_scan fuel' re ps (ends_with_lf bol m) r
          end
      | None =>
          match s with
          | [] => []
          | c :: s' => c :: sub_scan fuel' re ps (is_lf c) s'
          end
      end
  end.

(** [pattern.sub(repl, s)] *)
Definition sub (re : regex) (repl s : text) : option text :=
  match parse_template (count_groups re) TLit repl with
  | Some ps => Some (sub_scan (S (length s)) re ps true s)
  | None => None
  end.

End Re.

(** ** Whitespace and file lines *)

(** [c.isspace()] on the 8-bit range: tab to carriage return, the four
    separators 28..31, the space, NEL and the no-break space. *)
Definition isspace (c : ascii) : bool :=
  let n := nat_of_ascii c in
  ((9 <=? n) && (n <=? 13)) || ((28 <=? n) && (n <=? 32))
  || (n =? 133) || (n =? 160).

Fixpoint lstrip (s : text) : text :=
  match s with
  | [] => []
  | c :: s' => if isspace c then lstrip s' else s
  end.

(** [s.strip()] *)
Definition strip (s : text) : text := rev (lstrip (rev (lstrip s))).

(** The lines that a text yields when a file is iterated: each keeps its
    line feed, and a text that ends in a line feed yields no empty last
    line.  The text is the one read from the file, after
    [universal_newlines]. *)
Fixpoint readlines (s : text) : list text :=
  match s with
  | [] => []
  | c :: s' =>
      if is_lf c then [c] :: readlines s'
      else match readlines s' with
           | l :: ls => (c :: l) :: ls
           | [] => [[c]]
           end
  end.

(** [sep in s] for a one-character [sep] *)
Definition contains (c : ascii) (s : text) : bool := existsb (Ascii.eqb c) s.

(** [s.rstrip()] *)
Definition rstrip (s : text) : text := rev (lstrip (rev s)).

(** [p in s] for strings: [p] occurs somewhere in [s]. *)
Fixpoint is_infix (p s : text) : bool :=
  startswith p s
  || match s with
     | [] => false
     | _ :: s' => is_infix p s'
     end.

(** [c.lower()] on the 8-bit range: the capital letters of ASCII, and
    those of Latin-1 (192..222 but the multiplication sign 215). *)
Definition lower_char (c : ascii) : ascii :=
  let n := nat_of_ascii c in
  if ((65 <=? n) && (n <=? 90))
     || ((192 <=? n) && (n <=? 222) && negb (n =? 215))
  then ascii_of_nat (n + 32) else c.

(** [s.lower()] *)
Definition lower (s : text) : text := map lower_char s.

(** [s.replace(a, b)] for one-character [a] and [b] *)
Definition replace_char (a b : ascii) (s : text) : text :=
  map (fun c => if Ascii.eqb c a then b else c) s.

(** [s.split(sep, 1)] for a one-character [sep] that occurs in [s]: the
    text before the first [sep] and the text after it. *)
Fixpoint split_once (sep : ascii) (s : text) : text * text :=
  match s with
  | [] => ([], [])
  | c :: s' =>
      if Ascii.eqb c sep then ([], s')
      else let (k, v) := split_once sep s' in (c :: k, v)
  end.

(** ** Environment-file synchronisation

    The loop shared by [update_env_file] of [setup.py] (lines 428-434) and of
    [create-project.py] (lines 288-311). *)

Module Env.

(** [re.compile(f"^{key}=.*", re.MULTILINE)].  The key is pasted into the
    pattern unescaped; every key of the scripts is made of capital letters
    and underscores, which the pattern language reads literally, and this
    is the reading given here. *)
Definition key_pattern (key : text) : Re.regex :=
  Re.Bol :: Re.lit (key ++ txt "=") ++ [Re.Star not_lf].

(** [f"{key}={value}"] *)
Definition assignment (key value : text) : text := key ++ txt "=" ++ value.

(** One round of the loop over [env_vars.items()]; [None] when [sub]
    raises. *)
Definition update_var (key value env_content : text) : option text :=
  let pattern := key_pattern key in
  match Re.search pattern env_content with
  | Some _ => Re.sub pattern (assignment key value) env_content
  | None => Some (env_content ++ LF :: assignment key value)
  end.

(** The loop, over the mapping in insertion order. *)
Fixpoint update_vars (env_vars : list (text * text)) (env_content : text)
  : option text :=
  match env_vars with
  | [] => Some env_content
  | (key, value) :: rest =>
      match update_var key value env_content with
      | Some c => update_vars rest c
      | None => None
      end
  end.

(** Characters a key may be made of. *)
Definition is_word (c : ascii) : bool :=
  let n := nat_of_ascii c in
  ((65 <=? n) && (n <=? 90)) || ((97 <=? n) && (n <=? 122))
  || ((48 <=? n) && (n <=? 57)) || (n =? 95).

Definition word_key (key : text) : Prop := forallb is_word key = true.

(** Values that [sub] inserts as they are and that stay on one line. *)
Definition plain_value (value : text) : Prop :=
  forallb (fun c => negb (is_lf c) && negb (Ascii.eqb c BACKSLASH)) value
  = true.

(** A Python dict in insertion order: keys are distinct. *)
Definition is_dict (env_vars : list (text * text)) : Prop :=
  NoDup (map fst env_vars).

(** The same as a test. *)
Fixpoint distinct (keys : list text) : bool :=
  match keys with
  | [] => true
  | k :: rest => negb (existsb (text_eqb k) rest) && distinct rest
  end.

(** A line that [^KEY=.*] matches. *)
Definition assigns (key line : text) : bool :=
  startswith (key ++ txt "=") line.

(** The loop seen on the lines of the text, for values that are inserted
    as they are: a round rewrites every line that assigns the key, or adds
    one line at the end. *)
Definition set_line (key value line : text) : text :=
  if assigns key line then assignment key value else line.

Definition step_lines (key value : text) (ls : list text) : list text :=
  if existsb (assigns key) ls then map (set_line key value) ls
  else ls ++ [assignment key value].

Fixpoint sync_lines (env_vars : list (text * text)) (ls : list text)
  : list text :=
  match env_vars with
  | [] => ls
  | (key, value) :: rest => sync_lines rest (step_lines key value ls)
  end.

(** What the whole loop makes of one line, and the lines it adds. *)
Fixpoint rewrite_line (env_vars : list (text * text)) (line : text) : text :=
  match env_vars with
  | [] => line
  | (key, value) :: rest =>
      if assigns key line then assignment key value
      else rewrite_line rest line
  end.

Fixpoint appended (env_vars : list (text * text)) (ls : list text)
  : list text :=
  match env_vars with
  | [] => []
  | (key, value) :: rest =>
      (if existsb (assigns key) ls then [] else [assignment key value])
      ++ appended rest ls
  end.

(** The number of lines that assign a key. *)
Definition count_key (key : text) (ls : list text) : nat :=
  length (filter (assigns key) ls).

(** A line that no key of the list assigns. *)
Definition untouched (keys : list text) (line : text) : Prop :=
  forall k, In k keys -> assigns k line = false.

(** [after] is [before] with each line replaced in place by some lines,
    the lines that no key assigns being kept as they are, and with lines
    added at the end. *)
Definition framed (keys : list text) (before after : list text) : Prop :=
  exists (r : text -> list text) (added : list text),
    after = concat (map r before) ++ added
    /\ forall l, untouched keys l -> r l = [l].

(** Files of the working directory, with the characters they hold. *)
Definition files := string -> option text.

Definition write (path : string) (content : text) (fs : files) : files :=
  fun p => if String.eqb p path then Some content else fs p.

(** The head of [update_env_file]: create [.env] from the first template
    that exists ([dst.write(src.read())]), or empty. *)
Definition ensure_env (fs : files) : files :=
  match fs ".env"%string with
  | Some _ => fs
  | None =>
      match fs ".env.example"%string with
      | Some src => write ".env" (universal_newlines src) fs
      | None =>
          match fs ".env.template"%string with
          | Some src => write ".env" (universal_newlines src) fs
          | None => write ".env" [] fs
          end
      end
  end.

(** [open(".env", "r").read()] *)
Definition read_env (fs : files) : text :=
  match fs ".env"%string with
  | Some c => universal_newlines c
  | None => []
  end.

(** [update_env_file] for a mapping [env_vars]: the files afterwards,
    [None] when [sub] raises (nothing is written then). *)
Definition sync_file (env_vars : list (text * text)) (fs : files)
  : option files :=
  let fs1 := ensure_env fs in
  match update_vars env_vars (read_env fs1) with
  | Some env_content => Some (write ".env" env_content fs1)
  | None => None
  end.

(** Running [run] on the files and then on its own result completes
    both times, and the second run leaves every file as the first one
    left it. *)
Definition settles (run : files -> option files) (fs : files) : Prop :=
  exists once twice,
    run fs = Some once /\ run once = Some twice
    /\ forall path, twice path = once path.

End Env.

(** ** JSON values, as [json.loads] returns them *)

#[local] Set Warnings "-register-all".

Inductive json : Type :=
| JNull
| JBool (b : bool)
| JNum (n : Z)
| JStr (s : text)
| JArr (items : list json)
| JObj (members : list (text * json)).

(** Exceptions that no handler of the scripts catches. *)
Inductive exn : Type :=
| TypeError
| AttributeError
| ReError.

(** [bool(v)] *)
Definition truthy (v : json) : bool :=
  match v with
  | JNull => false
  | JBool b => b
  | JNum n => negb (n =? 0)%Z
  | JStr s => negb (text_eqb s [])
  | JArr items => negb (length items =? 0)
  | JObj members => negb (length members =? 0)
  end.

(** [for x in v]: the elements the loop visits; numbers, booleans and
    [None] are not iterable. *)
Definition iterate (v : json) : exn + list json :=
  match v with
  | JArr items => inr items
  | JObj members => inr (map (fun kv => JStr (fst kv)) members)
  | JStr s => inr (map (fun c => JStr [c]) s)
  | JNull | JBool _ | JNum _ => inl TypeError
  end.

Fixpoint lookup (name : text) (members : list (text * json)) : json :=
  match members with
  | [] => JNull
  | (k, v) :: rest => if text_eqb k name then v else lookup name rest
  end.

(** [v.get(name)]: only a dict has the method. *)
Definition get (v : json) (name : text) : exn + json :=
  match v with
  | JObj members => inr (lookup name members)
  | _ => inl AttributeError
  end.

(** [v == s] for a string [s] *)
Definition is_str (v : json) (s : text) : bool :=
  match v with
  | JStr s' => text_eqb s' s
  | _ => false
  end.

(** ** The world the scripts run in

    The Supabase CLI is an oracle: the answer to a command may depend on
    the command and on how many commands ran before it.  [json.loads] is a
    function of the world too; [None] stands for [JSONDecodeError]. *)

Record response : Type := {
  exit_code : Z;
  output : text
}.

Record world : Type := {
  cli : nat -> list text -> response;
  json_loads : text -> option json;
  choices : nat -> nat;             (* what [secrets] draws, in order *)
  fs : Env.files;
  ran : list (list text);           (* commands run so far, oldest first *)
  slept : list Z;                   (* arguments of [time.sleep], oldest first *)
  drawn : nat                       (* number of draws so far *)
}.

(** How a call ends: it returns, the process exits ([sys.exit]), or an
    exception escapes. *)
Inductive outcome (A : Type) : Type :=
| Returned (a : A)
| Exited (code : Z)
| Raised (e : exn).

Arguments Exited {A} code.
Arguments Raised {A} e.

Definition M (A : Type) : Type := world -> outcome A * world.

Definition ret {A} (a : A) : M A := fun w => (Returned a, w).

Definition bind {A B} (m : M A) (k : A -> M B) : M B :=
  fun w =>
    match m w with
    | (Returned a, w') => k a w'
    | (Exited code, w') => (Exited code, w')
    | (Raised e, w') => (Raised e, w')
    end.

Notation "x <- m ;; k" := (bind m (fun x => k))
  (at level 61, m at next level, right associativity).
Notation "m ;;; k" := (bind m (fun _ => k))
  (at level 61, right associativity).

(** [sys.exit(code)] *)
Definition exit {A} (code : Z) : M A := fun w => (Exited code, w).

Definition raise {A} (e : exn) : M A := fun w => (Raised e, w).

Definition lift {A} (r : exn + A) : M A :=
  match r with
  | inl e => raise e
  | inr a => ret a
  end.

(** [error(message)]: print and [sys.exit(1)]; it never returns. *)
Definition error {A} : M A := exit 1%Z.

Definition record_sleep (seconds : Z) (w : world) : world :=
  {| cli := cli w; json_loads := json_loads w; choices := choices w;
     fs := fs w; ran := ran w; slept := slept w ++ [seconds];
     drawn := drawn w |}.

Definition record_run (cmd : list text) (w : world) : world :=
  {| cli := cli w; json_loads := json_loads w; choices := choices w;
     fs := fs w; ran := ran w ++ [cmd]; slept := slept w;
     drawn := drawn w |}.

(** [time.sleep(seconds)] *)
Definition sleep (seconds : Z) : M unit :=
  fun w => (Returned tt, record_sleep seconds w).

Record completed_process : Type := {
  returncode : Z;
  stdout : option text              (* [None] without [capture_output] *)
}.

(** [run_command(cmd, check, capture_output)]: with [check] a non-zero exit
    raises [CalledProcessError], which the handler turns into [error]. *)
Definition run_command (cmd : list text) (check capture_output : bool)
  : M completed_process :=
  fun w =>
    let r := cli w (length (ran w)) cmd in
    let w' := record_run cmd w in
    if check && negb (exit_code r =? 0)%Z then (Exited 1%Z, w')
    else (Returned {| returncode := exit_code r;
                      stdout := if capture_output then Some (output r)
                                else None |}, w').

(** [json.loads(s)] *)
Definition loads (s : text) : M (option json) :=
  fun w => (Returned (json_loads w s), w).

(** [secrets.choice(alphabet)] *)
Definition choice (alphabet : text) : M ascii :=
  fun w =>
    (Returned (nth (choices w (drawn w) mod length alphabet) alphabet LF),
     {| cli := cli w; json_loads := json_loads w; choices := choices w;
        fs := fs w; ran := ran w; slept := slept w;
        drawn := S (drawn w) |}).

(** [open(path, "w").write(content)] *)
Definition write_file (path : string) (content : text) : M unit :=
  fun w =>
    (Returned tt,
     {| cli := cli w; json_loads := json_loads w; choices := choices w;
        fs := Env.write path content (fs w); ran := ran w;
        slept := slept w; drawn := drawn w |}).

(** [bool(result.stdout)] and the text itself *)
Definition stdout_text (r : completed_process) : text :=
  match stdout r with
  | Some s => s
  | None => []
  end.

(** How a round of a [for] loop ends. *)
Inductive flow (R : Type) : Type :=
| Next
| Break
| Return (r : R).

Arguments Next {R}.
Arguments Break {R}.

(** [for x in xs: body], with [None] when the loop ends without
    [return]. *)
Fixpoint for_each {A R} (xs : list A) (body : A -> M (flow R))
  : M (option R) :=
  match xs with
  | [] => ret None
  | x :: xs' =>
      f <- body x ;;
      match f with
      | Next => for_each xs' body
      | Break => ret None
      | Return r => ret (Some r)
      end
  end.

(** [range(a, b)] *)
Definition range (a b : Z) : list Z :=
  map (fun i => (a + Z.of_nat i)%Z) (seq 0 (Z.to_nat (b - a))).

(** [string.ascii_letters] and [string.digits] *)
Definition ascii_letters : text :=
  txt "abcdefghijklmnopqrstuvwxyzABCDEFGHIJKLMNOPQRSTUVWXYZ".

Definition digits : text := txt "0123456789".

(** ["".join(secrets.choice(alphabet) for _ in range(n))] *)
Fixpoint join_choices (n : nat) (alphabet : text) : M text :=
  match n with
  | 0 => ret []
  | S n' =>
      c <- choice alphabet ;;
      rest <- join_choices n' alphabet ;;
      ret (c :: rest)
  end.

Definition QUOTE : ascii := ascii_of_nat 34.

Definition quoted (s : text) : text := QUOTE :: s ++ [QUOTE].

(** [string.punctuation] *)
Definition punctuation : text :=
  txt "!" ++ [QUOTE] ++ txt "#$%&'()*+,-./:;<=>?@[" ++ [BACKSLASH]
  ++ txt "]^_`{|}~".

(** A letter, a digit or a punctuation mark of ASCII. *)
Definition printable (c : ascii) : bool :=
  contains c ascii_letters || contains c digits || contains c punctuation.

(** A command is run as a list of arguments, without a shell
    ([subprocess.run(cmd, ...)] with a list): an argument reaches the
    program character for character, and the one character that an
    argument cannot hold is NUL. *)
Definition NUL : ascii := ascii_of_nat 0.

Definition argv_safe (c : ascii) : bool := negb (Ascii.eqb c NUL).

(** ** [tools/scripts/setup.py] *)

Module Setup.

Definition alphabet : text :=
  ascii_letters ++ digits ++ txt "!#$%&()*+,-./:;<=>?@[]^_`{|}~".

Definition generate_secure_password (length : Z) : M text :=
  join_choices (Z.to_nat length) alphabet.

Definition projects_list_json : list text :=
  map txt ["npx"; "supabase"; "projects"; "list"; "-o"; "json"]%string.

(** [for project in projects: if project.get("name") == project_name:
    return True] *)
Fixpoint has_project (project_name : text) (projects : list json)
  : exn + bool :=
  match projects with
  | [] => inr false
  | project :: rest =>
      match get project (txt "name") with
      | inl e => inl e
      | inr name =>
          if is_str name project_name then inr true
          else has_project project_name rest
      end
  end.

Definition succeeded (result : completed_process) : bool :=
  (returncode result =? 0)%Z && negb (text_eqb (stdout_text result) []).

(** One round of the loop of [check_project_exists]. *)
Definition exists_attempt (project_name : text) (attempt : Z)
  : M (flow bool) :=
  result <- run_command projects_list_json false true ;;
  answer <-
    (if succeeded result then
       parsed <- loads (stdout_text result) ;;
       match parsed with
       | Some projects =>
           if negb (truthy projects) then ret (Some false)
           else
             items <- lift (iterate projects) ;;
             found <- lift (has_project project_name items) ;;
             ret (Some found)
       | None => ret None
       end
     else ret None) ;;
  match answer with
  | Some b => ret (Return b)
  | None => sleep 1 ;;; ret Next
  end.

Definition check_project_exists (project_name : text) : M bool :=
  r <- for_each (range 1 4) (exists_attempt project_name) ;;
  match r with
  | Some b => ret b
  | None => ret false
  end.

(** The loop of [get_project_id] over the parsed list. *)
Fixpoint find_project_id (project_name : text) (projects : list json)
  : exn + option json :=
  match projects with
  | [] => inr None
  | project :: rest =>
      match get project (txt "name") with
      | inl e => inl e
      | inr name =>
          if is_str name project_name then
            match get project (txt "id") with
            | inl e => inl e
            | inr project_id =>
                if truthy project_id then inr (Some project_id)
                else find_project_id project_name rest
            end
          else find_project_id project_name rest
      end
  end.

(** What a round of [get_project_id] reads in the answer of the CLI:
    the identifier, or nothing when the round has to be tried again. *)
Definition read_project_id (project_name : text) (result : completed_process)
  : M (option json) :=
  if succeeded result then
    parsed <- loads (stdout_text result) ;;
    match parsed with
    | Some projects =>
        items <- lift (iterate projects) ;;
        lift (find_project_id project_name items)
    | None => ret None
    end
  else ret None.

(** One round of the loop of [get_project_id]. *)
Definition project_id_attempt (project_name : text) (attempt : Z)
  : M (flow json) :=
  result <- run_command projects_list_json false true ;;
  answer <- read_project_id project_name result ;;
  match answer with
  | Some project_id => ret (Return project_id)
  | None => sleep 10 ;;; ret Next
  end.

Definition get_project_id (project_name : text) : M (option json) :=
  for_each (range 1 6) (project_id_attempt project_name).

Definition create_command (project_name org_id db_password region : text)
  : list text :=
  map txt ["npx"; "supabase"; "projects"; "create"]%string
  ++ [project_name; txt "--org-id"; org_id; txt "--db-password";
      db_password; txt "--region"; region].

(** One round of the creation loop of [create_project]. *)
Definition create_attempt (cmd : list text) (attempt : Z) : M (flow unit) :=
  result <- run_command cmd false true ;;
  if (returncode result =? 0)%Z then ret Break
  else if (attempt <? 3)%Z then sleep 1 ;;; ret Next
  else ret Next.

Definition create_project (project_name org_id region : text)
  : M (json * text) :=
  db_password <- generate_secure_password 16 ;;
  write_file "template_postgres_pw" db_password ;;;
  for_each (range 1 4)
    (create_attempt
       (create_command project_name org_id db_password region)) ;;;
  project_id <- get_project_id project_name ;;
  match project_id with
  | Some id => ret (id, db_password)
  | None => error
  end.

(** The loop of [get_api_keys] over the parsed list. *)
Fixpoint scan_keys (keys_data : list json) (anon_key service_key : json)
  : exn + (json * json) :=
  match keys_data with
  | [] => inr (anon_key, service_key)
  | key :: rest =>
      match get key (txt "name") with
      | inl e => inl e
      | inr name =>
          if is_str name (txt "anon") then
            match get key (txt "api_key") with
            | inl e => inl e
            | inr v => scan_keys rest v service_key
            end
          else if is_str name (txt "service_role") then
            match get key (txt "api_key") with
            | inl e => inl e
            | inr v => scan_keys rest anon_key v
            end
          else scan_keys rest anon_key service_key
      end
  end.

Definition not_char (c : ascii) : ascii -> bool :=
  fun x => negb (Ascii.eqb x c).

(** The fallback pattern of [get_api_keys] for a role: the quoted role,
    any characters but a closing brace, the quoted word api_key, a colon, an
    opening quote, then the group (any characters but a quote) and the
    closing quote. *)
Definition api_key_pattern (role : text) : Re.regex :=
  Re.lit (quoted role) ++ [Re.Star (not_char "}")]
  ++ Re.lit (quoted (txt "api_key") ++ txt ":" ++ [QUOTE])
  ++ [Re.CapStar (not_char QUOTE); Re.Chr QUOTE].

(** The pattern applied to the output of [projects show]: the role and a
    colon, white space, a line feed, white space, then the group (one or
    more characters but a line feed). *)
Definition show_pattern (role : text) : Re.regex :=
  Re.lit (role ++ txt ":")
  ++ [Re.Star isspace; Re.Chr LF; Re.Star isspace; Re.CapPlus not_lf].

Definition api_keys_command (project_id : text) : list text :=
  map txt ["npx"; "supabase"; "projects"; "api-keys"; "--project-ref"]%string
  ++ [project_id].

Definition api_keys_json_command (project_id : text) : list text :=
  api_keys_command project_id ++ [txt "-o"; txt "json"].

(** The answer of the CLI to the JSON command of a round that starts in
    world [w]: the first round runs the plain command before it. *)
Definition json_answer (project_id : text) (attempt : Z) (w : world)
  : response :=
  cli w (length (ran w) + (if (attempt =? 1)%Z then 1 else 0))
    (api_keys_json_command project_id).

(** The fallback of [get_api_keys] on an answer that is not JSON: both
    patterns have to match. *)
Definition extract_api_keys (raw : text) : option (json * json) :=
  match Re.search (api_key_pattern (txt "anon")) raw,
        Re.search (api_key_pattern (txt "service_role")) raw with
  | Some anon_key, Some service_key =>
      Some (JStr (Re.group1 anon_key), JStr (Re.group1 service_key))
  | _, _ => None
  end.

(** What a round of [get_api_keys] reads in the answer of the CLI: the
    two keys, or nothing when the round has to be tried again. *)
Definition read_api_keys (result : completed_process)
  : M (option (json * json)) :=
  if succeeded result then
    parsed <- loads (stdout_text result) ;;
    match parsed with
    | Some keys_data =>
        items <- lift (iterate keys_data) ;;
        keys <- lift (scan_keys items JNull JNull) ;;
        if truthy (fst keys) && truthy (snd keys) then ret (Some keys)
        else ret None
    | None => ret (extract_api_keys (stdout_text result))
    end
  else ret None.

(** One round of the loop of [get_api_keys]. *)
Definition api_keys_attempt (project_id : text) (attempt : Z)
  : M (flow (json * json)) :=
  (if (attempt =? 1)%Z
   then run_command (api_keys_command project_id) false false ;;; ret tt
   else ret tt) ;;;
  result <- run_command (api_keys_json_command project_id) false true ;;
  answer <- read_api_keys result ;;
  match answer with
  | Some keys => ret (Return keys)
  | None => sleep (attempt * 5) ;;; ret Next
  end.

Definition get_api_keys (project_id : text) : M (json * json) :=
  r <- for_each (range 1 6) (api_keys_attempt project_id) ;;
  match r with
  | Some keys => ret keys
  | None =>
      result <- run_command
                  (map txt ["npx"; "supabase"; "projects"; "show";
                            "--project-ref"]%string ++ [project_id])
                  false true ;;
      if succeeded result then
        match Re.search (show_pattern (txt "anon")) (stdout_text result),
              Re.search (show_pattern (txt "service_role"))
                (stdout_text result) with
        | Some anon_match, Some service_match =>
            ret (JStr (strip (Re.group1 anon_match)),
                 JStr (strip (Re.group1 service_match)))
        | _, _ => ret (JNull, JNull)
        end
      else ret (JNull, JNull)
  end.

(** One round of a loop that returns [True] on success and calls [error]
    after the last attempt: the loops of [link_project],
    [sync_remote_changes] and [apply_migrations]. *)
Definition fatal_attempt (cmd : list text) (last delay attempt : Z)
  : M (flow bool) :=
  result <- run_command cmd false true ;;
  if (returncode result =? 0)%Z then ret (Return true)
  else if (attempt =? last)%Z then error
  else sleep delay ;;; ret Next.

Definition link_command (project_id db_password : text) : list text :=
  map txt ["npx"; "supabase"; "link"; "--project-ref"]%string
  ++ [project_id; txt "--password"; db_password].

Definition link_project (project_id db_password : text) : M bool :=
  r <- for_each (range 1 6)
         (fatal_attempt (link_command project_id db_password) 5 10) ;;
  match r with
  | Some b => ret b
  | None => ret false
  end.

(** The loop that [sync_remote_changes] and [apply_migrations] share:
    three attempts, five seconds apart, [error] after the third. *)
Definition three_attempts (cmd : list text) : M bool :=
  r <- for_each (range 1 4) (fatal_attempt cmd 3 5) ;;
  match r with
  | Some b => ret b
  | None => ret false
  end.

Definition sync_remote_changes : M bool :=
  three_attempts (map txt ["npx"; "supabase"; "db"; "remote"; "changes"]%string).

Definition apply_migrations : M bool :=
  three_attempts (map txt ["npx"; "supabase"; "db"; "push"]%string).

(** One round of a loop of [setup_auth_urls]. *)
Definition config_attempt (cmd : list text) (attempt : Z) : M (flow unit) :=
  result <- run_command cmd false true ;;
  if (returncode result =? 0)%Z then ret Break
  else if (attempt =? 3)%Z then error
  else sleep 3 ;;; ret Next.

(** One of the two loops of [setup_auth_urls]. *)
Definition config_set (name value : text) : M unit :=
  for_each (range 1 4)
    (config_attempt
       (map txt ["npx"; "supabase"; "config"; "set"]%string
        ++ [name; value])) ;;;
  ret tt.

Definition setup_auth_urls : M bool :=
  config_set (txt "auth.site_url") (txt "http://localhost:3000") ;;;
  config_set (txt "auth.additional_redirect_urls")
    (txt "[" ++ quoted (txt "http://localhost:3000") ++ txt "]") ;;;
  ret true.

(** The mapping [env_vars] of [update_env_file], in insertion order. *)
Definition env_vars (project_url anon_key service_key db_password org_id : text)
  : list (text * text) :=
  [ (txt "NEXT_PUBLIC_SUPABASE_URL", project_url);
    (txt "NEXT_PUBLIC_SUPABASE_ANON_KEY", anon_key);
    (txt "SUPABASE_URL", project_url);
    (txt "SUPABASE_ANON_KEY", anon_key);
    (txt "SUPABASE_SERVICE_KEY", service_key);
    (txt "POSTGRES_PASSWORD", db_password);
    (txt "SUPABASE_ORG_ID", org_id) ].

(** [update_env_file]: the files afterwards, [None] when [sub] raises
    (nothing is written then). *)
Definition update_env_file
    (project_id project_url anon_key service_key db_password org_id : text)
    (fs : Env.files) : option Env.files :=
  let fs1 := Env.ensure_env fs in
  match Env.update_vars
          (env_vars project_url anon_key service_key db_password org_id)
          (Env.read_env fs1) with
  | Some env_content => Some (Env.write ".env" env_content fs1)
  | None => None
  end.

(** [os.path.exists(path)]: the path is known to the file table (a
    directory is an entry of the table too). *)
Definition path_exists (path : string) : M bool :=
  fun w => (Returned (match fs w path with Some _ => true | None => false end),
            w).

(** The three places where the CLI may keep a token, under the home
    directory that [os.path.expanduser] puts for the tilde. *)
Definition token_locations (home : string) : list string :=
  [ (home ++ "/.supabase/access-token")%string;
    (home ++ "/.config/supabase/access-token")%string;
    (home ++ "/.config/supabase/tokens.json")%string ].

Definition projects_list : list text :=
  map txt ["npx"; "supabase"; "projects"; "list"]%string.

Definition check_supabase_login (home : string) : M bool :=
  found <- for_each (token_locations home) (fun location =>
             present <- path_exists location ;;
             if present then ret (Return true) else ret Next) ;;
  match found with
  | Some b => ret b
  | None =>
      result <- run_command projects_list false true ;;
      ret (returncode result =? 0)%Z
  end.

Definition login_command : list text :=
  map txt ["npx"; "supabase"; "login"]%string.

Definition login_to_supabase : M unit :=
  run_command login_command false false ;;;
  sleep 3.

(** ["name" in package_data] *)
Definition has_name (package_data : json) : exn + bool :=
  match package_data with
  | JObj members =>
      inr (existsb (fun kv => text_eqb (fst kv) (txt "name")) members)
  | JArr items => inr (existsb (fun x => is_str x (txt "name")) items)
  | JStr s => inr (is_infix (txt "name") s)
  | JNull | JBool _ | JNum _ => inl TypeError
  end.

(** [package_data["name"]]: a list and a string take no string index. *)
Definition item_name (package_data : json) : exn + json :=
  match package_data with
  | JObj members => inr (lookup (txt "name") members)
  | _ => inl TypeError
  end.

(** [name.lower().replace(" ", "-")]: only a string has [lower]. *)
Definition slug (name : json) : exn + text :=
  match name with
  | JStr s => inr (replace_char " " "-" (lower s))
  | _ => inl AttributeError
  end.

(** The name that [package.json] gives, if the file is there, parses and
    has a name; a text that does not parse only gives a warning. *)
Definition package_name : M (option text) :=
  present <- path_exists "package.json" ;;
  if present then
    fun w =>
      (parsed <- loads match fs w "package.json"%string with
                       | Some content => universal_newlines content
                       | None => []
                       end ;;
       match parsed with
       | Some package_data =>
           named <- lift (has_name package_data) ;;
           if named then
             name <- lift (item_name package_data) ;;
             project_name <- lift (slug name) ;;
             ret (Some project_name)
           else ret None
       | None => ret None
       end) w
  else ret None.

Definition default_name : text := txt "supa-accelerator".

(** [get_project_name(args)], with [args.project_name]. *)
Definition get_project_name (project_name : option text) : M text :=
  match project_name with
  | Some (c :: s) => ret (c :: s)
  | _ =>
      from_package <- package_name ;;
      match from_package with
      | Some name => ret name
      | None => ret default_name
      end
  end.

Definition init_command : list text :=
  map txt ["npx"; "supabase"; "init"]%string.

Definition initialize_supabase : M unit :=
  present <- path_exists "supabase" ;;
  if present then ret tt
  else
    result <- run_command init_command false true ;;
    if negb (returncode result =? 0)%Z then error else ret tt.

End Setup.

(** ** [tools/scripts/create-project.py] *)

Module CreateProject.

Definition safe_alphabet : text :=
  ascii_letters ++ digits ++ txt "#%+,-./:=@^_{}".

Definition generate_secure_password (length : Z) : M text :=
  join_choices (Z.to_nat length) safe_alphabet.

(** [get_api_keys]: one command, run with [check=True]; every failure is
    an [error]. *)
Definition get_api_keys (project_id : text) : M (json * json) :=
  result <- run_command
              (map txt ["npx"; "supabase"; "projects"; "api-keys"]%string
               ++ [txt "--project-ref=" ++ project_id; txt "-o"; txt "json"])
              true true ;;
  parsed <- loads (stdout_text result) ;;
  match parsed with
  | Some keys_data =>
      items <- lift (iterate keys_data) ;;
      keys <- lift (Setup.scan_keys items JNull JNull) ;;
      if truthy (fst keys) && truthy (snd keys) then ret keys
      else error
  | None => error
  end.

(** The mapping [env_vars] of [update_env_file], in insertion order. *)
Definition env_vars
    (project_id project_url anon_key service_key db_password org_id : text)
  : list (text * text) :=
  [ (txt "SUPABASE_URL", project_url);
    (txt "SUPABASE_ANON_KEY", anon_key);
    (txt "SUPABASE_SERVICE_ROLE_KEY", service_key);
    (txt "SUPABASE_DB_PASSWORD", db_password);
    (txt "SUPABASE_ORG_ID", org_id);
    (txt "SUPABASE_PROJECT_ID", project_id) ].

(** The two loops over the public variants, run when the value is not
    empty. *)
Definition public_vars (names : list string) (value : text)
  : list (text * text) :=
  if text_eqb value [] then []
  else map (fun name => (txt name, value)) names.

(** All the assignments that [update_env_file] makes, in order. *)
Definition all_vars
    (project_id project_url anon_key service_key db_password org_id : text)
  : list (text * text) :=
  env_vars project_id project_url anon_key service_key db_password org_id
  ++ public_vars ["NEXT_PUBLIC_SUPABASE_URL";
                  "EXPO_PUBLIC_SUPABASE_URL"]%string project_url
  ++ public_vars ["NEXT_PUBLIC_SUPABASE_ANON_KEY";
                  "EXPO_PUBLIC_SUPABASE_ANON_KEY"]%string anon_key.

Definition update_env_file
    (project_id project_url anon_key service_key db_password org_id : text)
    (fs : Env.files) : option Env.files :=
  let fs1 := Env.ensure_env fs in
  match Env.update_vars
          (env_vars project_id project_url anon_key service_key db_password
             org_id)
          (Env.read_env fs1) with
  | Some c1 =>
      match Env.update_vars
              (public_vars ["NEXT_PUBLIC_SUPABASE_URL";
                            "EXPO_PUBLIC_SUPABASE_URL"]%string project_url)
              c1 with
      | Some c2 =>
          match Env.update_vars
                  (public_vars ["NEXT_PUBLIC_SUPABASE_ANON_KEY";
                                "EXPO_PUBLIC_SUPABASE_ANON_KEY"]%string
                     anon_key)
                  c2 with
          | Some env_content => Some (Env.write ".env" env_content fs1)
          | None => None
          end
      | None => None
      end
  | None => None
  end.

Definition check_supabase_login : M bool :=
  result <- run_command Setup.projects_list false true ;;
  ret (returncode result =? 0)%Z.

Definition login_to_supabase : M unit :=
  run_command Setup.login_command true false ;;; ret tt.

(** [get_project_name(args)], with [args.non_interactive] and the line
    that [input()] reads; [None] stands for [KeyboardInterrupt].  The
    reading of [package.json] is the one of [setup.py]. *)
Definition get_project_name (non_interactive : bool) (typed : option text)
  : M text :=
  package_name <- Setup.package_name ;;
  let default_name :=
    match package_name with
    | Some (c :: s) => c :: s
    | _ => Setup.default_name
    end in
  if non_interactive then ret default_name
  else
    match typed with
    | Some line =>
        let user_input := strip line in
        ret (match user_input with
             | [] => default_name
             | _ :: _ => user_input
             end)
    | None => error
    end.

Definition check_project_exists (project_name : text) : M bool :=
  result <- run_command Setup.projects_list_json true true ;;
  parsed <- loads (stdout_text result) ;;
  match parsed with
  | Some projects =>
      if negb (truthy projects) then ret false
      else
        items <- lift (iterate projects) ;;
        lift (Setup.has_project project_name items)
  | None => error
  end.

Definition get_project_id (project_name : text) : M json :=
  result <- run_command Setup.projects_list_json true true ;;
  parsed <- loads (stdout_text result) ;;
  match parsed with
  | Some projects =>
      items <- lift (iterate projects) ;;
      found <- lift (Setup.find_project_id project_name items) ;;
      match found with
      | Some project_id => ret project_id
      | None => error
      end
  | None => error
  end.

Definition create_command (project_name org_id db_password region : text)
  : list text :=
  map txt ["npx"; "supabase"; "projects"; "create"]%string
  ++ [project_name; txt "--org-id=" ++ org_id;
      txt "--db-password=" ++ db_password; txt "--region=" ++ region].

Definition create_project (project_name org_id region : text)
  : M (json * text) :=
  db_password <- generate_secure_password 16 ;;
  run_command (create_command project_name org_id db_password region)
    true true ;;;
  project_id <- get_project_id project_name ;;
  if negb (truthy project_id) then error
  else ret (project_id, db_password).

End CreateProject.

(** ** [read_env_file] of [link.py], [migrate.py] and [link-and-migrate.py] *)

Module Link.

(** A Python dict of strings, in insertion order. *)
Definition dict := list (text * text).

(** [d[key] = value]: an existing key keeps its place. *)
Fixpoint dict_set (key value : text) (d : dict) : dict :=
  match d with
  | [] => [(key, value)]
  | (k, v) :: rest =>
      if text_eqb k key then (k, value) :: rest
      else (k, v) :: dict_set key value rest
  end.

(** [d.get(key)] *)
Fixpoint dict_get (key : text) (d : dict) : option text :=
  match d with
  | [] => None
  | (k, v) :: rest => if text_eqb k key then Some v else dict_get key rest
  end.

(** The test [line and not line.startswith("#") and "=" in line] on a
    stripped line. *)
Definition is_assignment (line : text) : bool :=
  negb (text_eqb line []) && negb (startswith (txt "#") line)
  && contains "=" line.

(** The loop over the lines of the file. *)
Fixpoint read_lines (lines : list text) (env_vars : dict) : dict :=
  match lines with
  | [] => env_vars
  | line :: rest =>
      let line := strip line in
      if is_assignment line then
        let (key, value) := split_once "=" line in
        read_lines rest (dict_set key value env_vars)
      else read_lines rest env_vars
  end.

(** [for line in f] over the file opened in text mode, from the
    characters that the file holds. *)
Definition parse_env (content : text) : dict :=
  read_lines (readlines (universal_newlines content)) [].

Definition read_env_file : M dict :=
  fun w =>
    match fs w ".env"%string with
    | None => error w
    | Some content => ret (parse_env content) w
    end.

(** The mapping as the specification words it: the lines are taken in
    order; a line is skipped when, once stripped, it is empty, starts with
    [#] or holds no [=]; a line that is kept gives the text before its
    first [=] as key and the text after it as value; the value of a key is
    the one of the last line that has this key.

    The lines of a text are the pieces between its line ends, a line end
    being a line feed, a carriage return, or a carriage return and a line
    feed in a row. *)
Fixpoint spec_lines (s : text) : list text :=
  match s with
  | [] => [[]]
  | c :: s' =>
      if is_lf c then [] :: spec_lines s'
      else if is_cr c then
        [] :: match s' with
              | c' :: s'' =>
                  if is_lf c' then spec_lines s'' else spec_lines s'
              | [] => [[]]
              end
      else match spec_lines s' with
           | l :: ls => (c :: l) :: ls
           | [] => [[c]]
           end
  end.

(** White space, by its codes: the tab, the line feed, the vertical tab,
    the form feed, the carriage return, the four separators, the space,
    the next-line character and the no-break space. *)
Definition spec_white (c : ascii) : bool :=
  existsb (Nat.eqb (nat_of_ascii c))
    [9; 10; 11; 12; 13; 28; 29; 30; 31; 32; 133; 160].

(** A text without the white space at its start, and without the white
    space at its end. *)
Fixpoint spec_trim_left (s : text) : text :=
  match s with
  | [] => []
  | c :: s' => if spec_white c then spec_trim_left s' else s
  end.

Fixpoint spec_trim_right (s : text) : text :=
  match s with
  | [] => []
  | c :: s' =>
      match spec_trim_right s' with
      | [] => if spec_white c then [] else [c]
      | d :: r => c :: d :: r
      end
  end.

Definition spec_trim (s : text) : text :=
  spec_trim_right (spec_trim_left s).

Definition spec_skipped (line : text) : bool :=
  text_eqb line [] || startswith (txt "#") line || negb (contains "=" line).

Fixpoint before_first_eq (line : text) : text :=
  match line with
  | [] => []
  | c :: rest => if Ascii.eqb c "=" then [] else c :: before_first_eq rest
  end.

Fixpoint after_first_eq (line : text) : text :=
  match line with
  | [] => []
  | c :: rest => if Ascii.eqb c "=" then rest else after_first_eq rest
  end.

Definition spec_entries (content : text) : list (text * text) :=
  map (fun line => (before_first_eq line, after_first_eq line))
    (filter (fun line => negb (spec_skipped line))
       (map spec_trim (spec_lines content))).

Fixpoint spec_last (key : text) (entries : list (text * text))
  : option text :=
  match entries with
  | [] => None
  | (k, v) :: rest =>
      match spec_last key rest with
      | Some v' => Some v'
      | None => if text_eqb k key then Some v else None
      end
  end.

End Link.

(** ** [tools/scripts/link.py] *)

Module LinkPy.

(** [check_supabase_login] and [login_to_supabase] are those of
    [create-project.py], line for line. *)
Definition check_supabase_login : M bool := CreateProject.check_supabase_login.

Definition login_to_supabase : M unit := CreateProject.login_to_supabase.

Definition link_project (project_id db_password : text) : M unit :=
  match db_password with
  | [] => error
  | _ :: _ =>
      run_command (Setup.link_command project_id db_password) true false ;;;
      ret tt
  end.

Definition initialize_supabase : M unit :=
  present <- Setup.path_exists "supabase" ;;
  if present then ret tt
  else run_command Setup.init_command true true ;;; ret tt.

(** [a or b] for an argument of the command line and a value of the
    mapping: the argument when it is given and not empty. *)
Definition or_else (a b : option text) : option text :=
  match a with
  | Some (_ :: _) => a
  | _ => b
  end.

(** The statement [if not check_supabase_login(): login_to_supabase()]
    that opens [main()]. *)
Definition ensure_login : M unit :=
  logged_in <- check_supabase_login ;;
  if logged_in then ret tt else login_to_supabase.

(** [if not value: error(...)] for a value that may be [None]. *)
Definition required (value : option text) : M text :=
  match value with
  | Some (c :: s) => ret (c :: s)
  | _ => error
  end.

(** [main()], with [args.project_id] and [args.db_password]; the change
    of directory is left out. *)
Definition main (args_project_id args_db_password : option text) : M unit :=
  ensure_login ;;;
  env_vars <- Link.read_env_file ;;
  project_id <- required
                  (or_else args_project_id
                     (Link.dict_get (txt "SUPABASE_PROJECT_ID") env_vars)) ;;
  db_password <- required
                   (or_else args_db_password
                      (Link.dict_get (txt "SUPABASE_DB_PASSWORD") env_vars)) ;;
  initialize_supabase ;;;
  link_project project_id db_password.

End LinkPy.

(** ** [tools/scripts/migrate.py] *)

Module MigratePy.

Definition status_command : list text :=
  map txt ["npx"; "supabase"; "status"]%string.

Definition check_project_linked : M bool :=
  present <- Setup.path_exists ".supabase/config.json" ;;
  if present then
    result <- run_command status_command false true ;;
    ret ((returncode result =? 0)%Z
         || is_infix (txt "Project ID:") (stdout_text result))
  else ret false.

Definition remote_changes_command : list text :=
  map txt ["npx"; "supabase"; "db"; "remote"; "changes"]%string.

Definition push_command : list text :=
  map txt ["npx"; "supabase"; "db"; "push"]%string.

Definition site_url_command : list text :=
  map txt ["npx"; "supabase"; "config"; "set"; "auth.site_url";
           "http://localhost:3000"]%string.

Definition redirect_urls_command : list text :=
  map txt ["npx"; "supabase"; "config"; "set";
           "auth.additional_redirect_urls"]%string
  ++ [txt "[" ++ quoted (txt "http://localhost:3000") ++ txt "]"].

Definition sync_remote_changes : M unit :=
  run_command remote_changes_command true true ;;; ret tt.

Definition apply_migrations : M unit :=
  run_command push_command true false ;;; ret tt.

Definition setup_auth_urls : M unit :=
  run_command site_url_command true true ;;;
  run_command redirect_urls_command true true ;;;
  ret tt.

(** [main()], with [args.skip_auth_setup]. *)
Definition main (skip_auth_setup : bool) : M unit :=
  linked <- check_project_linked ;;
  if negb linked then error
  else
    sync_remote_changes ;;;
    apply_migrations ;;;
    if negb skip_auth_setup then setup_auth_urls else ret tt.

End MigratePy.

(** ** [tools/scripts/link-and-migrate.py]

    The script has its own copy of every helper; each one is taken here
    from the text of this script, with the command that it runs written
    out. *)

Module LinkAndMigrate.

Definition check_supabase_login : M bool :=
  result <- run_command (map txt ["npx"; "supabase"; "projects"; "list"]%string)
              false true ;;
  ret (returncode result =? 0)%Z.

Definition login_to_supabase : M unit :=
  run_command (map txt ["npx"; "supabase"; "login"]%string) true false ;;;
  ret tt.

(** [read_env_file()]: the test of [os.path.exists(".env")], then the
    loop over the lines of the file opened in text mode. *)
Definition read_env_file : M Link.dict :=
  fun w =>
    match fs w ".env"%string with
    | None => error w
    | Some content =>
        ret (Link.read_lines (readlines (universal_newlines content)) []) w
    end.

Definition link_project (project_id db_password : text) : M unit :=
  (match db_password with
   | [] => error
   | _ :: _ => ret tt
   end) ;;;
  run_command
    [txt "npx"; txt "supabase"; txt "link"; txt "--project-ref"; project_id;
     txt "--password"; db_password] true false ;;;
  ret tt.

Definition initialize_supabase : M unit :=
  present <- Setup.path_exists "supabase" ;;
  if negb present then
    run_command (map txt ["npx"; "supabase"; "init"]%string) true true ;;;
    ret tt
  else ret tt.

Definition sync_remote_changes : M unit :=
  run_command (map txt ["npx"; "supabase"; "db"; "remote"; "changes"]%string)
    true true ;;;
  ret tt.

Definition apply_migrations : M unit :=
  run_command (map txt ["npx"; "supabase"; "db"; "push"]%string) true false ;;;
  ret tt.

Definition setup_auth_urls : M unit :=
  run_command
    (map txt ["npx"; "supabase"; "config"; "set"; "auth.site_url";
              "http://localhost:3000"]%string) true true ;;;
  run_command
    [txt "npx"; txt "supabase"; txt "config"; txt "set";
     txt "auth.additional_redirect_urls";
     txt "[" ++ [QUOTE] ++ txt "http://localhost:3000" ++ [QUOTE] ++ txt "]"]
    true true ;;;
  ret tt.

(** [main()], with [args.project_id] and [args.db_password]; the change
    of directory is left out.  [a or b] and [if not value: error(...)]
    are Python's, as in [link.py]. *)
Definition main (args_project_id args_db_password : option text) : M unit :=
  logged_in <- check_supabase_login ;;
  (if negb logged_in then login_to_supabase else ret tt) ;;;
  env_vars <- read_env_file ;;
  project_id <- LinkPy.required
                  (LinkPy.or_else args_project_id
                     (Link.dict_get (txt "SUPABASE_PROJECT_ID") env_vars)) ;;
  db_password <- LinkPy.required
                   (LinkPy.or_else args_db_password
                      (Link.dict_get (txt "SUPABASE_DB_PASSWORD") env_vars)) ;;
  initialize_supabase ;;;
  link_project project_id db_password ;;;
  sync_remote_changes ;;;
  apply_migrations ;;;
  setup_auth_urls.

End LinkAndMigrate.

(** A computation that leaves the files as they are. *)
Definition keeps_files {A} (m : M A) : Prop :=
  forall w, fs (snd (m w)) = fs w.

(** A computation that never exits the process. *)
Definition never_exits {A} (m : M A) : Prop :=
  forall w code, fst (m w) <> Exited code.

(** A computation that leaves the world as it is and does not exit. *)
Definition reads_only {A} (m : M A) : Prop :=
  forall w, snd (m w) = w /\ forall code, fst (m w) <> Exited code.

(** A round either asks for the next one after sleeping [delay], or ends
    the loop without sleeping and without exiting. *)
Definition round_sleeps {R} (round : M (flow R)) (delay : Z) : Prop :=
  forall w, exists o w',
    round w = (o, w')
    /\ ((o = Returned Next /\ slept w' = slept w ++ [delay])
        \/ (o <> Returned Next
            /\ (forall code, o <> Exited code)
            /\ slept w' = slept w)).

(** A world in which no command ever exits with code zero. *)
Definition always_fails (w : world) : Prop :=
  forall n cmd, exit_code (cli w n cmd) <> 0%Z.

(** The command never exits with code zero, whenever it is run. *)
Definition never_succeeds (cmd : list text) (w : world) : Prop :=
  forall n, exit_code (cli w n cmd) <> 0%Z.

(** An answer that gives an attempt nothing to read: the command exited
    with a code other than zero, printed nothing, or printed a text that
    [json.loads] rejects. *)
Definition unusable (w : world) (r : response) : Prop :=
  exit_code r <> 0%Z \/ output r = [] \/ json_loads w (output r) = None.

(** An answer in which an attempt of [get_project_id] finds no project:
    it is unusable, or it is a list that holds no project of this name
    with a truthy identifier. *)
Definition no_project (project_name : text) (w : world) (r : response)
  : Prop :=
  unusable w r
  \/ exists projects items,
       json_loads w (output r) = Some projects
       /\ iterate projects = inr items
       /\ Setup.find_project_id project_name items = inr None.

(** An answer in which an attempt of [get_api_keys] finds no pair of
    keys: the command failed or printed nothing, the text is no JSON and
    the patterns do not both match, or the list lacks a truthy key. *)
Definition no_keys (w : world) (r : response) : Prop :=
  exit_code r <> 0%Z \/ output r = []
  \/ (json_loads w (output r) = None
      /\ Setup.extract_api_keys (output r) = None)
  \/ exists keys_data items keys,
       json_loads w (output r) = Some keys_data
       /\ iterate keys_data = inr items
       /\ Setup.scan_keys items JNull JNull = inr keys
       /\ truthy (fst keys) && truthy (snd keys) = false.

(** An answer of [projects show] in which the last resort of
    [get_api_keys] finds no pair of keys. *)
Definition no_shown_keys (r : response) : Prop :=
  exit_code r <> 0%Z \/ output r = []
  \/ Re.search (Setup.show_pattern (txt "anon")) (output r) = None
  \/ Re.search (Setup.show_pattern (txt "service_role")) (output r) = None.

(** ** Concrete worlds, environment files and mappings *)

Module Examples.

(** The CLI fails every command; [secrets] draws index [pick] each time. *)
Definition failing_world (pick : nat) : world :=
  {| cli := fun _ _ => {| exit_code := 1; output := [] |};
     json_loads := fun _ => None;
     choices := fun _ => pick;
     fs := fun _ => None;
     ran := []; slept := []; drawn := 0 |}.

(** The text [[{"id":"abcd","name":"demo"}]] and its value. *)
Definition demo_projects : text :=
  txt "[{" ++ quoted (txt "id") ++ txt ":" ++ quoted (txt "abcd") ++ txt ","
  ++ quoted (txt "name") ++ txt ":" ++ quoted (txt "demo") ++ txt "}]".

Definition demo_projects_json : json :=
  JArr [JObj [(txt "id", JStr (txt "abcd")); (txt "name", JStr (txt "demo"))]].

(** Every command exits with zero and prints a number, which
    [json.loads] accepts. *)
Definition number_answer : world :=
  {| cli := fun _ _ => {| exit_code := 0; output := txt "5" |};
     json_loads := fun _ => Some (JNum 5);
     choices := fun _ => 0;
     fs := fun _ => None;
     ran := []; slept := []; drawn := 0 |}.

(** Every command exits with zero and prints an object, not a list. *)
Definition object_answer : world :=
  {| cli := fun _ _ => {| exit_code := 0; output := txt "{}" |};
     json_loads := fun _ => Some (JObj [(txt "message", JStr (txt "x"))]);
     choices := fun _ => 0;
     fs := fun _ => None;
     ran := []; slept := []; drawn := 0 |}.

(** Creation fails every time, yet the project list shows the project. *)
Definition created_anyway : world :=
  {| cli := fun _ cmd =>
              if list_eq_dec (list_eq_dec ascii_dec) cmd
                   Setup.projects_list_json
              then {| exit_code := 0; output := demo_projects |}
              else {| exit_code := 1; output := [] |};
     json_loads := fun s => if text_eqb s demo_projects
                            then Some demo_projects_json else None;
     choices := fun _ => 0;
     fs := fun _ => None;
     ran := []; slept := []; drawn := 0 |}.

(** An answer that [json.loads] rejects (a comma before the closing
    bracket) and in which both fallback patterns match. *)
Definition broken_keys : text :=
  txt "[{" ++ quoted (txt "name") ++ txt ":" ++ quoted (txt "anon")
  ++ txt "," ++ quoted (txt "api_key") ++ txt ":" ++ quoted (txt "A1")
  ++ txt "},{" ++ quoted (txt "name") ++ txt ":"
  ++ quoted (txt "service_role") ++ txt "," ++ quoted (txt "api_key")
  ++ txt ":" ++ quoted (txt "S1") ++ txt "},]".

Definition broken_keys_world : world :=
  {| cli := fun _ _ => {| exit_code := 0; output := broken_keys |};
     json_loads := fun _ => None;
     choices := fun _ => 0;
     fs := fun _ => None;
     ran := []; slept := []; drawn := 0 |}.

Definition SUPABASE_URL : text := txt "SUPABASE_URL".

(** A mapping whose value holds a line feed. *)
Definition two_line_value : list (text * text) :=
  [(SUPABASE_URL, txt "a" ++ LF :: txt "b")].

(** A file that assigns the same key on two lines. *)
Definition duplicated_env : text :=
  txt "SUPABASE_URL=a" ++ LF :: txt "SUPABASE_URL=b".

Definition new_url : list (text * text) := [(SUPABASE_URL, txt "c")].

(** The mapping of the end-to-end scenario. *)
Definition scenario : list (text * text) :=
  [ (txt "SUPABASE_URL", txt "https://abc.supabase.co");
    (txt "SUPABASE_ANON_KEY", txt "k1") ].

(** The file that the scenario ends with. *)
Definition scenario_env : text :=
  LF :: txt "SUPABASE_URL=https://abc.supabase.co"
  ++ LF :: txt "SUPABASE_ANON_KEY=k1".

(** A mapping whose value holds a group reference. *)
Definition group_reference_value : list (text * text) :=
  [(SUPABASE_URL, txt "a\1")].

Definition old_env : text :=
  txt "# local settings" ++ LF :: txt "SUPABASE_URL=old"
  ++ LF :: txt "PORT=3000".

(** [old_env] after the pass over the mapping of the scenario. *)
Definition old_env_scenario : text :=
  txt "# local settings" ++ LF :: txt "SUPABASE_URL=https://abc.supabase.co"
  ++ LF :: txt "PORT=3000" ++ LF :: txt "SUPABASE_ANON_KEY=k1".

Definition old_env_synced : text :=
  txt "# local settings" ++ LF :: txt "SUPABASE_URL=c"
  ++ LF :: txt "PORT=3000".

(** The files that [update_env_file] of [create-project.py] leaves when
    it starts without any file. *)
Definition created_files : Env.files :=
  match CreateProject.update_env_file (txt "abcd")
          (txt "https://abcd.supabase.co") (txt "k1") (txt "k2")
          (txt "pw") (txt "org") (fun _ => None) with
  | Some files => files
  | None => fun _ => None
  end.

(** The files with [old_env] as [.env], and a world whose files are those
    that the pass over the mapping of the scenario leaves from them. *)
Definition old_files : Env.files :=
  fun path => if String.eqb path ".env" then Some old_env else None.

Definition synced_world : world :=
  {| cli := fun _ _ => {| exit_code := 1; output := [] |};
     json_loads := fun _ => None;
     choices := fun _ => 0;
     fs := match Env.sync_file scenario old_files with
           | Some files => files
           | None => old_files
           end;
     ran := []; slept := []; drawn := 0 |}.

(** A world with a [package.json] that [json.loads] reads as an object
    with the given name. *)
Definition package_world (name : text) : world :=
  {| cli := fun _ _ => {| exit_code := 1; output := [] |};
     json_loads := fun _ => Some (JObj [(txt "name", JStr name)]);
     choices := fun _ => 0;
     fs := fun path => if String.eqb path "package.json"
                       then Some (txt "{}") else None;
     ran := []; slept := []; drawn := 0 |}.

(** The files that [update_env_file] of [setup.py] leaves when it starts
    without any file, and a world that has them. *)
Definition setup_files : Env.files :=
  match Setup.update_env_file (txt "abcd")
          (txt "https://abcd.supabase.co") (txt "k1") (txt "k2")
          (txt "pw") (txt "org") (fun _ => None) with
  | Some files => files
  | None => fun _ => None
  end.

Definition after_setup : world :=
  {| cli := fun _ _ => {| exit_code := 0; output := [] |};
     json_loads := fun _ => None;
     choices := fun _ => 0;
     fs := setup_files;
     ran := []; slept := []; drawn := 0 |}.

(** Every command succeeds, and the files are [created_files]. *)
Definition ready_world : world :=
  {| cli := fun _ _ => {| exit_code := 0; output := [] |};
     json_loads := fun _ => None;
     choices := fun _ => 0;
     fs := created_files;
     ran := []; slept := []; drawn := 0 |}.

End Examples.

(** * Properties *)

(** ** Lines of a text *)

Lemma text_eqb_eq (a b : text) : text_eqb a b = true <-> a = b.
Proof.
  unfold text_eqb. destruct (list_eq_dec ascii_dec a b); split; congruence.
Qed.

Lemma text_eqb_refl (a : text) : text_eqb a a = true.
Proof. apply text_eqb_eq. reflexivity. Qed.

Lemma text_eqb_neq (a b : text) : text_eqb a b = false <-> a <> b.
Proof.
  unfold text_eqb. destruct (list_eq_dec ascii_dec a b); split; congruence.
Qed.

Lemma is_lf_eq (c : ascii) : is_lf c = true -> c = LF.
Proof. unfold is_lf. apply Ascii.eqb_eq. Qed.

Lemma split_lines_first (s : text) :
  split_lines s =
  first_line s :: match after_line s with
                  | [] => []
                  | _ :: s' => split_lines s'
                  end.
Proof.
  induction s as [|c s IH]; simpl; [reflexivity|].
  destruct (is_lf c); [reflexivity|].
  rewrite IH. reflexivity.
Qed.

Lemma split_lines_not_nil (s : text) : split_lines s <> [].
Proof. rewrite split_lines_first. discriminate. Qed.

Lemma join_lines_cons (l : text) (ls : list text) :
  ls <> [] -> join_lines (l :: ls) = l ++ LF :: join_lines ls.
Proof. destruct ls; [congruence | reflexivity]. Qed.

Lemma join_split (s : text) : join_lines (split_lines s) = s.
Proof.
  induction s as [|c s IH]; [reflexivity|].
  simpl split_lines. destruct (is_lf c) eqn:E.
  - rewrite join_lines_cons by apply split_lines_not_nil.
    rewrite IH. apply is_lf_eq in E. subst c. reflexivity.
  - destruct (split_lines s) as [|l ls] eqn:S.
    + exfalso. exact (split_lines_not_nil s S).
    + destruct ls as [|l' ls].
      * simpl in *. congruence.
      * rewrite join_lines_cons by discriminate.
        rewrite join_lines_cons in IH by discriminate.
        rewrite <- app_comm_cons, IH. reflexivity.
Qed.

Lemma split_app_lf (a b : text) :
  split_lines (a ++ LF :: b) = split_lines a ++ split_lines b.
Proof.
  induction a as [|c a IH]; simpl; [reflexivity|].
  destruct (is_lf c); [rewrite IH; reflexivity|].
  rewrite IH. destruct (split_lines a) eqn:S.
  - exfalso. exact (split_lines_not_nil a S).
  - reflexivity.
Qed.

Lemma split_one_line (l : text) : one_line l -> split_lines l = [l].
Proof.
  unfold one_line. induction l as [|c l IH]; simpl; [reflexivity|].
  intros H. apply andb_true_iff in H. destruct H as [Hc Hl].
  unfold not_lf in Hc. apply negb_true_iff in Hc. rewrite Hc.
  rewrite (IH Hl). reflexivity.
Qed.

Lemma split_join (ts : list text) :
  ts <> [] -> split_lines (join_lines ts) = concat (map split_lines ts).
Proof.
  induction ts as [|t ts IH]; [congruence|]. intros _.
  destruct ts as [|t' ts].
  - simpl. rewrite app_nil_r. reflexivity.
  - rewrite join_lines_cons by discriminate.
    rewrite split_app_lf, IH by discriminate. reflexivity.
Qed.

Lemma first_line_one_line (s : text) : one_line (first_line s).
Proof.
  unfold one_line. induction s as [|c s IH]; simpl; [reflexivity|].
  destruct (is_lf c) eqn:E; simpl; [reflexivity|].
  unfold not_lf at 1. rewrite E. exact IH.
Qed.

Lemma split_lines_one_line (s : text) : Forall one_line (split_lines s).
Proof.
  remember (length s) as n eqn:Hn. revert s Hn.
  induction n as [n IH] using lt_wf_ind. intros s Hn.
  rewrite split_lines_first. constructor; [apply first_line_one_line|].
  destruct (after_line s) as [|c s'] eqn:A; [constructor|].
  apply (IH (length s')); [|reflexivity].
  subst n. clear IH.
  assert (length (after_line s) <= length s) as Hle.
  { clear. induction s as [|c s IH]; simpl; [lia|].
    destruct (is_lf c); simpl; lia. }
  rewrite A in Hle. simpl in Hle. lia.
Qed.

Lemma split_join_lines (ls : list text) :
  ls <> [] -> Forall one_line ls -> split_lines (join_lines ls) = ls.
Proof.
  intros Hne Hall. rewrite split_join by exact Hne.
  clear Hne. induction Hall as [|l ls Hl _ IH]; [reflexivity|].
  simpl. rewrite (split_one_line Hl), IH. reflexivity.
Qed.

Lemma first_after_line (s : text) : first_line s ++ after_line s = s.
Proof.
  induction s as [|c s IH]; simpl; [reflexivity|].
  destruct (is_lf c); simpl; [reflexivity | rewrite IH; reflexivity].
Qed.

Lemma after_line_lf (s : text) (c : ascii) (s' : text) :
  after_line s = c :: s' -> c = LF.
Proof.
  induction s as [|a s IH]; simpl; [discriminate|].
  destruct (is_lf a) eqn:E; [|exact IH].
  intros H. injection H as -> _. apply is_lf_eq. exact E.
Qed.

Lemma is_lf_LF : is_lf LF = true.
Proof. reflexivity. Qed.

Lemma startswith_app (p s : text) : startswith p (p ++ s) = true.
Proof.
  induction p as [|a p IH]; simpl; [reflexivity|].
  rewrite Ascii.eqb_refl. exact IH.
Qed.

Lemma startswith_split (p s : text) :
  startswith p s = true -> s = p ++ skipn (length p) s.
Proof.
  revert s. induction p as [|a p IH]; intros s; simpl; [reflexivity|].
  destruct s as [|b s]; [discriminate|].
  intros H. apply andb_true_iff in H. destruct H as [Hab Hp].
  apply Ascii.eqb_eq in Hab. subst b. f_equal. apply IH. exact Hp.
Qed.

Lemma startswith_first_line (p s : text) :
  one_line p -> startswith p (first_line s) = startswith p s.
Proof.
  unfold one_line. revert s. induction p as [|a p IH]; intros s Hp;
    simpl; [reflexivity|].
  simpl in Hp. apply andb_true_iff in Hp. destruct Hp as [Ha Hp].
  destruct s as [|b s]; simpl; [reflexivity|].
  destruct (is_lf b) eqn:E.
  - apply is_lf_eq in E. subst b.
    destruct (Ascii.eqb a LF) eqn:A; [|reflexivity].
    apply Ascii.eqb_eq in A. subst a. discriminate.
  - rewrite IH by exact Hp. reflexivity.
Qed.

Lemma first_line_prefix (p s : text) :
  one_line p -> first_line (p ++ s) = p ++ first_line s.
Proof.
  unfold one_line. induction p as [|a p IH]; simpl; [reflexivity|].
  intros H. apply andb_true_iff in H. destruct H as [Ha Hp].
  unfold not_lf in Ha. apply negb_true_iff in Ha. rewrite Ha.
  rewrite IH by exact Hp. reflexivity.
Qed.

Lemma after_line_prefix (p s : text) :
  one_line p -> after_line (p ++ s) = after_line s.
Proof.
  unfold one_line. induction p as [|a p IH]; simpl; [reflexivity|].
  intros H. apply andb_true_iff in H. destruct H as [Ha Hp].
  unfold not_lf in Ha. apply negb_true_iff in Ha. rewrite Ha.
  apply IH. exact Hp.
Qed.

(** ** The pattern [^KEY=.*] *)

Lemma greedy_line (bol : bool) (s : text) :
  Re.greedy not_lf (Re.match_here []) bol s
  = Some (first_line s, ([], after_line s, [])).
Proof.
  revert bol. induction s as [|c s IH]; intros bol; simpl; [reflexivity|].
  unfold not_lf at 1. destruct (is_lf c); simpl; [reflexivity|].
  rewrite IH. reflexivity.
Qed.

Lemma match_lit_line (p : text) (bol : bool) (s : text) :
  Re.match_here (Re.lit p ++ [Re.Star not_lf]) bol s
  = if startswith p s
    then Some (p ++ first_line (skipn (length p) s),
               after_line (skipn (length p) s), [])
    else None.
Proof.
  revert bol s. induction p as [|a p IH]; intros bol s.
  - simpl. rewrite greedy_line, app_nil_r. reflexivity.
  - destruct s as [|b s]; [reflexivity|].
    simpl. destruct (Ascii.eqb a b) eqn:E; [|reflexivity].
    apply Ascii.eqb_eq in E. subst b.
    change (map Re.Chr p) with (Re.lit p). rewrite IH. simpl.
    destruct (startswith p s); reflexivity.
Qed.

Lemma match_key_line (p : text) (bol : bool) (s : text) :
  one_line p ->
  Re.match_here (Re.Bol :: Re.lit p ++ [Re.Star not_lf]) bol s
  = if bol && startswith p s
    then Some (first_line s, after_line s, [])
    else None.
Proof.
  intros Hp. cbn [Re.match_here]. destruct bol; [|reflexivity].
  rewrite match_lit_line. simpl.
  destruct (startswith p s) eqn:E; [|reflexivity].
  rewrite (startswith_split _ _ E) at 3 4.
  rewrite first_line_prefix, after_line_prefix by exact Hp. reflexivity.
Qed.

Lemma search_from_key (p : text) (bol : bool) (s : text) :
  one_line p -> p <> [] ->
  match Re.search_from (Re.Bol :: Re.lit p ++ [Re.Star not_lf]) bol s with
  | Some _ => true
  | None => false
  end
  = (bol && startswith p s) || existsb (startswith p) (tl (split_lines s)).
Proof.
  intros Hp Hne. revert bol.
  induction s as [|c s IH]; intros bol.
  - cbn [Re.search_from]. rewrite match_key_line by exact Hp.
    destruct p; [congruence|]. destruct bol; reflexivity.
  - cbn [Re.search_from]. rewrite match_key_line by exact Hp.
    destruct (bol && startswith p (c :: s)); [reflexivity|].
    transitivity
      (match Re.search_from (Re.Bol :: Re.lit p ++ [Re.Star not_lf])
               (is_lf c) s with
       | Some _ => true
       | None => false
       end).
    { destruct (Re.search_from _ (is_lf c) s) as [[skipped r]|];
        reflexivity. }
    rewrite IH. simpl split_lines. destruct (is_lf c).
    + cbn [tl]. rewrite (split_lines_first s). simpl.
      rewrite startswith_first_line by exact Hp. reflexivity.
    + destruct (split_lines s); reflexivity.
Qed.

Lemma search_key (p s : text) :
  one_line p -> p <> [] ->
  match Re.search (Re.Bol :: Re.lit p ++ [Re.Star not_lf]) s with
  | Some _ => true
  | None => false
  end
  = existsb (startswith p) (split_lines s).
Proof.
  intros Hp Hne. unfold Re.search.
  transitivity
    (match Re.search_from (Re.Bol :: Re.lit p ++ [Re.Star not_lf]) true s with
     | Some _ => true
     | None => false
     end).
  { destruct (Re.search_from _ true s); reflexivity. }
  rewrite search_from_key by assumption.
  rewrite (split_lines_first s). simpl.
  rewrite startswith_first_line by exact Hp. reflexivity.
Qed.

Lemma ends_with_lf_one_line (bol : bool) (m : text) :
  one_line m -> m <> [] -> Re.ends_with_lf bol m = false.
Proof.
  unfold one_line, Re.ends_with_lf. intros Hm Hne.
  destruct (rev m) as [|c r] eqn:R.
  - apply (f_equal (@rev ascii)) in R. rewrite rev_involutive in R.
    simpl in R. congruence.
  - rewrite forallb_forall in Hm.
    assert (In c m) as Hin.
    { apply in_rev. rewrite R. left. reflexivity. }
    apply Hm in Hin. unfold not_lf in Hin. apply negb_true_iff in Hin.
    exact Hin.
Qed.

Lemma map_lines_lf (f : text -> text) (bol : bool) (s : text) :
  f [] = [] -> map_lines f bol (LF :: s) = LF :: map_lines f true s.
Proof.
  intros Hf. unfold map_lines. simpl split_lines.
  destruct (split_lines s) as [|l ls] eqn:S.
  - exfalso. exact (split_lines_not_nil s S).
  - rewrite join_lines_cons by discriminate.
    destruct bol; rewrite ?Hf; reflexivity.
Qed.

Lemma join_lines_head (c : ascii) (l : text) (ls : list text) :
  join_lines ((c :: l) :: ls) = c :: join_lines (l :: ls).
Proof. destruct ls; reflexivity. Qed.

Lemma map_lines_char (f : text -> text) (c : ascii) (s : text) :
  is_lf c = false -> map_lines f false (c :: s) = c :: map_lines f false s.
Proof.
  intros Hc. unfold map_lines. simpl split_lines. rewrite Hc.
  destruct (split_lines s) as [|l ls] eqn:S.
  - exfalso. exact (split_lines_not_nil s S).
  - apply join_lines_head.
Qed.

Lemma map_lines_miss (p : text) (e : text -> text) (c : ascii) (s : text) :
  one_line p -> is_lf c = false -> startswith p (c :: s) = false ->
  map_lines (fun l => if startswith p l then e l else l) true (c :: s)
  = c :: map_lines (fun l => if startswith p l then e l else l) false s.
Proof.
  intros Hp Hc Hs. unfold map_lines.
  rewrite <- (startswith_first_line (c :: s) Hp) in Hs.
  simpl in Hs. rewrite Hc in Hs.
  simpl split_lines. rewrite Hc.
  rewrite (split_lines_first s).
  cbv beta. rewrite Hs. apply join_lines_head.
Qed.

Lemma map_lines_hit (p : text) (e : text -> text) (s : text) :
  one_line p -> p <> [] -> startswith p s = true ->
  map_lines (fun l => if startswith p l then e l else l) true s
  = e (first_line s)
    ++ map_lines (fun l => if startswith p l then e l else l) false
         (after_line s).
Proof.
  intros Hp Hne Hs.
  assert ((fun l => if startswith p l then e l else l) [] = []) as Hnil.
  { destruct p; [congruence | reflexivity]. }
  unfold map_lines at 1. rewrite split_lines_first.
  rewrite (startswith_first_line s Hp), Hs.
  destruct (after_line s) as [|c s'] eqn:A.
  - simpl. rewrite app_nil_r. reflexivity.
  - pose proof (after_line_lf s A) as ->.
    rewrite (map_lines_lf _ _ _ Hnil). unfold map_lines.
    destruct (split_lines s') as [|l ls] eqn:S.
    + exfalso. exact (split_lines_not_nil s' S).
    + reflexivity.
Qed.

Lemma length_after_line (s : text) :
  length s = length (first_line s) + length (after_line s).
Proof. rewrite <- (first_after_line s) at 1. apply length_app. Qed.

Lemma first_line_hit (p s : text) :
  one_line p -> p <> [] -> startswith p s = true -> first_line s <> [].
Proof.
  intros Hp Hne Hs. rewrite (startswith_split _ _ Hs).
  rewrite first_line_prefix by exact Hp. destruct p; [congruence|discriminate].
Qed.

Lemma sub_scan_key (p : text) (ps : list Re.piece) :
  one_line p -> p <> [] ->
  forall (fuel : nat) (bol : bool) (s : text),
    length s < fuel ->
    Re.sub_scan fuel (Re.Bol :: Re.lit p ++ [Re.Star not_lf]) ps bol s
    = map_lines (fun l => if startswith p l then Re.expand ps l [] else l)
        bol s.
Proof.
  intros Hp Hne.
  assert ((fun l => if startswith p l then Re.expand ps l [] else l) [] = [])
    as Hnil.
  { destruct p; [congruence | reflexivity]. }
  induction fuel as [|fuel IH]; intros bol s Hlen; [lia|].
  cbn [Re.sub_scan]. rewrite match_key_line by exact Hp.
  destruct (bol && startswith p s) eqn:B.
  - apply andb_true_iff in B. destruct B as [-> Hs].
    pose proof (first_line_hit s Hp Hne Hs) as Hfl.
    pose proof (length_after_line s) as Hl.
    rewrite (map_lines_hit _ s Hp Hne Hs).
    destruct (first_line s) as [|a m] eqn:F; [congruence|].
    rewrite ends_with_lf_one_line;
      [| rewrite <- F; apply first_line_one_line | discriminate].
    rewrite IH by (simpl in Hl; lia). reflexivity.
  - destruct s as [|c s].
    + unfold map_lines. simpl. destruct bol; [exact (eq_sym Hnil)|reflexivity].
    + rewrite IH by (simpl in Hlen; lia).
      destruct (is_lf c) eqn:E.
      * apply is_lf_eq in E. subst c.
        rewrite (map_lines_lf _ _ _ Hnil). reflexivity.
      * destruct bol.
        -- simpl in B. rewrite (@map_lines_miss p _ c s Hp E B). reflexivity.
        -- rewrite (@map_lines_char _ c s E). reflexivity.
Qed.

(** ** Templates without a backslash are inserted as they are *)

Lemma parse_template_literal (ngroups : nat) (t : text) :
  no_backslash t ->
  Re.parse_template ngroups Re.TLit t = Some (map Re.PLit t).
Proof.
  unfold no_backslash. induction t as [|c t IH]; simpl; [reflexivity|].
  intros H. apply andb_true_iff in H. destruct H as [Hc Ht].
  apply negb_true_iff in Hc. unfold Re.lit_step. rewrite Hc.
  rewrite (IH Ht). reflexivity.
Qed.

Lemma expand_literal (t m : text) (g : list text) :
  Re.expand (map Re.PLit t) m g = t.
Proof.
  unfold Re.expand. induction t as [|c t IH]; simpl; [reflexivity|].
  rewrite IH. reflexivity.
Qed.

Lemma count_groups_key (p : text) :
  Re.count_groups (Re.Bol :: Re.lit p ++ [Re.Star not_lf]) = 0.
Proof.
  unfold Re.count_groups. simpl. induction p as [|a p IH]; simpl;
    [reflexivity | exact IH].
Qed.

(** ** One round of the loop, on lines *)

Lemma is_word_not_lf (c : ascii) : Env.is_word c = true -> not_lf c = true.
Proof.
  intros H. unfold not_lf. destruct (is_lf c) eqn:E; [|reflexivity].
  apply is_lf_eq in E. subst c. discriminate.
Qed.

Lemma is_word_not_backslash (c : ascii) :
  Env.is_word c = true -> Ascii.eqb c BACKSLASH = false.
Proof.
  intros H. destruct (Ascii.eqb c BACKSLASH) eqn:E; [|reflexivity].
  apply Ascii.eqb_eq in E. subst c. discriminate.
Qed.

Lemma is_word_not_equals (c : ascii) :
  Env.is_word c = true -> Ascii.eqb c "=" = false.
Proof.
  intros H. destruct (Ascii.eqb c "=") eqn:E; [|reflexivity].
  apply Ascii.eqb_eq in E. subst c. discriminate.
Qed.

Lemma forallb_app_true {A} (f : A -> bool) (a b : list A) :
  forallb f a = true -> forallb f b = true -> forallb f (a ++ b) = true.
Proof. intros Ha Hb. rewrite forallb_app, Ha, Hb. reflexivity. Qed.

Lemma forallb_weaken {A} (f g : A -> bool) (l : list A) :
  (forall a, f a = true -> g a = true) ->
  forallb f l = true -> forallb g l = true.
Proof.
  intros Hfg. induction l as [|a l IH]; simpl; [reflexivity|].
  intros H. apply andb_true_iff in H. destruct H as [Ha Hl].
  rewrite (Hfg a Ha), (IH Hl). reflexivity.
Qed.

Lemma key_prefix_one_line (key : text) :
  Env.word_key key -> one_line (key ++ txt "=").
Proof.
  intros Hk. apply forallb_app_true; [|reflexivity].
  exact (forallb_weaken _ _ _ is_word_not_lf Hk).
Qed.

Lemma key_prefix_not_nil (key : text) : key ++ txt "=" <> [].
Proof. destruct key; discriminate. Qed.

Lemma assignment_one_line (key value : text) :
  Env.word_key key -> Env.plain_value value ->
  one_line (Env.assignment key value).
Proof.
  intros Hk Hv. unfold Env.assignment. rewrite app_assoc.
  apply forallb_app_true; [apply key_prefix_one_line; exact Hk|].
  refine (forallb_weaken _ _ _ _ Hv).
  intros c H. apply andb_true_iff in H. destruct H as [H _]. exact H.
Qed.

Lemma assignment_no_backslash (key value : text) :
  Env.word_key key -> Env.plain_value value ->
  no_backslash (Env.assignment key value).
Proof.
  intros Hk Hv. unfold Env.assignment, no_backslash.
  apply forallb_app_true; [|apply forallb_app_true; [reflexivity|]].
  - refine (forallb_weaken _ _ _ _ Hk).
    intros c H. rewrite (is_word_not_backslash _ H). reflexivity.
  - refine (forallb_weaken _ _ _ _ Hv).
    intros c H. apply andb_true_iff in H. destruct H as [_ H]. exact H.
Qed.

Lemma map_lines_true (f : text -> text) (s : text) :
  map_lines f true s = join_lines (map f (split_lines s)).
Proof. unfold map_lines. destruct (split_lines s); reflexivity. Qed.

(** What a round does, whatever the value. *)
Lemma update_var_lines (key value env_content : text) :
  Env.word_key key ->
  Env.update_var key value env_content
  = if existsb (Env.assigns key) (split_lines env_content)
    then
      match Re.parse_template 0 Re.TLit (Env.assignment key value) with
      | Some ps =>
          Some (join_lines
                  (map (fun l => if Env.assigns key l
                                 then Re.expand ps l [] else l)
                     (split_lines env_content)))
      | None => None
      end
    else Some (env_content ++ LF :: Env.assignment key value).
Proof.
  intros Hk. unfold Env.update_var, Env.key_pattern.
  pose proof (search_key env_content (key_prefix_one_line Hk)
                (@key_prefix_not_nil key)) as Hs.
  change (existsb (startswith (key ++ txt "=")) (split_lines env_content))
    with (existsb (Env.assigns key) (split_lines env_content)) in Hs.
  rewrite <- Hs.
  destruct (Re.search _ env_content); [|reflexivity].
  unfold Re.sub. rewrite count_groups_key.
  destruct (Re.parse_template 0 Re.TLit _) as [ps|]; [|reflexivity].
  rewrite sub_scan_key;
    [| apply key_prefix_one_line; exact Hk | apply key_prefix_not_nil | lia].
  rewrite map_lines_true. reflexivity.
Qed.

Lemma join_lines_snoc (ls : list text) (l : text) :
  ls <> [] -> join_lines (ls ++ [l]) = join_lines ls ++ LF :: l.
Proof.
  induction ls as [|a ls IH]; [congruence|]. intros _.
  destruct ls as [|b ls]; [reflexivity|].
  change ((a :: b :: ls) ++ [l]) with (a :: ((b :: ls) ++ [l])).
  rewrite join_lines_cons by (simpl; discriminate).
  rewrite IH by discriminate.
  rewrite (@join_lines_cons a (b :: ls)) by discriminate.
  rewrite <- app_assoc. reflexivity.
Qed.

(** What a round does for a value that is inserted as it is. *)
Lemma update_var_step (key value : text) (ls : list text) :
  Env.word_key key -> Env.plain_value value ->
  ls <> [] -> Forall one_line ls ->
  Env.update_var key value (join_lines ls)
  = Some (join_lines (Env.step_lines key value ls)).
Proof.
  intros Hk Hv Hne Hall. rewrite update_var_lines by exact Hk.
  rewrite split_join_lines by assumption. unfold Env.step_lines.
  destruct (existsb (Env.assigns key) ls).
  - rewrite parse_template_literal
      by (apply assignment_no_backslash; assumption).
    f_equal. f_equal. apply map_ext. intros l. unfold Env.set_line.
    rewrite expand_literal. reflexivity.
  - rewrite join_lines_snoc by exact Hne. reflexivity.
Qed.

(** ** Keys do not interfere *)

#[local] Arguments Ascii.eqb : simpl never.

Unset Implicit Arguments.

Lemma word_key_cons (c : ascii) (key : text) :
  Env.word_key (c :: key) -> Env.is_word c = true /\ Env.word_key key.
Proof. unfold Env.word_key. simpl. intros H. apply andb_true_iff in H. exact H. Qed.

Lemma assigns_same_key (k k' line : text) :
  Env.word_key k -> Env.word_key k' ->
  Env.assigns k line = true -> Env.assigns k' line = true -> k = k'.
Proof.
  unfold Env.assigns. revert k' line.
  induction k as [|a k IH]; intros k' line Hk Hk' H H'.
  - destruct k' as [|b k']; [reflexivity|].
    destruct line as [|c line]; [discriminate|]. simpl in H, H'.
    apply andb_true_iff in H, H'. destruct H as [H _], H' as [H' _].
    apply Ascii.eqb_eq in H, H'. subst c.
    apply word_key_cons in Hk'. destruct Hk' as [Hb _].
    apply is_word_not_equals in Hb. subst b. discriminate.
  - destruct line as [|c line]; [discriminate|]. simpl in H.
    apply andb_true_iff in H. destruct H as [Hac H].
    apply Ascii.eqb_eq in Hac. subst c.
    apply word_key_cons in Hk. destruct Hk as [Ha Hk].
    destruct k' as [|b k']; simpl in H'.
    + apply andb_true_iff in H'. destruct H' as [H' _].
      apply Ascii.eqb_eq in H'. apply is_word_not_equals in Ha.
      subst a. discriminate.
    + apply andb_true_iff in H'. destruct H' as [Hba H'].
      apply Ascii.eqb_eq in Hba. subst b.
      apply word_key_cons in Hk'. destruct Hk' as [_ Hk'].
      f_equal. exact (IH k' line Hk Hk' H H').
Qed.

Lemma assigns_assignment (key value : text) :
  Env.assigns key (Env.assignment key value) = true.
Proof.
  unfold Env.assigns, Env.assignment. rewrite app_assoc.
  apply startswith_app.
Qed.

Lemma assigns_other (k k' value : text) :
  Env.word_key k -> Env.word_key k' -> k <> k' ->
  Env.assigns k' (Env.assignment k value) = false.
Proof.
  intros Hk Hk' Hne.
  destruct (Env.assigns k' (Env.assignment k value)) eqn:E; [|reflexivity].
  exfalso. apply Hne.
  exact (assigns_same_key _ _ _ Hk Hk' (assigns_assignment k value) E).
Qed.

Lemma assigns_set_line (k k' value line : text) :
  Env.word_key k -> Env.word_key k' -> k <> k' ->
  Env.assigns k' (Env.set_line k value line) = Env.assigns k' line.
Proof.
  intros Hk Hk' Hne. unfold Env.set_line.
  destruct (Env.assigns k line) eqn:E; [|reflexivity].
  rewrite (assigns_other _ _ value Hk Hk' Hne).
  destruct (Env.assigns k' line) eqn:E'; [|reflexivity].
  exfalso. apply Hne. exact (assigns_same_key _ _ _ Hk Hk' E E').
Qed.

Lemma existsb_step_lines (k k' value : text) (ls : list text) :
  Env.word_key k -> Env.word_key k' -> k <> k' ->
  existsb (Env.assigns k') (Env.step_lines k value ls)
  = existsb (Env.assigns k') ls.
Proof.
  intros Hk Hk' Hne. unfold Env.step_lines.
  destruct (existsb (Env.assigns k) ls).
  - induction ls as [|l ls IH]; simpl; [reflexivity|].
    rewrite (assigns_set_line _ _ value l Hk Hk' Hne), IH. reflexivity.
  - rewrite existsb_app. simpl.
    rewrite (assigns_other _ _ value Hk Hk' Hne).
    rewrite !orb_false_r. reflexivity.
Qed.

Lemma rewrite_line_untouched (env_vars : list (text * text)) (line : text) :
  (forall k, In k (map fst env_vars) -> Env.assigns k line = false) ->
  Env.rewrite_line env_vars line = line.
Proof.
  induction env_vars as [|[k v] m IH]; simpl; [reflexivity|].
  intros H. rewrite (H k) by (left; reflexivity).
  apply IH. intros k' Hin. apply H. right. exact Hin.
Qed.

Lemma appended_ext (env_vars : list (text * text)) (ls ls' : list text) :
  (forall k, In k (map fst env_vars) ->
             existsb (Env.assigns k) ls' = existsb (Env.assigns k) ls) ->
  Env.appended env_vars ls' = Env.appended env_vars ls.
Proof.
  induction env_vars as [|[k v] m IH]; simpl; [reflexivity|].
  intros H. rewrite (H k) by (left; reflexivity).
  rewrite IH; [reflexivity|].
  intros k' Hin. apply H. right. exact Hin.
Qed.

Lemma existsb_false_all {A} (f : A -> bool) (l : list A) (a : A) :
  existsb f l = false -> In a l -> f a = false.
Proof.
  intros H Hin. destruct (f a) eqn:E; [|reflexivity].
  rewrite <- H. symmetry. apply existsb_exists. exists a. split; assumption.
Qed.

(** The loop as a whole, on lines: every line is rewritten in place and
    the keys that were absent are added at the end, in mapping order. *)
Lemma sync_lines_spec (env_vars : list (text * text)) :
  Forall Env.word_key (map fst env_vars) -> Env.is_dict env_vars ->
  forall ls,
    Env.sync_lines env_vars ls
    = map (Env.rewrite_line env_vars) ls ++ Env.appended env_vars ls.
Proof.
  unfold Env.is_dict.
  induction env_vars as [|[k v] m IH]; intros Hw Hd ls.
  - simpl. rewrite map_id, app_nil_r. reflexivity.
  - simpl in Hw, Hd. inversion Hw as [|? ? Hk Hm]; subst.
    inversion Hd as [|? ? Hnotin Hd']; subst.
    assert (forall k', In k' (map fst m) -> Env.word_key k' /\ k <> k')
      as Hother.
    { intros k' Hin. split.
      - rewrite Forall_forall in Hm. apply Hm. exact Hin.
      - intros ->. apply Hnotin. exact Hin. }
    cbn [Env.sync_lines]. rewrite (IH Hm Hd').
    rewrite (appended_ext m ls (Env.step_lines k v ls)).
    2:{ intros k' Hin. destruct (Hother k' Hin) as [Hk' Hne].
        apply existsb_step_lines; assumption. }
    assert (Env.rewrite_line m (Env.assignment k v) = Env.assignment k v)
      as Hkeep.
    { apply rewrite_line_untouched. intros k' Hin.
      destruct (Hother k' Hin) as [Hk' Hne].
      apply assigns_other; assumption. }
    cbn [Env.appended Env.rewrite_line]. unfold Env.step_lines.
    destruct (existsb (Env.assigns k) ls) eqn:E.
    + rewrite map_map. simpl. f_equal. apply map_ext. intros l.
      unfold Env.set_line. destruct (Env.assigns k l); [exact Hkeep|].
      reflexivity.
    + rewrite map_app. simpl. rewrite Hkeep, <- app_assoc. simpl.
      f_equal. apply map_ext_in. intros l Hin.
      rewrite (existsb_false_all _ _ _ E Hin). reflexivity.
Qed.

(** ** The loop on texts *)

Lemma step_lines_not_nil (key value : text) (ls : list text) :
  ls <> [] -> Env.step_lines key value ls <> [].
Proof.
  unfold Env.step_lines. intros Hne.
  destruct (existsb (Env.assigns key) ls); destruct ls; simpl;
    congruence.
Qed.

Lemma step_lines_one_line (key value : text) (ls : list text) :
  Env.word_key key -> Env.plain_value value ->
  Forall one_line ls -> Forall one_line (Env.step_lines key value ls).
Proof.
  intros Hk Hv Hall. pose proof (assignment_one_line Hk Hv) as Ha.
  unfold Env.step_lines. destruct (existsb (Env.assigns key) ls).
  - induction Hall as [|l ls Hl _ IH]; simpl; constructor; [|exact IH].
    unfold Env.set_line. destruct (Env.assigns key l); assumption.
  - apply Forall_app. split; [exact Hall|]. constructor; [exact Ha|constructor].
Qed.

Lemma sync_lines_not_nil (env_vars : list (text * text)) (ls : list text) :
  ls <> [] -> Env.sync_lines env_vars ls <> [].
Proof.
  revert ls. induction env_vars as [|[k v] m IH]; intros ls Hne; simpl;
    [exact Hne|].
  apply IH. apply step_lines_not_nil. exact Hne.
Qed.

Lemma sync_lines_one_line (env_vars : list (text * text)) (ls : list text) :
  Forall Env.word_key (map fst env_vars) ->
  Forall Env.plain_value (map snd env_vars) ->
  Forall one_line ls -> Forall one_line (Env.sync_lines env_vars ls).
Proof.
  revert ls. induction env_vars as [|[k v] m IH]; intros ls Hw Hp Hall;
    simpl; [exact Hall|].
  simpl in Hw, Hp. inversion Hw; inversion Hp; subst.
  apply IH; try assumption. apply step_lines_one_line; assumption.
Qed.

Lemma update_vars_join (env_vars : list (text * text)) :
  Forall Env.word_key (map fst env_vars) ->
  Forall Env.plain_value (map snd env_vars) ->
  forall ls, ls <> [] -> Forall one_line ls ->
    Env.update_vars env_vars (join_lines ls)
    = Some (join_lines (Env.sync_lines env_vars ls)).
Proof.
  induction env_vars as [|[k v] m IH]; intros Hw Hp ls Hne Hall;
    [reflexivity|].
  simpl in Hw, Hp. inversion Hw; inversion Hp; subst.
  cbn [Env.update_vars Env.sync_lines].
  rewrite (@update_var_step k v ls) by assumption.
  apply IH; try assumption.
  - apply step_lines_not_nil. exact Hne.
  - apply step_lines_one_line; assumption.
Qed.

(** For word keys and plain values the loop always completes, and its
    result is the line-wise loop applied to the lines of the text. *)
Lemma update_vars_lines (env_vars : list (text * text)) (env_content : text) :
  Forall Env.word_key (map fst env_vars) ->
  Forall Env.plain_value (map snd env_vars) ->
  Env.update_vars env_vars env_content
  = Some (join_lines (Env.sync_lines env_vars (split_lines env_content))).
Proof.
  intros Hw Hp. rewrite <- (join_split env_content) at 1.
  apply update_vars_join; try assumption.
  - apply split_lines_not_nil.
  - apply split_lines_one_line.
Qed.

Lemma split_sync_lines (env_vars : list (text * text)) (ls : list text) :
  Forall Env.word_key (map fst env_vars) ->
  Forall Env.plain_value (map snd env_vars) ->
  ls <> [] -> Forall one_line ls ->
  split_lines (join_lines (Env.sync_lines env_vars ls))
  = Env.sync_lines env_vars ls.
Proof.
  intros Hw Hp Hne Hall. apply split_join_lines.
  - apply sync_lines_not_nil. exact Hne.
  - apply sync_lines_one_line; assumption.
Qed.

(** ** What the loop makes of a line *)

Lemma rewrite_line_cases (env_vars : list (text * text)) (line : text) :
  Env.rewrite_line env_vars line = line
  \/ exists k v, In (k, v) env_vars /\ Env.assigns k line = true
                 /\ Env.rewrite_line env_vars line = Env.assignment k v.
Proof.
  induction env_vars as [|[k v] m IH]; simpl; [left; reflexivity|].
  destruct (Env.assigns k line) eqn:E.
  - right. exists k, v. auto.
  - destruct IH as [IH | (k' & v' & Hin & Ha & Hr)]; [left; exact IH|].
    right. exists k', v'. auto.
Qed.

Lemma in_keys (env_vars : list (text * text)) (k v : text) :
  In (k, v) env_vars -> In k (map fst env_vars).
Proof. intros H. apply (in_map fst) in H. exact H. Qed.

Lemma word_key_in (env_vars : list (text * text)) (k : text) :
  Forall Env.word_key (map fst env_vars) -> In k (map fst env_vars) ->
  Env.word_key k.
Proof. intros Hw Hin. rewrite Forall_forall in Hw. apply Hw. exact Hin. Qed.

Lemma rewrite_assignment (env_vars : list (text * text)) (k v : text) :
  Forall Env.word_key (map fst env_vars) -> Env.is_dict env_vars ->
  In (k, v) env_vars ->
  Env.rewrite_line env_vars (Env.assignment k v) = Env.assignment k v.
Proof.
  unfold Env.is_dict.
  induction env_vars as [|[k0 v0] m IH]; intros Hw Hd Hin; [contradiction|].
  simpl in Hw, Hd. inversion Hw as [|? ? Hk0 Hm]; subst.
  inversion Hd as [|? ? Hnotin Hd']; subst. simpl.
  destruct Hin as [Heq | Hin].
  - injection Heq as -> ->. rewrite assigns_assignment. reflexivity.
  - assert (k0 <> k) as Hne.
    { intros ->. apply Hnotin. exact (in_keys _ _ _ Hin). }
    rewrite (assigns_other k k0 v).
    + exact (IH Hm Hd' Hin).
    + exact (word_key_in _ _ Hm (in_keys _ _ _ Hin)).
    + exact Hk0.
    + intros Heq. apply Hne. symmetry. exact Heq.
Qed.

Lemma rewrite_line_idem (env_vars : list (text * text)) (line : text) :
  Forall Env.word_key (map fst env_vars) -> Env.is_dict env_vars ->
  Env.rewrite_line env_vars (Env.rewrite_line env_vars line)
  = Env.rewrite_line env_vars line.
Proof.
  intros Hw Hd.
  destruct (rewrite_line_cases env_vars line)
    as [H | (k & v & Hin & _ & H)]; rewrite H.
  - exact H.
  - apply rewrite_assignment; assumption.
Qed.

Lemma assigns_rewrite_line (env_vars : list (text * text)) (k line : text) :
  Forall Env.word_key (map fst env_vars) -> Env.word_key k ->
  Env.assigns k (Env.rewrite_line env_vars line) = Env.assigns k line.
Proof.
  intros Hw Hk.
  destruct (rewrite_line_cases env_vars line)
    as [H | (k' & v' & Hin & Ha & H)]; rewrite H; [reflexivity|].
  pose proof (word_key_in _ _ Hw (in_keys _ _ _ Hin)) as Hk'.
  destruct (list_eq_dec ascii_dec k' k) as [-> | Hne].
  - rewrite assigns_assignment, Ha. reflexivity.
  - rewrite (assigns_other k' k v' Hk' Hk Hne).
    destruct (Env.assigns k line) eqn:E; [|reflexivity].
    exfalso. apply Hne. exact (assigns_same_key _ _ _ Hk' Hk Ha E).
Qed.

Lemma appended_assignments (env_vars : list (text * text))
    (ls : list text) (a : text) :
  In a (Env.appended env_vars ls) ->
  exists k v, In (k, v) env_vars /\ a = Env.assignment k v
              /\ existsb (Env.assigns k) ls = false.
Proof.
  induction env_vars as [|[k v] m IH]; simpl; [contradiction|].
  intros H. apply in_app_or in H. destruct H as [H | H].
  - destruct (existsb (Env.assigns k) ls) eqn:E; [contradiction|].
    destruct H as [<- | []]. exists k, v. auto.
  - destruct (IH H) as (k' & v' & Hin & Ha & He). exists k', v'. auto.
Qed.

Lemma appended_in (env_vars : list (text * text)) (ls : list text)
    (k v : text) :
  In (k, v) env_vars -> existsb (Env.assigns k) ls = false ->
  In (Env.assignment k v) (Env.appended env_vars ls).
Proof.
  induction env_vars as [|[k0 v0] m IH]; simpl; [contradiction|].
  intros [Heq | Hin] He; apply in_or_app.
  - injection Heq as -> ->. rewrite He. left. left. reflexivity.
  - right. exact (IH Hin He).
Qed.

Lemma appended_nil (env_vars : list (text * text)) (ls : list text) :
  (forall k, In k (map fst env_vars) ->
             existsb (Env.assigns k) ls = true) ->
  Env.appended env_vars ls = [].
Proof.
  induction env_vars as [|[k v] m IH]; simpl; [reflexivity|].
  intros H. rewrite (H k) by (left; reflexivity). simpl.
  apply IH. intros k' Hin. apply H. right. exact Hin.
Qed.

Lemma existsb_map_rewrite (env_vars : list (text * text)) (k : text)
    (ls : list text) :
  Forall Env.word_key (map fst env_vars) -> Env.word_key k ->
  existsb (Env.assigns k) (map (Env.rewrite_line env_vars) ls)
  = existsb (Env.assigns k) ls.
Proof.
  intros Hw Hk. induction ls as [|l ls IH]; simpl; [reflexivity|].
  rewrite assigns_rewrite_line, IH by assumption. reflexivity.
Qed.

(** After the loop every key of the mapping is assigned by some line. *)
Lemma sync_lines_present (env_vars : list (text * text)) (ls : list text)
    (k : text) :
  Forall Env.word_key (map fst env_vars) -> Env.is_dict env_vars ->
  In k (map fst env_vars) ->
  existsb (Env.assigns k) (Env.sync_lines env_vars ls) = true.
Proof.
  intros Hw Hd Hin. rewrite sync_lines_spec by assumption.
  rewrite existsb_app.
  rewrite existsb_map_rewrite
    by (try assumption; exact (word_key_in _ _ Hw Hin)).
  destruct (existsb (Env.assigns k) ls) eqn:E; [reflexivity|]. simpl.
  apply in_map_iff in Hin. destruct Hin as ([k' v] & Hk & Hin).
  simpl in Hk. subst k'.
  apply existsb_exists. exists (Env.assignment k v). split.
  - apply appended_in; assumption.
  - apply assigns_assignment.
Qed.

(** The line-wise loop changes nothing the second time. *)
Lemma sync_lines_idem (env_vars : list (text * text)) (ls : list text) :
  Forall Env.word_key (map fst env_vars) -> Env.is_dict env_vars ->
  Env.sync_lines env_vars (Env.sync_lines env_vars ls)
  = Env.sync_lines env_vars ls.
Proof.
  intros Hw Hd.
  rewrite (sync_lines_spec env_vars Hw Hd (Env.sync_lines env_vars ls)).
  rewrite appended_nil
    by (intros k Hin; apply sync_lines_present; assumption).
  rewrite app_nil_r. rewrite (sync_lines_spec env_vars Hw Hd ls) at 2.
  rewrite (sync_lines_spec env_vars Hw Hd ls) at 1.
  rewrite map_app, map_map. f_equal.
  - apply map_ext. intros l. apply rewrite_line_idem; assumption.
  - rewrite <- (map_id (Env.appended env_vars ls)) at 2.
    apply map_ext_in. intros a Ha.
    destruct (appended_assignments _ _ _ Ha) as (k & v & Hin & -> & _).
    apply rewrite_assignment; assumption.
Qed.

(** ** Counting the lines of a key *)

Lemma count_key_app (k : text) (a b : list text) :
  Env.count_key k (a ++ b) = Env.count_key k a + Env.count_key k b.
Proof. unfold Env.count_key. rewrite filter_app, length_app. reflexivity. Qed.

Lemma count_key_zero (k : text) (ls : list text) :
  Env.count_key k ls = 0 <-> existsb (Env.assigns k) ls = false.
Proof.
  unfold Env.count_key. induction ls as [|l ls IH]; simpl; [tauto|].
  destruct (Env.assigns k l); simpl; [split; discriminate | exact IH].
Qed.

Lemma count_key_map_rewrite (env_vars : list (text * text)) (k : text)
    (ls : list text) :
  Forall Env.word_key (map fst env_vars) -> Env.word_key k ->
  Env.count_key k (map (Env.rewrite_line env_vars) ls) = Env.count_key k ls.
Proof.
  intros Hw Hk. unfold Env.count_key.
  induction ls as [|l ls IH]; simpl; [reflexivity|].
  rewrite assigns_rewrite_line by assumption.
  destruct (Env.assigns k l); simpl; rewrite IH; reflexivity.
Qed.

Lemma count_key_appended_other (env_vars : list (text * text)) (k : text)
    (ls : list text) :
  Forall Env.word_key (map fst env_vars) -> Env.word_key k ->
  ~ In k (map fst env_vars) ->
  Env.count_key k (Env.appended env_vars ls) = 0.
Proof.
  intros Hw Hk Hnotin. apply count_key_zero.
  destruct (existsb (Env.assigns k) (Env.appended env_vars ls)) eqn:E;
    [|reflexivity].
  exfalso. apply existsb_exists in E. destruct E as (a & Hin & Ha).
  destruct (appended_assignments _ _ _ Hin) as (k' & v' & Hin' & -> & _).
  pose proof (in_keys _ _ _ Hin') as Hk'in.
  assert (k' <> k) as Hne by (intros ->; contradiction).
  rewrite (assigns_other k' k v' (word_key_in _ _ Hw Hk'in) Hk Hne) in Ha.
  discriminate.
Qed.

Lemma count_key_appended (env_vars : list (text * text)) (k : text)
    (ls : list text) :
  Forall Env.word_key (map fst env_vars) -> Env.is_dict env_vars ->
  In k (map fst env_vars) ->
  Env.count_key k (Env.appended env_vars ls)
  = if existsb (Env.assigns k) ls then 0 else 1.
Proof.
  unfold Env.is_dict.
  induction env_vars as [|[k0 v0] m IH]; intros Hw Hd Hin; [contradiction|].
  simpl in Hw, Hd, Hin. inversion Hw as [|? ? Hk0 Hm]; subst.
  inversion Hd as [|? ? Hnotin Hd']; subst.
  cbn [Env.appended]. rewrite count_key_app.
  destruct Hin as [-> | Hin].
  - rewrite (count_key_appended_other m k ls Hm Hk0 Hnotin).
    destruct (existsb (Env.assigns k) ls); [reflexivity|].
    unfold Env.count_key. simpl. rewrite assigns_assignment. reflexivity.
  - rewrite (IH Hm Hd' Hin).
    assert (k0 <> k) as Hne by (intros ->; contradiction).
    destruct (existsb (Env.assigns k0) ls); [reflexivity|].
    unfold Env.count_key at 1. simpl.
    rewrite (assigns_other k0 k v0 Hk0 (word_key_in _ _ Hm Hin) Hne).
    reflexivity.
Qed.

Lemma count_key_one (k : text) (ls : list text) :
  Env.count_key k ls = 1 ->
  exists before line rest,
    ls = before ++ line :: rest /\ Env.assigns k line = true
    /\ Env.count_key k before = 0 /\ Env.count_key k rest = 0.
Proof.
  unfold Env.count_key. induction ls as [|l ls IH]; simpl; [discriminate|].
  destruct (Env.assigns k l) eqn:E; simpl; intros H.
  - exists [], l, ls. repeat split; try assumption. lia.
  - destruct (IH H) as (before & line & rest & -> & Ha & Hb & Hr).
    exists (l :: before), line, rest. simpl. rewrite E.
    repeat split; assumption.
Qed.

Lemma map_set_line_absent (k v : text) (ls : list text) :
  Env.count_key k ls = 0 -> map (Env.set_line k v) ls = ls.
Proof.
  intros H. apply count_key_zero in H.
  rewrite <- (map_id ls) at 2. apply map_ext_in. intros l Hin.
  unfold Env.set_line. rewrite (existsb_false_all _ _ _ H Hin). reflexivity.
Qed.

(** ** Lines that no key assigns stay where they are *)

Lemma concat_singletons {A} (l : list A) : concat (map (fun x => [x]) l) = l.
Proof. induction l as [|a l IH]; simpl; [reflexivity | rewrite IH; reflexivity]. Qed.

Lemma concat_map_concat {A B} (f : A -> list B) (xs : list (list A)) :
  concat (map f (concat xs)) = concat (map (fun x => concat (map f x)) xs).
Proof.
  induction xs as [|x xs IH]; simpl; [reflexivity|].
  rewrite map_app, concat_app, IH. reflexivity.
Qed.

Lemma framed_refl (keys : list text) (ls : list text) :
  Env.framed keys ls ls.
Proof.
  exists (fun l => [l]), []. split; [|reflexivity].
  rewrite concat_singletons, app_nil_r. reflexivity.
Qed.

Lemma framed_trans (keys : list text) (a b c : list text) :
  Env.framed keys a b -> Env.framed keys b c -> Env.framed keys a c.
Proof.
  intros (r1 & add1 & -> & H1) (r2 & add2 & -> & H2).
  exists (fun l => concat (map r2 (r1 l))), (concat (map r2 add1) ++ add2).
  split.
  - rewrite map_app, concat_app, concat_map_concat, map_map, app_assoc.
    reflexivity.
  - intros l Hl. rewrite (H1 l Hl). simpl. rewrite (H2 l Hl). reflexivity.
Qed.

Lemma framed_weaken (keys keys' : list text) (a b : list text) :
  (forall k, In k keys -> In k keys') ->
  Env.framed keys a b -> Env.framed keys' a b.
Proof.
  intros Hsub (r & added & -> & H). exists r, added. split; [reflexivity|].
  intros l Hl. apply H. intros k Hin. apply Hl, Hsub, Hin.
Qed.

Lemma update_var_framed (key value env_content after : text) :
  Env.word_key key ->
  Env.update_var key value env_content = Some after ->
  Env.framed [key] (split_lines env_content) (split_lines after).
Proof.
  intros Hk. rewrite update_var_lines by exact Hk.
  destruct (existsb (Env.assigns key) (split_lines env_content)).
  - destruct (Re.parse_template 0 Re.TLit (Env.assignment key value))
      as [ps|]; [|discriminate].
    intros H. injection H as <-.
    exists (fun l => if Env.assigns key l
                     then split_lines (Re.expand ps l []) else [l]), [].
    split.
    + rewrite app_nil_r, split_join.
      2:{ pose proof (split_lines_not_nil env_content) as Hne.
          destruct (split_lines env_content); [congruence|discriminate]. }
      rewrite map_map. f_equal. apply map_ext_in. intros l Hin.
      destruct (Env.assigns key l); [reflexivity|].
      apply split_one_line.
      pose proof (split_lines_one_line env_content) as Hall.
      rewrite Forall_forall in Hall. apply Hall. exact Hin.
    + intros l Hl. rewrite (Hl key) by (left; reflexivity). reflexivity.
  - intros H. injection H as <-.
    exists (fun l => [l]), (split_lines (Env.assignment key value)).
    split; [|reflexivity].
    rewrite split_app_lf, concat_singletons. reflexivity.
Qed.

Lemma update_vars_framed (env_vars : list (text * text)) :
  Forall Env.word_key (map fst env_vars) ->
  forall env_content after,
    Env.update_vars env_vars env_content = Some after ->
    Env.framed (map fst env_vars) (split_lines env_content)
      (split_lines after).
Proof.
  induction env_vars as [|[k v] m IH]; intros Hw env_content after H.
  - simpl in H. injection H as <-. apply framed_refl.
  - simpl in Hw. inversion Hw as [|? ? Hk Hm]; subst.
    cbn [Env.update_vars] in H.
    destruct (Env.update_var k v env_content) as [c1|] eqn:E;
      [|discriminate].
    apply (framed_trans _ _ (split_lines c1)).
    + apply (framed_weaken [k]).
      * intros k' [<- | []]. left. reflexivity.
      * exact (update_var_framed k v env_content c1 Hk E).
    + apply (framed_weaken (map fst m)).
      * intros k' Hin. right. exact Hin.
      * exact (IH Hm c1 after H).
Qed.

(** ** The loop twice *)

(** The text that the line-wise loop gives is left as it is by the loop. *)
Lemma update_vars_settled (env_vars : list (text * text)) (ls : list text) :
  Forall Env.word_key (map fst env_vars) ->
  Env.is_dict env_vars ->
  Forall Env.plain_value (map snd env_vars) ->
  ls <> [] -> Forall one_line ls ->
  Env.update_vars env_vars (join_lines (Env.sync_lines env_vars ls))
  = Some (join_lines (Env.sync_lines env_vars ls)).
Proof.
  intros Hw Hd Hp Hne Hall.
  rewrite update_vars_join; try assumption.
  - rewrite sync_lines_idem by assumption. reflexivity.
  - apply sync_lines_not_nil. exact Hne.
  - apply sync_lines_one_line; assumption.
Qed.

Lemma update_vars_app (m1 m2 : list (text * text)) (env_content : text) :
  Env.update_vars (m1 ++ m2) env_content
  = match Env.update_vars m1 env_content with
    | Some c => Env.update_vars m2 c
    | None => None
    end.
Proof.
  revert env_content. induction m1 as [|[k v] m1 IH]; intros env_content;
    [reflexivity|].
  simpl. destruct (Env.update_var k v env_content); [apply IH|reflexivity].
Qed.

Lemma distinct_NoDup (keys : list text) :
  Env.distinct keys = true -> NoDup keys.
Proof.
  induction keys as [|k keys IH]; simpl; intros H; constructor.
  - apply andb_true_iff in H. destruct H as [H _].
    apply negb_true_iff in H. intros Hin.
    assert (existsb (text_eqb k) keys = true) as Hex.
    { apply existsb_exists. exists k. split; [exact Hin|].
      apply text_eqb_refl. }
    congruence.
  - apply IH. apply andb_true_iff in H. apply H.
Qed.

(** The files after a write of what [.env] already holds. *)
Lemma write_same (content : text) (fs : Env.files) :
  fs ".env"%string = Some content ->
  forall path, Env.write ".env" content fs path = fs path.
Proof.
  intros H path. unfold Env.write.
  destruct (String.eqb path ".env") eqn:E; [|reflexivity].
  apply String.eqb_eq in E. subst path. symmetry. exact H.
Qed.

Lemma ensure_env_written (content : text) (fs : Env.files) :
  Env.ensure_env (Env.write ".env" content fs) = Env.write ".env" content fs
  /\ Env.read_env (Env.write ".env" content fs) = universal_newlines content.
Proof. split; reflexivity. Qed.

(** ** Environment-file synchronisation: the claims *)

(** C3, as amended.  For a mapping as in C1 and a key of the mapping, the
    number of lines that assign the key after the pass is the number before
    it, or one when there was none: the pass adds a line for an absent key
    and rewrites the lines of a present one, all of them. *)
Theorem sync_key_count (env_vars : list (text * text))
    (env_content key : text) :
  Forall Env.word_key (map fst env_vars) ->
  Env.is_dict env_vars ->
  Forall Env.plain_value (map snd env_vars) ->
  In key (map fst env_vars) ->
  exists after,
    Env.update_vars env_vars env_content = Some after
    /\ Env.count_key key (split_lines after)
       = Nat.max 1 (Env.count_key key (split_lines env_content)).
Proof.
  intros Hw Hd Hp Hin. rewrite update_vars_lines by assumption.
  eexists. split; [reflexivity|].
  rewrite split_sync_lines; try assumption;
    [| apply split_lines_not_nil | apply split_lines_one_line].
  rewrite sync_lines_spec by assumption.
  rewrite count_key_app.
  rewrite count_key_map_rewrite
    by (try assumption; exact (word_key_in _ _ Hw Hin)).
  rewrite count_key_appended by assumption.
  destruct (existsb (Env.assigns key) (split_lines env_content)) eqn:E.
  - destruct (Env.count_key key (split_lines env_content)) eqn:C; [|lia].
    apply count_key_zero in C. congruence.
  - apply count_key_zero in E. rewrite E. reflexivity.
Qed.

Lemma sync_key_count_witness :
  exists after,
    Env.update_vars Examples.scenario Examples.old_env = Some after
    /\ Env.count_key Examples.SUPABASE_URL (split_lines after)
       = Nat.max 1
           (Env.count_key Examples.SUPABASE_URL
              (split_lines Examples.old_env)).
Proof.
  apply (sync_key_count Examples.scenario Examples.old_env
           Examples.SUPABASE_URL).
  - repeat constructor.
  - repeat constructor; simpl; intuition discriminate.
  - repeat constructor.
  - left. reflexivity.
Defined.

(** C3 as stated fails: a file that assigns the key on two lines still has
    two such lines after the pass. *)
Lemma sync_keeps_duplicates :
  exists after,
    Env.update_vars Examples.new_url Examples.duplicated_env = Some after
    /\ ~ Env.count_key Examples.SUPABASE_URL (split_lines after) <= 1.
Proof.
  eexists. split; [vm_compute; reflexivity|]. vm_compute. lia.
Qed.

(** C4, as amended.  For a key that is a name and a value that holds
    neither a line feed nor a backslash: when no line of the file starts
    with [KEY=], the pass adds the one line [KEY=value] after the lines of
    the file; when exactly one line does, the pass replaces that line by
    [KEY=value] where it stands, the other lines and the number of lines
    being unchanged. *)
Theorem sync_single_key (key value env_content : text) :
  Env.word_key key -> Env.plain_value value ->
  exists after,
    Env.update_vars [(key, value)] env_content = Some after
    /\ (Env.count_key key (split_lines env_content) = 0 ->
        after = env_content ++ LF :: Env.assignment key value
        /\ split_lines after
           = split_lines env_content ++ [Env.assignment key value])
    /\ (Env.count_key key (split_lines env_content) = 1 ->
        exists before line rest,
          split_lines env_content = before ++ line :: rest
          /\ Env.assigns key line = true
          /\ split_lines after
             = before ++ Env.assignment key value :: rest
          /\ length (split_lines after)
             = length (split_lines env_content)).
Proof.
  intros Hk Hv.
  assert (Forall Env.word_key (map fst [(key, value)])) as Hw
    by (repeat constructor; exact Hk).
  assert (Forall Env.plain_value (map snd [(key, value)])) as Hp
    by (repeat constructor; exact Hv).
  rewrite update_vars_lines by assumption.
  eexists. split; [reflexivity|].
  rewrite split_sync_lines; try assumption;
    [| apply split_lines_not_nil | apply split_lines_one_line].
  cbn [Env.sync_lines]. unfold Env.step_lines. split.
  - intros H0. apply count_key_zero in H0. rewrite H0. split.
    + rewrite join_lines_snoc by apply split_lines_not_nil.
      rewrite join_split. reflexivity.
    + reflexivity.
  - intros H1.
    destruct (count_key_one _ _ H1)
      as (before & line & rest & Hs & Ha & Hb & Hr).
    exists before, line, rest.
    assert (existsb (Env.assigns key) (split_lines env_content) = true)
      as He.
    { destruct (existsb (Env.assigns key) (split_lines env_content)) eqn:E;
        [reflexivity|].
      apply count_key_zero in E. lia. }
    rewrite He, Hs, map_app. simpl.
    rewrite (map_set_line_absent _ _ _ Hb), (map_set_line_absent _ _ _ Hr).
    unfold Env.set_line at 1. rewrite Ha.
    repeat split; try assumption.
    rewrite !length_app. reflexivity.
Qed.

Lemma sync_single_key_witness :
  exists after,
    Env.update_vars [(Examples.SUPABASE_URL, txt "c")] Examples.old_env
    = Some after
    /\ (Env.count_key Examples.SUPABASE_URL (split_lines Examples.old_env)
        = 0 ->
        after = Examples.old_env
                ++ LF :: Env.assignment Examples.SUPABASE_URL (txt "c")
        /\ split_lines after
           = split_lines Examples.old_env
             ++ [Env.assignment Examples.SUPABASE_URL (txt "c")])
    /\ (Env.count_key Examples.SUPABASE_URL (split_lines Examples.old_env)
        = 1 ->
        exists before line rest,
          split_lines Examples.old_env = before ++ line :: rest
          /\ Env.assigns Examples.SUPABASE_URL line = true
          /\ split_lines after
             = before
               ++ Env.assignment Examples.SUPABASE_URL (txt "c") :: rest
          /\ length (split_lines after)
             = length (split_lines Examples.old_env)).
Proof.
  apply (sync_single_key Examples.SUPABASE_URL (txt "c") Examples.old_env);
    reflexivity.
Defined.

(** C4 as stated fails: a value of two lines adds two lines for an absent
    key. *)
Lemma sync_two_line_value_adds_two :
  exists after,
    Env.count_key Examples.SUPABASE_URL (split_lines []) = 0
    /\ Env.update_vars Examples.two_line_value [] = Some after
    /\ length (split_lines after) = 2 + length (split_lines []).
Proof.
  eexists. split; [reflexivity|]. split; vm_compute; reflexivity.
Qed.

(** C5, as amended.  From the empty file the pass over the mapping of the
    scenario gives an empty first line followed by the two lines of the
    mapping, in insertion order: each added line is preceded by a line
    feed, the first one too. *)
Theorem sync_scenario :
  Env.update_vars Examples.scenario [] = Some Examples.scenario_env
  /\ Examples.scenario_env
     = LF :: txt "SUPABASE_URL=https://abc.supabase.co"
       ++ LF :: txt "SUPABASE_ANON_KEY=k1"
  /\ split_lines Examples.scenario_env
     = [ []; txt "SUPABASE_URL=https://abc.supabase.co";
         txt "SUPABASE_ANON_KEY=k1" ]
  /\ readlines Examples.scenario_env
     = [ [LF]; txt "SUPABASE_URL=https://abc.supabase.co" ++ [LF];
         txt "SUPABASE_ANON_KEY=k1" ].
Proof. repeat split; vm_compute; reflexivity. Qed.

(** C5 as stated fails: the file has three lines, the first one empty. *)
Lemma sync_scenario_blank_first_line :
  exists after,
    Env.update_vars Examples.scenario [] = Some after
    /\ split_lines after
       <> [ txt "SUPABASE_URL=https://abc.supabase.co";
            txt "SUPABASE_ANON_KEY=k1" ]
    /\ hd_error (split_lines after) = Some [].
Proof.
  eexists. split; [vm_compute; reflexivity|].
  split; [vm_compute; discriminate | vm_compute; reflexivity].
Qed.

(** C10.  For a mapping whose keys are names, whatever the values: when
    the pass completes, the lines of the result are the lines of the file,
    each replaced where it stands, followed by added lines; a line that
    starts with [KEY=] for no key of the mapping is replaced by itself.
    When moreover the keys are distinct and the values hold neither a line
    feed nor a backslash, each line becomes [KEY=value] for the key it
    assigns, and the added lines are the assignments of the absent keys. *)
Theorem sync_frame (env_vars : list (text * text))
    (env_content after : text) :
  Forall Env.word_key (map fst env_vars) ->
  Env.update_vars env_vars env_content = Some after ->
  (exists (r : text -> list text) (added : list text),
      split_lines after = concat (map r (split_lines env_content)) ++ added
      /\ forall line,
           (forall k, In k (map fst env_vars) ->
                      Env.assigns k line = false) ->
           r line = [line])
  /\ (Env.is_dict env_vars ->
      Forall Env.plain_value (map snd env_vars) ->
      split_lines after
      = map (Env.rewrite_line env_vars) (split_lines env_content)
        ++ Env.appended env_vars (split_lines env_content)
      /\ forall line,
           (forall k, In k (map fst env_vars) ->
                      Env.assigns k line = false) ->
           Env.rewrite_line env_vars line = line).
Proof.
  intros Hw H. split.
  - exact (update_vars_framed env_vars Hw env_content after H).
  - intros Hd Hp. rewrite update_vars_lines in H by assumption.
    injection H as <-. split.
    + rewrite split_sync_lines; try assumption;
        [| apply split_lines_not_nil | apply split_lines_one_line].
      apply sync_lines_spec; assumption.
    + intros line Hl. apply rewrite_line_untouched. exact Hl.
Qed.

Lemma sync_frame_witness :
  (exists (r : text -> list text) (added : list text),
      split_lines Examples.old_env_synced
      = concat (map r (split_lines Examples.old_env)) ++ added
      /\ forall line,
           (forall k, In k (map fst Examples.new_url) ->
                      Env.assigns k line = false) ->
           r line = [line])
  /\ (Env.is_dict Examples.new_url ->
      Forall Env.plain_value (map snd Examples.new_url) ->
      split_lines Examples.old_env_synced
      = map (Env.rewrite_line Examples.new_url)
          (split_lines Examples.old_env)
        ++ Env.appended Examples.new_url (split_lines Examples.old_env)
      /\ forall line,
           (forall k, In k (map fst Examples.new_url) ->
                      Env.assigns k line = false) ->
           Env.rewrite_line Examples.new_url line = line).
Proof.
  apply (sync_frame Examples.new_url Examples.old_env
           Examples.old_env_synced).
  - repeat constructor.
  - vm_compute. reflexivity.
Defined.

(** ** The password generators *)

Lemma join_choices_spec (n : nat) (alphabet : text) (w : world) :
  alphabet <> [] ->
  exists password w',
    join_choices n alphabet w = (Returned password, w')
    /\ length password = n
    /\ Forall (fun c => In c alphabet) password
    /\ drawn w' = n + drawn w
    /\ slept w' = slept w /\ ran w' = ran w /\ cli w' = cli w.
Proof.
  intros Hne. revert w. induction n as [|n IH]; intros w.
  - exists [], w. repeat split. constructor.
  - cbn [join_choices]. unfold bind at 1. unfold choice at 1.
    match goal with
    | |- context [bind (join_choices n alphabet) _ ?w1] =>
        destruct (IH w1)
          as (rest & w' & Hrun & Hlen & Hall & Hd & Hs & Hr & Hc)
    end.
    unfold bind. rewrite Hrun. unfold ret.
    eexists. exists w'. split; [reflexivity|].
    simpl in Hd, Hs, Hr, Hc.
    repeat split; simpl; try assumption; try lia.
    constructor; [|exact Hall].
    apply nth_In. apply Nat.mod_upper_bound.
    destruct alphabet; [congruence | discriminate].
Qed.

(** A character of either alphabet is a letter, a digit or a punctuation
    mark of ASCII; none is white space or NUL. *)
Lemma alphabet_chars (alphabet : text) (c : ascii) :
  alphabet = Setup.alphabet \/ alphabet = CreateProject.safe_alphabet ->
  In c alphabet ->
  printable c = true /\ isspace c = false /\ argv_safe c = true.
Proof.
  intros Halphabet Hc.
  assert (forallb (fun c => printable c && negb (isspace c) && argv_safe c)
            alphabet = true) as Hall
    by (destruct Halphabet as [-> | ->]; vm_compute; reflexivity).
  rewrite forallb_forall in Hall. specialize (Hall c Hc).
  apply andb_true_iff in Hall. destruct Hall as [Hall Hsafe].
  apply andb_true_iff in Hall. destruct Hall as [Hprint Hspace].
  apply negb_true_iff in Hspace. repeat split; assumption.
Qed.

(** C6.  Whatever [secrets] draws, each generator returns as many
    characters as [range(length)] has elements, every one of them a
    character of its alphabet: a letter, a digit or a punctuation mark of
    ASCII, no white space, and a character that an argument of a command
    can hold as it is, the commands being run without a shell.  The
    password is passed to the creation command as one argument of its
    own in [setup.py] and inside one argument in [create-project.py]. *)
Theorem generated_password_safe (length_ : Z)
    (project_name org_id region : text) (w : world) :
  (exists password w',
      Setup.generate_secure_password length_ w = (Returned password, w')
      /\ length password = Z.to_nat length_
      /\ Forall (fun c => In c Setup.alphabet /\ printable c = true
                          /\ isspace c = false /\ argv_safe c = true)
           password
      /\ In password
           (Setup.create_command project_name org_id password region))
  /\ (exists password w',
        CreateProject.generate_secure_password length_ w
        = (Returned password, w')
        /\ length password = Z.to_nat length_
        /\ Forall (fun c => In c CreateProject.safe_alphabet
                            /\ printable c = true
                            /\ isspace c = false /\ argv_safe c = true)
             password
        /\ In (txt "--db-password=" ++ password)
             (CreateProject.create_command project_name org_id password
                region)).
Proof.
  split.
  - destruct (join_choices_spec (Z.to_nat length_) Setup.alphabet w)
      as (pw & w' & H & Hl & Ha & _); [discriminate|].
    exists pw, w'. split; [exact H|]. split; [exact Hl|]. split.
    + rewrite Forall_forall in Ha |- *. intros c Hc.
      split; [exact (Ha c Hc)|].
      apply (alphabet_chars Setup.alphabet); [left; reflexivity|].
      exact (Ha c Hc).
    + unfold Setup.create_command. apply in_or_app. right.
      simpl. tauto.
  - destruct (join_choices_spec (Z.to_nat length_)
                CreateProject.safe_alphabet w)
      as (pw & w' & H & Hl & Ha & _); [discriminate|].
    exists pw, w'. split; [exact H|]. split; [exact Hl|]. split.
    + rewrite Forall_forall in Ha |- *. intros c Hc.
      split; [exact (Ha c Hc)|].
      apply (alphabet_chars CreateProject.safe_alphabet);
        [right; reflexivity|].
      exact (Ha c Hc).
    + unfold CreateProject.create_command. apply in_or_app. right.
      simpl. tauto.
Qed.

(** ** Retry loops when every command fails *)

Lemma always_fails_record_run (cmd : list text) (w : world) :
  always_fails w -> always_fails (record_run cmd w).
Proof. intros H. exact H. Qed.

Lemma always_fails_record_sleep (seconds : Z) (w : world) :
  always_fails w -> always_fails (record_sleep seconds w).
Proof. intros H. exact H. Qed.

Create HintDb fails.

#[local] Hint Resolve always_fails_record_run always_fails_record_sleep
  : fails.

Lemma fails_eqb (w : world) :
  always_fails w ->
  forall n cmd, (exit_code (cli w n cmd) =? 0)%Z = false.
Proof. intros H n cmd. apply Z.eqb_neq. apply H. Qed.

Lemma for_each_cons {A R} (x : A) (xs : list A) (body : A -> M (flow R))
    (w : world) :
  for_each (x :: xs) body w
  = match body x w with
    | (Returned Next, w') => for_each xs body w'
    | (Returned Break, w') => (Returned None, w')
    | (Returned (Return r), w') => (Returned (Some r), w')
    | (Exited code, w') => (Exited code, w')
    | (Raised e, w') => (Raised e, w')
    end.
Proof.
  cbn [for_each]. unfold bind.
  destruct (body x w) as [[[| |r]|code|e] w']; reflexivity.
Qed.

Lemma range_1_4 : range 1 4 = [1; 2; 3]%Z.
Proof. reflexivity. Qed.

Lemma range_1_6 : range 1 6 = [1; 2; 3; 4; 5]%Z.
Proof. reflexivity. Qed.

Lemma run_command_fails (cmd : list text) (capture_output : bool)
    (w : world) :
  always_fails w ->
  exists result,
    run_command cmd false capture_output w = (Returned result, record_run cmd w)
    /\ (returncode result =? 0)%Z = false.
Proof.
  intros H. unfold run_command. cbn [andb].
  eexists. split; [reflexivity|]. cbn [returncode]. apply fails_eqb. exact H.
Qed.

Ltac fail_command H :=
  match goal with
  | |- context [run_command ?cmd false ?cap ?w] =>
      let result := fresh "result" in
      let Hrun := fresh "Hrun" in
      let Hrc := fresh "Hrc" in
      destruct (run_command_fails cmd cap w) as (result & Hrun & Hrc);
      [auto with fails | rewrite Hrun; clear Hrun]
  end.

Lemma exists_attempt_fails (project_name : text) (attempt : Z) (w : world) :
  always_fails w ->
  Setup.exists_attempt project_name attempt w
  = (Returned Next, record_sleep 1 (record_run Setup.projects_list_json w)).
Proof.
  intros H. unfold Setup.exists_attempt, bind at 1. fail_command H.
  unfold Setup.succeeded. rewrite Hrc. reflexivity.
Qed.

Lemma project_id_attempt_fails (project_name : text) (attempt : Z)
    (w : world) :
  always_fails w ->
  Setup.project_id_attempt project_name attempt w
  = (Returned Next, record_sleep 10 (record_run Setup.projects_list_json w)).
Proof.
  intros H. unfold Setup.project_id_attempt, bind at 1. fail_command H.
  unfold Setup.read_project_id, Setup.succeeded. rewrite Hrc. reflexivity.
Qed.

Lemma api_keys_attempt_fails (project_id : text) (attempt : Z) (w : world) :
  always_fails w ->
  Setup.api_keys_attempt project_id attempt w
  = (Returned Next,
     record_sleep (attempt * 5)
       (record_run (Setup.api_keys_json_command project_id)
          (if (attempt =? 1)%Z
           then record_run (Setup.api_keys_command project_id) w
           else w))).
Proof.
  intros H. unfold Setup.api_keys_attempt.
  destruct (attempt =? 1)%Z.
  - unfold bind at 1. unfold bind at 1. fail_command H.
    cbn [ret]. unfold bind at 1. fail_command H.
    unfold Setup.read_api_keys, Setup.succeeded. rewrite Hrc0. reflexivity.
  - unfold bind at 1. cbn [ret]. unfold bind at 1. fail_command H.
    unfold Setup.read_api_keys, Setup.succeeded. rewrite Hrc. reflexivity.
Qed.

Lemma create_attempt_fails (cmd : list text) (attempt : Z) (w : world) :
  always_fails w ->
  Setup.create_attempt cmd attempt w
  = (Returned Next,
     if (attempt <? 3)%Z then record_sleep 1 (record_run cmd w)
     else record_run cmd w).
Proof.
  intros H. unfold Setup.create_attempt, bind at 1. fail_command H.
  rewrite Hrc. destruct (attempt <? 3)%Z; reflexivity.
Qed.

Lemma fatal_attempt_fails (cmd : list text) (last delay attempt : Z)
    (w : world) :
  always_fails w ->
  Setup.fatal_attempt cmd last delay attempt w
  = if (attempt =? last)%Z then (Exited 1%Z, record_run cmd w)
    else (Returned Next, record_sleep delay (record_run cmd w)).
Proof.
  intros H. unfold Setup.fatal_attempt, bind at 1. fail_command H.
  rewrite Hrc. destruct (attempt =? last)%Z; reflexivity.
Qed.

Lemma config_attempt_fails (cmd : list text) (attempt : Z) (w : world) :
  always_fails w ->
  Setup.config_attempt cmd attempt w
  = if (attempt =? 3)%Z then (Exited 1%Z, record_run cmd w)
    else (Returned Next, record_sleep 3 (record_run cmd w)).
Proof.
  intros H. unfold Setup.config_attempt, bind at 1. fail_command H.
  rewrite Hrc. destruct (attempt =? 3)%Z; reflexivity.
Qed.

Ltac fail_rounds round_fails :=
  repeat (rewrite for_each_cons, round_fails by auto 20 with fails;
          cbn [Z.eqb Z.ltb Z.compare Pos.eqb Pos.compare Pos.compare_cont]).

Lemma check_project_exists_fails (project_name : text) (w : world) :
  always_fails w ->
  Setup.check_project_exists project_name w
  = (Returned false,
     Nat.iter 3
       (fun w => record_sleep 1 (record_run Setup.projects_list_json w)) w).
Proof.
  intros H. unfold Setup.check_project_exists, bind.
  rewrite range_1_4. fail_rounds exists_attempt_fails. reflexivity.
Qed.

Lemma get_project_id_fails (project_name : text) (w : world) :
  always_fails w ->
  Setup.get_project_id project_name w
  = (Returned None,
     Nat.iter 5
       (fun w => record_sleep 10 (record_run Setup.projects_list_json w)) w).
Proof.
  intros H. unfold Setup.get_project_id.
  rewrite range_1_6. fail_rounds project_id_attempt_fails. reflexivity.
Qed.

Lemma get_api_keys_fails (project_id : text) (w : world) :
  always_fails w ->
  exists w',
    Setup.get_api_keys project_id w = (Returned (JNull, JNull), w')
    /\ slept w' = slept w ++ [5; 10; 15; 20; 25]%Z.
Proof.
  intros H. unfold Setup.get_api_keys, bind at 1.
  rewrite range_1_6. fail_rounds api_keys_attempt_fails.
  cbn [for_each ret]. unfold bind at 1. fail_command H.
  unfold Setup.succeeded. rewrite Hrc. cbn [andb ret].
  eexists. split; [reflexivity|]. cbn. rewrite <- !app_assoc. reflexivity.
Qed.

Lemma link_project_fails (project_id db_password : text) (w : world) :
  always_fails w ->
  fst (Setup.link_project project_id db_password w) = Exited 1%Z.
Proof.
  intros H. unfold Setup.link_project, bind.
  rewrite range_1_6. fail_rounds fatal_attempt_fails. reflexivity.
Qed.

Lemma three_attempts_fails (cmd : list text) (w : world) :
  always_fails w -> fst (Setup.three_attempts cmd w) = Exited 1%Z.
Proof.
  intros H. unfold Setup.three_attempts, bind.
  rewrite range_1_4. fail_rounds fatal_attempt_fails. reflexivity.
Qed.

Lemma setup_auth_urls_fails (w : world) :
  always_fails w -> fst (Setup.setup_auth_urls w) = Exited 1%Z.
Proof.
  intros H. unfold Setup.setup_auth_urls, Setup.config_set, bind.
  rewrite range_1_4. fail_rounds config_attempt_fails. reflexivity.
Qed.

(** When no command succeeds, [create_project] runs its three attempts,
    goes on to the five attempts of the project-ID lookup, and exits on
    the absent result of that lookup. *)
Lemma create_project_fails (project_name org_id region : text) (w : world) :
  always_fails w ->
  exists db_password w',
    Setup.create_project project_name org_id region w = (Exited 1%Z, w')
    /\ ran w'
       = ran w
         ++ repeat (Setup.create_command project_name org_id db_password
                      region) 3
         ++ repeat Setup.projects_list_json 5.
Proof.
  intros H. unfold Setup.create_project, Setup.generate_secure_password.
  unfold bind at 1.
  destruct (join_choices_spec (Z.to_nat 16) Setup.alphabet w)
    as (pw & w1 & Hp & _ & _ & _ & Hs & Hr & Hc); [discriminate|].
  rewrite Hp. exists pw.
  assert (always_fails w1) as H1.
  { intros n cmd. rewrite Hc. apply H. }
  unfold bind at 1. unfold write_file at 1.
  match goal with
  | |- context [bind (for_each _ _) _ ?w2] => remember w2 as wr eqn:Hwr
  end.
  assert (always_fails wr) as H2 by (subst wr; exact H1).
  assert (ran wr = ran w) as Hr2 by (subst wr; exact Hr).
  clear Hwr.
  unfold bind at 1. rewrite range_1_4.
  fail_rounds create_attempt_fails. cbn [for_each ret].
  unfold bind at 1. rewrite get_project_id_fails by auto 20 with fails.
  eexists. split; [reflexivity|]. cbn. rewrite Hr2.
  rewrite <- !app_assoc. reflexivity.
Qed.

(** ** Retry loops in any world *)

Lemma reads_only_ret {A} (a : A) : reads_only (ret a).
Proof. intros w. split; [reflexivity | discriminate]. Qed.

Lemma reads_only_lift {A} (r : exn + A) : reads_only (lift r).
Proof. intros w. destruct r; split; try reflexivity; discriminate. Qed.

Lemma reads_only_loads (s : text) : reads_only (loads s).
Proof. intros w. split; [reflexivity | discriminate]. Qed.

Lemma reads_only_bind {A B} (m : M A) (k : A -> M B) :
  reads_only m -> (forall a, reads_only (k a)) -> reads_only (bind m k).
Proof.
  intros Hm Hk w. unfold bind. destruct (Hm w) as [Hw He].
  destruct (m w) as [[a|code|e] w']; simpl in Hw, He; subst w'.
  - apply Hk.
  - exfalso. exact (He code eq_refl).
  - split; [reflexivity | discriminate].
Qed.

#[local] Hint Resolve reads_only_ret reads_only_lift reads_only_loads : fails.

Lemma read_api_keys_reads_only (result : completed_process) :
  reads_only (Setup.read_api_keys result).
Proof.
  unfold Setup.read_api_keys.
  destruct (Setup.succeeded result); [|apply reads_only_ret].
  apply reads_only_bind; [apply reads_only_loads|]. intros [keys_data|].
  - apply reads_only_bind; [apply reads_only_lift|]. intros items.
    apply reads_only_bind; [apply reads_only_lift|]. intros keys.
    destruct (truthy (fst keys) && truthy (snd keys)); apply reads_only_ret.
  - apply reads_only_ret.
Qed.

Lemma read_project_id_reads_only (project_name : text)
    (result : completed_process) :
  reads_only (Setup.read_project_id project_name result).
Proof.
  unfold Setup.read_project_id.
  destruct (Setup.succeeded result); [|apply reads_only_ret].
  apply reads_only_bind; [apply reads_only_loads|]. intros [projects|].
  - apply reads_only_bind; [apply reads_only_lift|]. intros items.
    apply reads_only_lift.
  - apply reads_only_ret.
Qed.

Lemma round_after_read {A R} (before : M unit) (cmd : list text)
    (read : completed_process -> M (option A)) (delay : Z)
    (wrap : A -> R) :
  (forall w, exists w', before w = (Returned tt, w') /\ slept w' = slept w) ->
  (forall result, reads_only (read result)) ->
  round_sleeps
    (before ;;;
     result <- run_command cmd false true ;;
     answer <- read result ;;
     match answer with
     | Some a => ret (Return (wrap a))
     | None => sleep delay ;;; ret Next
     end) delay.
Proof.
  intros Hbefore Hread w. unfold bind at 1.
  destruct (Hbefore w) as (w0 & -> & Hs0).
  unfold bind at 1. unfold run_command. cbn [andb].
  unfold bind at 1.
  match goal with
  | |- context [read ?r ?w1] =>
      destruct (Hread r w1) as [Hw He]; destruct (read r w1) as [o w2]
  end.
  cbn [fst snd] in Hw, He. subst w2.
  destruct o as [[a|]|code|e].
  - eexists. eexists. split; [reflexivity|]. right.
    repeat split; try discriminate. exact Hs0.
  - eexists. eexists. split; [reflexivity|]. left.
    cbn. rewrite Hs0. split; reflexivity.
  - exfalso. exact (He code eq_refl).
  - eexists. eexists. split; [reflexivity|]. right.
    repeat split; try discriminate. exact Hs0.
Qed.

Lemma for_each_sleeps {R} (body : Z -> M (flow R)) (delay : Z -> Z) :
  (forall x, round_sleeps (body x) (delay x)) ->
  forall xs w, exists o w' k,
    for_each xs body w = (o, w')
    /\ (forall code, o <> Exited code)
    /\ k <= length xs
    /\ slept w' = slept w ++ map delay (firstn k xs).
Proof.
  intros Hround. induction xs as [|x xs IH]; intros w.
  - exists (Returned None), w, 0. cbn. rewrite app_nil_r.
    repeat split; try discriminate. lia.
  - rewrite for_each_cons.
    destruct (Hround x w) as (o & w1 & E & [[-> Hs] | (Hn & He & Hs)]);
      rewrite E.
    + destruct (IH w1) as (o' & w' & k & E' & He' & Hk & Hs').
      exists o', w', (S k). rewrite E'. repeat split; try assumption.
      * simpl. lia.
      * rewrite Hs', Hs, <- app_assoc. reflexivity.
    + destruct o as [[| |r]|code|e].
      * congruence.
      * exists (Returned None), w1, 0. cbn. rewrite app_nil_r.
        repeat split; try discriminate; try assumption. lia.
      * exists (Returned (Some r)), w1, 0. cbn. rewrite app_nil_r.
        repeat split; try discriminate; try assumption. lia.
      * exfalso. exact (He code eq_refl).
      * exists (Raised e), w1, 0. cbn. rewrite app_nil_r.
        repeat split; try discriminate; try assumption. lia.
Qed.

Lemma api_keys_attempt_sleeps (project_id : text) (attempt : Z) :
  round_sleeps (Setup.api_keys_attempt project_id attempt) (attempt * 5).
Proof.
  unfold Setup.api_keys_attempt.
  apply (round_after_read
           (if (attempt =? 1)%Z
            then run_command (Setup.api_keys_command project_id) false false
                 ;;; ret tt
            else ret tt)
           (Setup.api_keys_json_command project_id)
           Setup.read_api_keys (attempt * 5) (fun keys => keys)).
  - intros w. destruct (attempt =? 1)%Z.
    + eexists. split; [reflexivity|]. reflexivity.
    + exists w. split; reflexivity.
  - apply read_api_keys_reads_only.
Qed.

Lemma project_id_attempt_sleeps (project_name : text) (attempt : Z) :
  round_sleeps (Setup.project_id_attempt project_name attempt) 10.
Proof.
  intros w.
  exact (round_after_read (ret tt) Setup.projects_list_json
           (Setup.read_project_id project_name) 10 (fun id => id)
           (fun w => ex_intro _ w (conj eq_refl eq_refl))
           (read_project_id_reads_only project_name) w).
Qed.

Lemma map_const_firstn {A B} (c : B) (xs : list A) (k : nat) :
  k <= length xs -> map (fun _ => c) (firstn k xs) = repeat c k.
Proof.
  revert k. induction xs as [|x xs IH]; intros [|k] Hk; simpl in *;
    try reflexivity; try lia.
  rewrite IH by lia. reflexivity.
Qed.

(** C7, as amended.  In every world, [get_api_keys] sleeps five seconds
    times the number of the attempt after each attempt that found no keys:
    the delays it has slept are 5, 10, ... up to the last failed attempt,
    and 5, 10, 15, 20, 25 when every command fails.  [get_project_id]
    sleeps ten seconds after each attempt that found no project, whatever
    the number of the attempt. *)
Theorem backoff_delays (project_id project_name : text) (w : world) :
  (exists k,
      k <= 5
      /\ slept (snd (Setup.get_api_keys project_id w))
         = slept w ++ map (fun attempt => attempt * 5)%Z
                        (firstn k (range 1 6)))
  /\ (exists k,
        k <= 5
        /\ slept (snd (Setup.get_project_id project_name w))
           = slept w ++ repeat 10%Z k)
  /\ slept (snd (Setup.get_api_keys project_id (Examples.failing_world 0)))
     = [5; 10; 15; 20; 25]%Z
  /\ slept (snd (Setup.get_project_id project_name
                   (Examples.failing_world 0)))
     = [10; 10; 10; 10; 10]%Z.
Proof.
  assert (always_fails (Examples.failing_world 0)) as Hfail
    by (intros n cmd; discriminate).
  split; [|split; [|split]];
    [| | destruct (get_api_keys_fails project_id _ Hfail) as (w' & E & Hs);
         rewrite E; cbn [snd]; rewrite Hs; reflexivity
       | rewrite (get_project_id_fails project_name _ Hfail); reflexivity ].
  - destruct (for_each_sleeps (Setup.api_keys_attempt project_id)
                (fun attempt => attempt * 5)%Z
                (api_keys_attempt_sleeps project_id) (range 1 6) w)
      as (o & w' & k & E & He & Hk & Hs).
    exists k. split; [exact Hk|].
    unfold Setup.get_api_keys, bind at 1. rewrite E.
    destruct o as [[keys|]|code|e]; cbn [ret snd]; try exact Hs.
    unfold bind, run_command. cbn [andb].
    destruct (Setup.succeeded _); [|exact Hs].
    destruct (Re.search _ _); [|exact Hs].
    destruct (Re.search _ _); exact Hs.
  - destruct (for_each_sleeps (Setup.project_id_attempt project_name)
                (fun _ => 10)%Z
                (project_id_attempt_sleeps project_name) (range 1 6) w)
      as (o & w' & k & E & He & Hk & Hs).
    exists k. split; [exact Hk|].
    unfold Setup.get_project_id. rewrite E. cbn [snd]. rewrite Hs.
    rewrite map_const_firstn by exact Hk. reflexivity.
Qed.

(** C7 as stated fails for the project-ID lookup: its delays are not the
    multiples of any base. *)
Lemma project_id_delay_constant :
  ~ exists base,
      slept (snd (Setup.get_project_id (txt "demo")
                    (Examples.failing_world 0)))
      = map (fun attempt => attempt * base)%Z (range 1 6).
Proof.
  intros [base H]. vm_compute in H.
  injection H as H1 H2 _ _ _.
  destruct base as [|b|b]; try discriminate.
  destruct b; discriminate.
Qed.

(** ** The fallback of [get_api_keys] *)

Lemma api_keys_attempt_eq (project_id : text) (attempt : Z) (w : world) :
  Setup.api_keys_attempt project_id attempt w
  = match
      Setup.read_api_keys
        {| returncode := exit_code (Setup.json_answer project_id attempt w);
           stdout := Some (output (Setup.json_answer project_id attempt w)) |}
        (record_run (Setup.api_keys_json_command project_id)
           (if (attempt =? 1)%Z
            then record_run (Setup.api_keys_command project_id) w
            else w))
    with
    | (Returned (Some keys), w') => (Returned (Return keys), w')
    | (Returned None, w') =>
        (Returned Next, record_sleep (attempt * 5) w')
    | (Exited code, w') => (Exited code, w')
    | (Raised e, w') => (Raised e, w')
    end.
Proof.
  unfold Setup.api_keys_attempt, Setup.json_answer.
  destruct (attempt =? 1)%Z.
  - unfold bind at 1. unfold bind at 1. unfold run_command at 1.
    cbn [andb ret]. unfold bind at 1. unfold run_command at 1.
    cbn [andb cli ran record_run]. rewrite length_app. cbn [length].
    unfold bind.
    destruct (Setup.read_api_keys _ _) as [[[keys|]|code|e] w'];
      reflexivity.
  - unfold bind at 1. cbn [ret]. unfold bind at 1.
    unfold run_command at 1. cbn [andb]. rewrite Nat.add_0_r.
    unfold bind.
    destruct (Setup.read_api_keys _ _) as [[[keys|]|code|e] w'];
      reflexivity.
Qed.

Lemma get_api_keys_never_exits (project_id : text) (w : world) (code : Z) :
  fst (Setup.get_api_keys project_id w) <> Exited code.
Proof.
  destruct (for_each_sleeps (Setup.api_keys_attempt project_id)
              (fun attempt => attempt * 5)%Z
              (api_keys_attempt_sleeps project_id) (range 1 6) w)
    as (o & w' & k & E & He & _ & _).
  unfold Setup.get_api_keys, bind at 1. rewrite E.
  destruct o as [[keys|]|c|e]; cbn [ret fst]; try discriminate.
  - unfold bind, run_command. cbn [andb].
    destruct (Setup.succeeded _); [|discriminate].
    destruct (Re.search _ _); [|discriminate].
    destruct (Re.search _ _); discriminate.
  - exfalso. exact (He c eq_refl).
Qed.




(** ** [read_env_file] *)

Lemma split_once_first_eq (line : text) :
  split_once "=" line = (Link.before_first_eq line, Link.after_first_eq line).
Proof.
  induction line as [|c line IH]; simpl; [reflexivity|].
  destruct (Ascii.eqb c "="); [reflexivity|]. rewrite IH. reflexivity.
Qed.

Lemma is_assignment_spec (line : text) :
  Link.is_assignment line = negb (Link.spec_skipped line).
Proof.
  unfold Link.is_assignment, Link.spec_skipped.
  rewrite !negb_orb, negb_involutive. reflexivity.
Qed.

Lemma dict_get_set (key k v : text) (d : Link.dict) :
  Link.dict_get key (Link.dict_set k v d)
  = if text_eqb k key then Some v else Link.dict_get key d.
Proof.
  induction d as [|[k0 v0] d IH]; simpl; [reflexivity|].
  destruct (text_eqb k0 k) eqn:E; simpl.
  - apply text_eqb_eq in E. subst k0.
    destruct (text_eqb k key); reflexivity.
  - rewrite IH. destruct (text_eqb k0 key) eqn:E0; [|reflexivity].
    apply text_eqb_eq in E0. subst k0.
    destruct (text_eqb k key) eqn:E1; [|reflexivity].
    apply text_eqb_eq in E1. subst k. rewrite text_eqb_refl in E.
    discriminate.
Qed.

Lemma read_lines_spec (key : text) (lines : list text) (d : Link.dict) :
  Link.dict_get key (Link.read_lines lines d)
  = match Link.spec_last key
            (map (fun line => (Link.before_first_eq line,
                               Link.after_first_eq line))
               (filter (fun line => negb (Link.spec_skipped line))
                  (map strip lines))) with
    | Some v => Some v
    | None => Link.dict_get key d
    end.
Proof.
  revert d. induction lines as [|line lines IH]; intros d; [reflexivity|].
  cbn [Link.read_lines map filter]. rewrite is_assignment_spec.
  destruct (negb (Link.spec_skipped (strip line))); [|apply IH].
  rewrite split_once_first_eq, IH. cbn [map Link.spec_last].
  destruct (Link.spec_last key _); [reflexivity|].
  rewrite dict_get_set.
  destruct (text_eqb (Link.before_first_eq (strip line)) key); reflexivity.
Qed.

(** ** [update_env_file] of the two scripts *)

Lemma create_project_update_env_file_all
    (project_id project_url anon_key service_key db_password org_id : text)
    (fs : Env.files) :
  CreateProject.update_env_file project_id project_url anon_key service_key
    db_password org_id fs
  = match Env.update_vars
            (CreateProject.all_vars project_id project_url anon_key
               service_key db_password org_id)
            (Env.read_env (Env.ensure_env fs)) with
    | Some env_content =>
        Some (Env.write ".env" env_content (Env.ensure_env fs))
    | None => None
    end.
Proof.
  unfold CreateProject.update_env_file, CreateProject.all_vars.
  cbv zeta. rewrite update_vars_app.
  destruct (Env.update_vars (CreateProject.env_vars _ _ _ _ _ _) _);
    [|reflexivity].
  rewrite update_vars_app.
  destruct (Env.update_vars (CreateProject.public_vars _ project_url) _);
    reflexivity.
Qed.

Lemma all_vars_word_keys
    (project_id project_url anon_key service_key db_password org_id : text) :
  Forall Env.word_key
    (map fst (CreateProject.all_vars project_id project_url anon_key
                service_key db_password org_id)).
Proof.
  unfold CreateProject.all_vars, CreateProject.public_vars.
  destruct (text_eqb project_url []), (text_eqb anon_key []);
    repeat constructor.
Qed.

Lemma all_vars_is_dict
    (project_id project_url anon_key service_key db_password org_id : text) :
  Env.is_dict (CreateProject.all_vars project_id project_url anon_key
                 service_key db_password org_id).
Proof.
  apply distinct_NoDup.
  unfold CreateProject.all_vars, CreateProject.public_vars.
  destruct (text_eqb project_url []), (text_eqb anon_key []); reflexivity.
Qed.

Lemma setup_env_vars_word_keys
    (project_url anon_key service_key db_password org_id : text) :
  Forall Env.word_key
    (map fst (Setup.env_vars project_url anon_key service_key db_password
                org_id)).
Proof. repeat constructor. Qed.

Lemma setup_env_vars_is_dict
    (project_url anon_key service_key db_password org_id : text) :
  Env.is_dict (Setup.env_vars project_url anon_key service_key db_password
                 org_id).
Proof. apply distinct_NoDup. reflexivity. Qed.

(** ** Line ends *)

Lemma text_ind2 (P : text -> Prop) :
  P [] -> (forall c, P [c]) ->
  (forall a b s, P s -> P (b :: s) -> P (a :: b :: s)) ->
  forall s, P s.
Proof.
  intros H0 H1 H2 s.
  assert (P s /\ forall c, P (c :: s)) as [H _]; [|exact H].
  induction s as [|b s [IH1 IH2]].
  - split; [exact H0 | exact H1].
  - split; [apply IH2|]. intros a. apply H2; [exact IH1 | apply IH2].
Qed.

Lemma no_cr_cons (c : ascii) (s : text) :
  no_cr (c :: s) <-> is_cr c = false /\ no_cr s.
Proof.
  unfold no_cr. cbn [forallb]. rewrite andb_true_iff, negb_true_iff.
  reflexivity.
Qed.

Lemma universal_no_cr (s : text) : no_cr (universal_newlines s).
Proof.
  induction s as [|c|a b s IH1 IH2] using text_ind2.
  - reflexivity.
  - cbn [universal_newlines]. destruct (is_cr c) eqn:E; [reflexivity|].
    apply no_cr_cons. split; [exact E | reflexivity].
  - cbn [universal_newlines] in IH2 |- *. destruct (is_cr a) eqn:Ea.
    + apply no_cr_cons. split; [reflexivity|].
      destruct (is_lf b); [exact IH1 | exact IH2].
    + apply no_cr_cons. split; [exact Ea | exact IH2].
Qed.

Lemma universal_id (s : text) : no_cr s -> universal_newlines s = s.
Proof.
  induction s as [|c s IH]; [reflexivity|]. intros H.
  apply no_cr_cons in H. destruct H as [Hc Hs].
  cbn [universal_newlines]. rewrite Hc, (IH Hs). reflexivity.
Qed.

Lemma no_cr_app (a b : text) : no_cr a -> no_cr b -> no_cr (a ++ b).
Proof. apply forallb_app_true. Qed.

Lemma no_cr_split_lines (s : text) : no_cr s -> Forall no_cr (split_lines s).
Proof.
  induction s as [|c s IH]; intros H; [repeat constructor|].
  apply no_cr_cons in H. destruct H as [Hc Hs]. specialize (IH Hs).
  cbn [split_lines]. destruct (is_lf c).
  - constructor; [reflexivity | exact IH].
  - destruct (split_lines s) as [|l ls].
    + repeat constructor. apply no_cr_cons. split; [exact Hc | reflexivity].
    + inversion IH; subst. constructor; [|assumption].
      apply no_cr_cons. split; assumption.
Qed.

Lemma no_cr_join_lines (ls : list text) :
  Forall no_cr ls -> no_cr (join_lines ls).
Proof.
  induction ls as [|l ls IH]; intros H; [reflexivity|].
  inversion H as [|? ? Hl Hls]; subst. destruct ls as [|l' ls].
  - exact Hl.
  - rewrite join_lines_cons by discriminate.
    apply no_cr_app; [exact Hl|]. apply no_cr_cons.
    split; [reflexivity | apply IH; exact Hls].
Qed.

Lemma is_word_not_cr (c : ascii) :
  Env.is_word c = true -> negb (is_cr c) = true.
Proof.
  intros H. destruct (is_cr c) eqn:E; [|reflexivity].
  apply Ascii.eqb_eq in E. subst c. discriminate.
Qed.

Lemma assignment_no_cr (key value : text) :
  Env.word_key key -> no_cr value -> no_cr (Env.assignment key value).
Proof.
  intros Hk Hv. unfold Env.assignment.
  apply no_cr_app; [|apply no_cr_app; [reflexivity | exact Hv]].
  exact (forallb_weaken _ _ _ is_word_not_cr Hk).
Qed.

Lemma step_lines_no_cr (key value : text) (ls : list text) :
  Env.word_key key -> no_cr value ->
  Forall no_cr ls -> Forall no_cr (Env.step_lines key value ls).
Proof.
  intros Hk Hv Hall. pose proof (assignment_no_cr key value Hk Hv) as Ha.
  unfold Env.step_lines. destruct (existsb (Env.assigns key) ls).
  - induction Hall as [|l ls Hl _ IH]; simpl; constructor; [|exact IH].
    unfold Env.set_line. destruct (Env.assigns key l); assumption.
  - apply Forall_app. split; [exact Hall|].
    constructor; [exact Ha | constructor].
Qed.

Lemma sync_lines_no_cr (env_vars : list (text * text)) (ls : list text) :
  Forall Env.word_key (map fst env_vars) ->
  Forall no_cr (map snd env_vars) ->
  Forall no_cr ls -> Forall no_cr (Env.sync_lines env_vars ls).
Proof.
  revert ls. induction env_vars as [|[k v] m IH]; intros ls Hw Hp Hall;
    simpl; [exact Hall|].
  simpl in Hw, Hp. inversion Hw; inversion Hp; subst.
  apply IH; try assumption. apply step_lines_no_cr; assumption.
Qed.

Lemma read_env_no_cr (files : Env.files) : no_cr (Env.read_env files).
Proof.
  unfold Env.read_env. destruct (files ".env"%string);
    [apply universal_no_cr | reflexivity].
Qed.

(** ** [update_env_file] on the files *)

Lemma sync_file_runs (env_vars : list (text * text)) (files : Env.files) :
  Forall Env.word_key (map fst env_vars) ->
  Forall Env.plain_value (map snd env_vars) ->
  Env.sync_file env_vars files
  = Some (Env.write ".env"
            (join_lines
               (Env.sync_lines env_vars
                  (split_lines (Env.read_env (Env.ensure_env files)))))
            (Env.ensure_env files)).
Proof.
  intros Hw Hp. unfold Env.sync_file. cbv zeta.
  rewrite update_vars_lines by assumption. reflexivity.
Qed.

(** What the pass writes holds no carriage return when the values hold
    none: the text it read holds none. *)
Lemma synced_no_cr (env_vars : list (text * text)) (files : Env.files) :
  Forall Env.word_key (map fst env_vars) ->
  Forall no_cr (map snd env_vars) ->
  no_cr (join_lines
           (Env.sync_lines env_vars
              (split_lines (Env.read_env (Env.ensure_env files))))).
Proof.
  intros Hw Hc. apply no_cr_join_lines. apply sync_lines_no_cr;
    try assumption.
  apply no_cr_split_lines. apply read_env_no_cr.
Qed.

Lemma sync_file_settled (env_vars : list (text * text))
    (files : Env.files) :
  Forall Env.word_key (map fst env_vars) ->
  Env.is_dict env_vars ->
  Forall Env.plain_value (map snd env_vars) ->
  Forall no_cr (map snd env_vars) ->
  Env.settles (Env.sync_file env_vars) files.
Proof.
  intros Hw Hd Hp Hc. unfold Env.settles.
  rewrite sync_file_runs by assumption.
  eexists. eexists. split; [reflexivity|].
  unfold Env.sync_file. cbv zeta.
  rewrite (proj1 (ensure_env_written _ (Env.ensure_env files))).
  rewrite (proj2 (ensure_env_written _ (Env.ensure_env files))).
  rewrite (universal_id _ (synced_no_cr env_vars files Hw Hc)).
  rewrite update_vars_settled; try assumption;
    [| apply split_lines_not_nil | apply split_lines_one_line].
  split; [reflexivity|].
  intros path. apply write_same. reflexivity.
Qed.

Lemma setup_env_vars_values
    (P : text -> Prop)
    (project_id project_url anon_key service_key db_password org_id : text) :
  Forall P
    [project_id; project_url; anon_key; service_key; db_password; org_id] ->
  Forall P
    (map snd (Setup.env_vars project_url anon_key service_key db_password
                org_id)).
Proof.
  intros H.
  inversion H as [|? ? Hi H1]; subst. inversion H1 as [|? ? Hu H2]; subst.
  inversion H2 as [|? ? Ha H3]; subst. inversion H3 as [|? ? Hs H4]; subst.
  inversion H4 as [|? ? Hd H5]; subst. inversion H5 as [|? ? Ho H6]; subst.
  repeat constructor; assumption.
Qed.

Lemma all_vars_values
    (P : text -> Prop)
    (project_id project_url anon_key service_key db_password org_id : text) :
  Forall P
    [project_id; project_url; anon_key; service_key; db_password; org_id] ->
  Forall P
    (map snd (CreateProject.all_vars project_id project_url anon_key
                service_key db_password org_id)).
Proof.
  intros H.
  inversion H as [|? ? Hi H1]; subst. inversion H1 as [|? ? Hu H2]; subst.
  inversion H2 as [|? ? Ha H3]; subst. inversion H3 as [|? ? Hs H4]; subst.
  inversion H4 as [|? ? Hd H5]; subst. inversion H5 as [|? ? Ho H6]; subst.
  unfold CreateProject.all_vars, CreateProject.public_vars.
  destruct (text_eqb project_url []), (text_eqb anon_key []);
    repeat constructor; assumption.
Qed.

(** C1, as amended.  For values that hold no line feed, no carriage
    return and no backslash, [update_env_file] run twice on the same files
    leaves, the second time, every file as the first run left it: this
    holds for the function with any mapping whose keys are names, for
    [update_env_file] of [setup.py] and for the one of
    [create-project.py]. *)
Theorem sync_idempotent (env_vars : list (text * text))
    (project_id project_url anon_key service_key db_password org_id : text)
    (files : Env.files) :
  Forall Env.word_key (map fst env_vars) ->
  Env.is_dict env_vars ->
  Forall Env.plain_value (map snd env_vars) ->
  Forall no_cr (map snd env_vars) ->
  Forall Env.plain_value
    [project_id; project_url; anon_key; service_key; db_password; org_id] ->
  Forall no_cr
    [project_id; project_url; anon_key; service_key; db_password; org_id] ->
  Env.settles (Env.sync_file env_vars) files
  /\ Env.settles
       (Setup.update_env_file project_id project_url anon_key service_key
          db_password org_id) files
  /\ Env.settles
       (CreateProject.update_env_file project_id project_url anon_key
          service_key db_password org_id) files.
Proof.
  intros Hw Hd Hp Hc Hplain Hcr.
  split; [apply sync_file_settled; assumption|]. split.
  - apply (sync_file_settled
             (Setup.env_vars project_url anon_key service_key db_password
                org_id) files).
    + apply setup_env_vars_word_keys.
    + apply setup_env_vars_is_dict.
    + apply (setup_env_vars_values Env.plain_value project_id). exact Hplain.
    + apply (setup_env_vars_values no_cr project_id). exact Hcr.
  - destruct (sync_file_settled
                (CreateProject.all_vars project_id project_url anon_key
                   service_key db_password org_id) files)
      as (once & twice & H1 & H2 & H3).
    + apply all_vars_word_keys.
    + apply all_vars_is_dict.
    + apply all_vars_values. exact Hplain.
    + apply all_vars_values. exact Hcr.
    + exists once, twice.
      rewrite !create_project_update_env_file_all.
      split; [exact H1|]. split; [exact H2 | exact H3].
Qed.

Lemma sync_idempotent_witness :
  Env.settles (Env.sync_file Examples.scenario) (fun _ => None)
  /\ Env.settles
       (Setup.update_env_file (txt "abcd") (txt "https://abcd.supabase.co")
          (txt "k1") (txt "k2") (txt "pw") (txt "org")) (fun _ => None)
  /\ Env.settles
       (CreateProject.update_env_file (txt "abcd")
          (txt "https://abcd.supabase.co") (txt "k1") (txt "k2") (txt "pw")
          (txt "org")) (fun _ => None).
Proof.
  apply (sync_idempotent Examples.scenario (txt "abcd")
           (txt "https://abcd.supabase.co") (txt "k1") (txt "k2")
           (txt "pw") (txt "org") (fun _ => None)).
  - repeat constructor.
  - repeat constructor; simpl; intuition discriminate.
  - repeat constructor.
  - repeat constructor.
  - repeat constructor.
  - repeat constructor.
Defined.

(** C1 as stated fails.  With a value of two lines the second run
    matches only the first of them and writes the second one again.  With
    a value that holds a carriage return the first run writes it as it is,
    the second run reads it as a line end, and the same happens.  With a
    value that holds a backslash the first run adds the line as it is and
    the second run reads the value as a template, which raises here. *)
Lemma sync_not_idempotent :
  (forall value,
      In value [txt "a" ++ LF :: txt "b"; txt "a" ++ CR :: txt "b"] ->
      exists once twice,
        Setup.update_env_file (txt "abcd") (txt "u") (txt "k1") (txt "k2")
          (txt "pw") value (fun _ => None) = Some once
        /\ Setup.update_env_file (txt "abcd") (txt "u") (txt "k1") (txt "k2")
             (txt "pw") value once = Some twice
        /\ once ".env"%string <> twice ".env"%string)
  /\ (exists once,
        Setup.update_env_file (txt "abcd") (txt "u") (txt "k1") (txt "k2")
          (txt "pw") (txt "a\1") (fun _ => None) = Some once
        /\ Setup.update_env_file (txt "abcd") (txt "u") (txt "k1") (txt "k2")
             (txt "pw") (txt "a\1") once = None).
Proof.
  split.
  - intros value [<- | [<- | []]].
    + eexists. eexists. split; [vm_compute; reflexivity|].
      split; [vm_compute; reflexivity|]. vm_compute. discriminate.
    + eexists. eexists. split; [vm_compute; reflexivity|].
      split; [vm_compute; reflexivity|]. vm_compute. discriminate.
  - eexists. split; vm_compute; reflexivity.
Qed.

(** The passwords that the generators return are plain values: neither
    alphabet holds a line feed or a backslash. *)
Lemma generated_password_plain (password : text) :
  Forall (fun c => In c Setup.alphabet) password
  \/ Forall (fun c => In c CreateProject.safe_alphabet) password ->
  Env.plain_value password.
Proof.
  assert (forall alphabet,
             forallb (fun c => negb (is_lf c)
                               && negb (Ascii.eqb c BACKSLASH)) alphabet
             = true ->
             Forall (fun c => In c alphabet) password ->
             Env.plain_value password) as Hgen.
  { intros alphabet Hal Hpw. unfold Env.plain_value.
    apply forallb_forall. intros c Hc.
    rewrite Forall_forall in Hpw. rewrite forallb_forall in Hal.
    apply Hal, Hpw, Hc. }
  intros [H | H]; [apply (Hgen Setup.alphabet) | apply (Hgen CreateProject.safe_alphabet)];
    try exact H; vm_compute; reflexivity.
Qed.

(** The result of [read_env_file] is a mapping: no key occurs twice. *)
Lemma dict_set_keys (k v : text) (d : Link.dict) :
  map fst (Link.dict_set k v d)
  = if existsb (text_eqb k) (map fst d) then map fst d
    else map fst d ++ [k].
Proof.
  induction d as [|[k0 v0] d IH]; simpl; [reflexivity|].
  destruct (text_eqb k0 k) eqn:E; simpl.
  - apply text_eqb_eq in E. subst k0. rewrite text_eqb_refl. reflexivity.
  - assert (text_eqb k k0 = false) as E'.
    { apply text_eqb_neq. apply text_eqb_neq in E. congruence. }
    rewrite E', IH. simpl.
    destruct (existsb (text_eqb k) (map fst d)); reflexivity.
Qed.

Lemma read_lines_keys (lines : list text) (d : Link.dict) :
  NoDup (map fst d) -> NoDup (map fst (Link.read_lines lines d)).
Proof.
  revert d. induction lines as [|line lines IH]; intros d Hd; [exact Hd|].
  cbn [Link.read_lines]. destruct (Link.is_assignment (strip line));
    [|apply IH; exact Hd].
  destruct (split_once "=" (strip line)) as [k v]. apply IH.
  rewrite dict_set_keys.
  destruct (existsb (text_eqb k) (map fst d)) eqn:E; [exact Hd|].
  apply NoDup_app; [exact Hd | repeat constructor; intros [] |].
  intros x Hx [Hk | []]. subst x.
  assert (existsb (text_eqb k) (map fst d) = true) as Hex.
  { apply existsb_exists. exists k. split; [exact Hx | apply text_eqb_refl]. }
  congruence.
Qed.

Lemma parse_env_keys (content : text) :
  NoDup (map fst (Link.parse_env content)).
Proof. apply read_lines_keys. constructor. Qed.

(** * Further properties of the scripts *)

(** ** Stripping *)

Lemma lstrip_app (a b : text) :
  lstrip (a ++ b) = if forallb isspace a then lstrip b else lstrip a ++ b.
Proof.
  induction a as [|c a IH]; simpl; [reflexivity|].
  destruct (isspace c); simpl; [exact IH | reflexivity].
Qed.

Lemma lstrip_solid (c : ascii) (s : text) :
  isspace c = false -> lstrip (c :: s) = c :: s.
Proof. intros H. simpl. rewrite H. reflexivity. Qed.

Lemma lstrip_all_space (a : text) : forallb isspace a = true -> lstrip a = [].
Proof.
  induction a as [|c a IH]; simpl; [reflexivity|].
  destruct (isspace c); simpl; [exact IH | discriminate].
Qed.

(** A prefix that ends with a character that is no white space is kept. *)
Lemma rstrip_app (p : text) (c : ascii) (v : text) :
  isspace c = false -> rstrip ((p ++ [c]) ++ v) = (p ++ [c]) ++ rstrip v.
Proof.
  intros Hc. unfold rstrip. rewrite rev_app_distr, rev_unit, lstrip_app.
  destruct (forallb isspace (rev v)) eqn:E.
  - rewrite (lstrip_all_space _ E), (lstrip_solid _ _ Hc). simpl.
    rewrite rev_involutive, app_nil_r. reflexivity.
  - rewrite rev_app_distr. simpl. rewrite rev_involutive. reflexivity.
Qed.

Lemma rstrip_snoc_space (s : text) (c : ascii) :
  isspace c = true -> rstrip (s ++ [c]) = rstrip s.
Proof.
  intros Hc. unfold rstrip. rewrite rev_app_distr. simpl. rewrite Hc.
  reflexivity.
Qed.

Lemma strip_snoc_lf (l : text) : strip (l ++ [LF]) = strip l.
Proof.
  unfold strip. fold (rstrip (lstrip (l ++ [LF]))). fold (rstrip (lstrip l)).
  rewrite lstrip_app. destruct (forallb isspace l) eqn:E.
  - rewrite (lstrip_all_space _ E). reflexivity.
  - apply rstrip_snoc_space. reflexivity.
Qed.

Lemma is_word_not_space (c : ascii) : Env.is_word c = true -> isspace c = false.
Proof.
  intros H. destruct c as [[] [] [] [] [] [] [] []];
    try reflexivity; discriminate H.
Qed.

(** A line [KEY=value] is stripped into [KEY=] and the value without the
    white space at its end. *)
Lemma strip_assignment (key value : text) :
  Env.word_key key ->
  strip (Env.assignment key value) = Env.assignment key (rstrip value).
Proof.
  intros Hk. unfold strip. fold (rstrip (lstrip (Env.assignment key value))).
  assert (lstrip (Env.assignment key value) = Env.assignment key value) as Hl.
  { unfold Env.assignment. destruct key as [|c key].
    - reflexivity.
    - apply word_key_cons in Hk. destruct Hk as [Hc _].
      apply lstrip_solid. apply is_word_not_space. exact Hc. }
  rewrite Hl. unfold Env.assignment.
  change (txt "=") with ([]  ++ ["="%char]).
  rewrite !app_assoc. rewrite app_nil_r.
  apply rstrip_app. reflexivity.
Qed.

(** ** The lines a file yields and the lines of its text *)

Lemma readlines_first (s : text) :
  readlines s
  = match after_line s with
    | [] => match first_line s with
            | [] => []
            | _ :: _ => [first_line s]
            end
    | _ :: s' => (first_line s ++ [LF]) :: readlines s'
    end.
Proof.
  induction s as [|c s IH]; [reflexivity|].
  cbn [readlines first_line after_line].
  destruct (is_lf c) eqn:E.
  - apply is_lf_eq in E. subst c. reflexivity.
  - rewrite IH. destruct (after_line s) as [|a s'].
    + destruct (first_line s); reflexivity.
    + reflexivity.
Qed.

Lemma strip_nil : strip [] = [].
Proof. reflexivity. Qed.

(** The lines that [read_env_file] keeps are the same whether the text
    is cut as a file is read or between its line feeds. *)
Lemma kept_lines_split (s : text) :
  filter (fun line => negb (Link.spec_skipped line)) (map strip (readlines s))
  = filter (fun line => negb (Link.spec_skipped line))
      (map strip (split_lines s)).
Proof.
  remember (length s) as n eqn:Hn. revert s Hn.
  induction n as [n IH] using lt_wf_ind. intros s Hn.
  rewrite readlines_first, split_lines_first.
  pose proof (length_after_line s) as Hl.
  destruct (after_line s) as [|a s'] eqn:A.
  - destruct (first_line s); reflexivity.
  - cbn [map filter]. rewrite strip_snoc_lf.
    rewrite (IH (length s')); [reflexivity | | reflexivity].
    simpl in Hl. lia.
Qed.

Lemma parse_env_lines (content key : text) :
  Link.dict_get key (Link.parse_env content)
  = Link.spec_last key
      (map (fun line => (Link.before_first_eq line, Link.after_first_eq line))
         (filter (fun line => negb (Link.spec_skipped line))
            (map strip (split_lines (universal_newlines content))))).
Proof.
  unfold Link.parse_env. rewrite read_lines_spec, kept_lines_split.
  destruct (Link.spec_last key _); reflexivity.
Qed.

(** ** The lines and the stripping of the specification *)

Lemma spec_lines_universal (s : text) :
  Link.spec_lines s = split_lines (universal_newlines s).
Proof.
  induction s as [|c|a b s IH1 IH2] using text_ind2.
  - reflexivity.
  - cbn [Link.spec_lines universal_newlines split_lines].
    destruct (is_cr c) eqn:Ec.
    + apply Ascii.eqb_eq in Ec. subst c. reflexivity.
    + cbn [split_lines]. destruct (is_lf c); reflexivity.
  - cbn [Link.spec_lines universal_newlines] in IH2 |- *.
    destruct (is_cr a) eqn:Ea.
    + apply Ascii.eqb_eq in Ea. subst a.
      change (is_lf CR) with false. cbv iota. cbn [split_lines].
      change (is_lf LF) with true. cbv iota. f_equal.
      destruct (is_lf b); [exact IH1 | exact IH2].
    + cbn [split_lines]. rewrite IH2. reflexivity.
Qed.

Lemma spec_white_isspace (c : ascii) : Link.spec_white c = isspace c.
Proof. destruct c as [[] [] [] [] [] [] [] []]; reflexivity. Qed.

Lemma spec_trim_left_lstrip (s : text) : Link.spec_trim_left s = lstrip s.
Proof.
  induction s as [|c s IH]; [reflexivity|].
  cbn [Link.spec_trim_left lstrip]. rewrite spec_white_isspace, IH.
  reflexivity.
Qed.

Lemma lstrip_nil_all_space (a : text) :
  lstrip a = [] -> forallb isspace a = true.
Proof.
  induction a as [|c a IH]; [reflexivity|]. cbn [lstrip forallb].
  destruct (isspace c); [exact IH | discriminate].
Qed.

Lemma rstrip_cons (c : ascii) (s : text) :
  rstrip (c :: s)
  = match rstrip s with
    | [] => if isspace c then [] else [c]
    | d :: r => c :: d :: r
    end.
Proof.
  unfold rstrip. cbn [rev]. rewrite lstrip_app.
  destruct (forallb isspace (rev s)) eqn:E.
  - rewrite (lstrip_all_space _ E). cbn [rev lstrip].
    destruct (isspace c); reflexivity.
  - rewrite rev_app_distr. cbn [rev app].
    destruct (lstrip (rev s)) as [|d r] eqn:L.
    + apply lstrip_nil_all_space in L. congruence.
    + destruct (rev (d :: r)) as [|d' r'] eqn:R; [|reflexivity].
      apply (f_equal (@length ascii)) in R. rewrite length_rev in R.
      discriminate R.
Qed.

Lemma spec_trim_right_rstrip (s : text) : Link.spec_trim_right s = rstrip s.
Proof.
  induction s as [|c s IH]; [reflexivity|].
  cbn [Link.spec_trim_right]. rewrite rstrip_cons, IH, spec_white_isspace.
  reflexivity.
Qed.

Lemma spec_trim_strip (s : text) : Link.spec_trim s = strip s.
Proof.
  unfold Link.spec_trim, strip. fold (rstrip (lstrip s)).
  rewrite spec_trim_left_lstrip. apply spec_trim_right_rstrip.
Qed.


Lemma before_first_eq_assignment (key value : text) :
  Env.word_key key ->
  Link.before_first_eq (Env.assignment key value) = key
  /\ Link.after_first_eq (Env.assignment key value) = value.
Proof.
  unfold Env.assignment. induction key as [|c key IH]; intros Hk.
  - split; reflexivity.
  - apply word_key_cons in Hk. destruct Hk as [Hc Hk].
    destruct (IH Hk) as [Hb Ha].
    rewrite <- !app_comm_cons.
    cbn [Link.before_first_eq Link.after_first_eq].
    rewrite (is_word_not_equals _ Hc), Hb, Ha. split; reflexivity.
Qed.

Lemma kept_assignment (key value : text) :
  Env.word_key key ->
  Link.spec_skipped (Env.assignment key value) = false.
Proof.
  intros Hk. unfold Link.spec_skipped.
  assert (contains "=" (Env.assignment key value) = true) as Hc.
  { unfold contains, Env.assignment. rewrite existsb_app. simpl.
    rewrite orb_true_r. reflexivity. }
  rewrite Hc. unfold Env.assignment. destruct key as [|c key].
  - reflexivity.
  - apply word_key_cons in Hk. destruct Hk as [Hw _].
    assert (Ascii.eqb "#" c = false) as Hh.
    { destruct (Ascii.eqb "#" c) eqn:E; [|reflexivity].
      apply Ascii.eqb_eq in E. subst c. discriminate. }
    simpl. rewrite Hh. reflexivity.
Qed.

(** A line whose key, once read, is [key] starts with [key=]. *)
Lemma read_key_assigns (key line : text) :
  contains "=" line = true -> Link.before_first_eq line = key ->
  Env.assigns key line = true
  /\ line = Env.assignment key (Link.after_first_eq line).
Proof.
  unfold Env.assigns, Env.assignment, contains.
  change (txt "=") with ["="%char]. revert key.
  induction line as [|c line IH]; intros key Hc Hb; [discriminate|].
  cbn [existsb Link.before_first_eq Link.after_first_eq] in *.
  rewrite Ascii.eqb_sym in Hc.
  destruct (Ascii.eqb c "=") eqn:E.
  - apply Ascii.eqb_eq in E. subst c key. cbn [app startswith].
    rewrite Ascii.eqb_refl. split; reflexivity.
  - cbn [orb] in Hc. subst key. rewrite <- !app_comm_cons.
    cbn [startswith]. rewrite Ascii.eqb_refl.
    destruct (IH (Link.before_first_eq line) Hc eq_refl) as [H1 H2].
    rewrite H1. split; [reflexivity|]. f_equal. exact H2.
Qed.

Lemma spec_last_in (key value : text) (entries : list (text * text)) :
  Link.spec_last key entries = Some value -> In (key, value) entries.
Proof.
  induction entries as [|[k v] rest IH]; [discriminate|].
  cbn [Link.spec_last]. destruct (Link.spec_last key rest) as [v'|].
  - intros H. right. apply IH. exact H.
  - destruct (text_eqb k key) eqn:E; [|discriminate].
    intros H. injection H as <-. apply text_eqb_eq in E. subst k.
    left. reflexivity.
Qed.

Lemma spec_last_found (key value : text) (entries : list (text * text)) :
  In (key, value) entries -> Link.spec_last key entries <> None.
Proof.
  induction entries as [|[k v] rest IH]; [contradiction|].
  cbn [Link.spec_last]. intros [Heq | Hin].
  - injection Heq as -> ->. rewrite text_eqb_refl.
    destruct (Link.spec_last key rest); discriminate.
  - specialize (IH Hin). destruct (Link.spec_last key rest);
      [discriminate | congruence].
Qed.

Lemma spec_last_agreed (key value : text) (entries : list (text * text)) :
  In (key, value) entries ->
  (forall v, In (key, v) entries -> v = value) ->
  Link.spec_last key entries = Some value.
Proof.
  intros Hin Hall.
  destruct (Link.spec_last key entries) as [v'|] eqn:E.
  - f_equal. apply Hall. apply spec_last_in. exact E.
  - exfalso. exact (spec_last_found _ _ _ Hin E).
Qed.

Lemma dict_unique (env_vars : list (text * text)) (k v v' : text) :
  Env.is_dict env_vars -> In (k, v) env_vars -> In (k, v') env_vars -> v = v'.
Proof.
  unfold Env.is_dict. induction env_vars as [|[k0 v0] m IH];
    intros Hd H1 H2; [contradiction|].
  simpl in Hd. inversion Hd as [|? ? Hnotin Hd']; subst.
  destruct H1 as [E1 | H1], H2 as [E2 | H2].
  - congruence.
  - injection E1 as -> ->. exfalso. apply Hnotin. exact (in_keys _ _ _ H2).
  - injection E2 as -> ->. exfalso. apply Hnotin. exact (in_keys _ _ _ H1).
  - exact (IH Hd' H1 H2).
Qed.

Lemma rewrite_line_key (env_vars : list (text * text)) (k v line : text) :
  Forall Env.word_key (map fst env_vars) -> Env.is_dict env_vars ->
  In (k, v) env_vars -> Env.assigns k line = true ->
  Env.rewrite_line env_vars line = Env.assignment k v.
Proof.
  intros Hw Hd Hin Ha.
  induction env_vars as [|[k0 v0] m IH]; [contradiction|].
  cbn [Env.rewrite_line]. destruct (Env.assigns k0 line) eqn:E.
  - assert (k0 = k) as ->.
    { apply (assigns_same_key k0 k line); try assumption.
      - apply (word_key_in ((k0, v0) :: m)); [exact Hw | left; reflexivity].
      - exact (word_key_in _ _ Hw (in_keys _ _ _ Hin)). }
    rewrite (dict_unique _ k v0 v Hd (or_introl eq_refl) Hin). reflexivity.
  - destruct Hin as [Heq | Hin]; [injection Heq as -> ->; congruence|].
    simpl in Hw. inversion Hw; subst.
    unfold Env.is_dict in Hd. simpl in Hd. inversion Hd; subst.
    apply IH; assumption.
Qed.

(** A line of the result whose stripped form assigns the key is the
    assignment that the pass wrote, provided the file had no such line
    that the pass could not see. *)
Lemma synced_line_of_key (env_vars : list (text * text)) (ls : list text)
    (k v line : text) :
  Forall Env.word_key (map fst env_vars) -> Env.is_dict env_vars ->
  In (k, v) env_vars ->
  (forall l, In l ls -> Env.assigns k (strip l) = true ->
             Env.assigns k l = true) ->
  In line (Env.sync_lines env_vars ls) ->
  Env.assigns k (strip line) = true ->
  strip line = Env.assignment k (rstrip v).
Proof.
  intros Hw Hd Hin Hfile Hline Ha.
  pose proof (word_key_in _ _ Hw (in_keys _ _ _ Hin)) as Hk.
  assert (forall k' v', In (k', v') env_vars ->
            line = Env.assignment k' v' ->
            strip line = Env.assignment k (rstrip v)) as Hwritten.
  { intros k' v' Hin' ->.
    pose proof (word_key_in _ _ Hw (in_keys _ _ _ Hin')) as Hk'.
    rewrite (strip_assignment _ _ Hk') in Ha |- *.
    assert (k' = k) as ->.
    { apply (assigns_same_key k' k (Env.assignment k' (rstrip v')));
        try assumption. apply assigns_assignment. }
    rewrite (dict_unique _ _ _ _ Hd Hin' Hin). reflexivity. }
  rewrite sync_lines_spec in Hline by assumption.
  apply in_app_or in Hline. destruct Hline as [Hline | Hline].
  - apply in_map_iff in Hline. destruct Hline as (l & <- & Hl).
    destruct (rewrite_line_cases env_vars l)
      as [H | (k' & v' & Hin' & _ & H)].
    + rewrite H in Ha |- *.
      pose proof (Hfile l Hl Ha) as Hal.
      rewrite (rewrite_line_key _ _ _ _ Hw Hd Hin Hal) in H.
      rewrite <- H. apply strip_assignment. exact Hk.
    + exact (Hwritten k' v' Hin' H).
  - destruct (appended_assignments _ _ _ Hline) as (k' & v' & Hin' & E & _).
    exact (Hwritten k' v' Hin' E).
Qed.

Lemma synced_has_assignment (env_vars : list (text * text)) (ls : list text)
    (k v : text) :
  Forall Env.word_key (map fst env_vars) -> Env.is_dict env_vars ->
  In (k, v) env_vars ->
  In (Env.assignment k v) (Env.sync_lines env_vars ls).
Proof.
  intros Hw Hd Hin. rewrite sync_lines_spec by assumption.
  apply in_or_app. destruct (existsb (Env.assigns k) ls) eqn:E.
  - left. apply existsb_exists in E. destruct E as (l & Hl & Ha).
    apply in_map_iff. exists l. split; [|exact Hl].
    apply rewrite_line_key; assumption.
  - right. apply appended_in; assumption.
Qed.

Lemma not_skipped_contains (line : text) :
  Link.spec_skipped line = false -> contains "=" line = true.
Proof.
  unfold Link.spec_skipped. intros H.
  apply orb_false_iff in H. destruct H as [_ H].
  apply negb_false_iff in H. exact H.
Qed.

(** Among the entries that the lines of the result give, the last one of
    the key holds the value of the mapping. *)
Lemma sync_lines_read_back (env_vars : list (text * text)) (ls : list text)
    (key value : text) :
  Forall Env.word_key (map fst env_vars) ->
  Env.is_dict env_vars ->
  In (key, value) env_vars ->
  rstrip value = value ->
  (forall l, In l ls ->
             Env.assigns key (strip l) = true -> Env.assigns key l = true) ->
  Link.spec_last key
    (map (fun line => (Link.before_first_eq line, Link.after_first_eq line))
       (filter (fun line => negb (Link.spec_skipped line))
          (map strip (Env.sync_lines env_vars ls))))
  = Some value.
Proof.
  intros Hw Hd Hin Hv Hfile.
  pose proof (word_key_in _ _ Hw (in_keys _ _ _ Hin)) as Hk.
  apply spec_last_agreed.
  - apply in_map_iff. exists (Env.assignment key value). split.
    + destruct (before_first_eq_assignment key value Hk) as [-> ->].
      reflexivity.
    + apply filter_In. split.
      * apply in_map_iff. exists (Env.assignment key value). split.
        -- rewrite strip_assignment by exact Hk. rewrite Hv. reflexivity.
        -- apply synced_has_assignment; assumption.
      * rewrite kept_assignment by exact Hk. reflexivity.
  - intros v0 H0. apply in_map_iff in H0.
    destruct H0 as (line & Hentry & Hline).
    injection Hentry as Hb Ha.
    apply filter_In in Hline. destruct Hline as [Hline Hkept].
    apply negb_true_iff in Hkept. apply not_skipped_contains in Hkept.
    destruct (read_key_assigns key line Hkept Hb) as [Hassigns _].
    apply in_map_iff in Hline. destruct Hline as (l' & <- & Hl').
    rewrite (synced_line_of_key env_vars ls key
               value l' Hw Hd Hin Hfile Hl' Hassigns) in Ha.
    rewrite Hv in Ha.
    destruct (before_first_eq_assignment key value Hk) as [_ Hval].
    congruence.
Qed.

(** A key of the mapping is read back from what the pass wrote. *)
Lemma synced_read_back (env_vars : list (text * text)) (files : Env.files)
    (key value : text) :
  Forall Env.word_key (map fst env_vars) ->
  Env.is_dict env_vars ->
  Forall Env.plain_value (map snd env_vars) ->
  Forall no_cr (map snd env_vars) ->
  In (key, value) env_vars ->
  rstrip value = value ->
  (forall l, In l (split_lines (Env.read_env (Env.ensure_env files))) ->
             Env.assigns key (strip l) = true -> Env.assigns key l = true) ->
  Link.dict_get key
    (Link.parse_env
       (join_lines
          (Env.sync_lines env_vars
             (split_lines (Env.read_env (Env.ensure_env files))))))
  = Some value.
Proof.
  intros Hw Hd Hp Hc Hin Hv Hfile.
  rewrite parse_env_lines.
  rewrite (universal_id _ (synced_no_cr env_vars files Hw Hc)).
  rewrite split_sync_lines; try assumption;
    [| apply split_lines_not_nil | apply split_lines_one_line].
  apply sync_lines_read_back; assumption.
Qed.

(** X1.  What [update_env_file] wrote for a key, [read_env_file] reads
    back from the file: for a mapping with name keys and values that hold
    no line feed, no carriage return and no backslash, a value without
    white space at its end, and a file in which every line that reads as
    an assignment of the key starts with [KEY=] (none is indented). *)
Theorem env_write_then_read (env_vars : list (text * text))
    (files : Env.files) (key value : text) (w : world) :
  Forall Env.word_key (map fst env_vars) ->
  Env.is_dict env_vars ->
  Forall Env.plain_value (map snd env_vars) ->
  Forall no_cr (map snd env_vars) ->
  In (key, value) env_vars ->
  rstrip value = value ->
  (forall l, In l (split_lines (Env.read_env (Env.ensure_env files))) ->
             Env.assigns key (strip l) = true -> Env.assigns key l = true) ->
  Env.sync_file env_vars files = Some (fs w) ->
  exists env,
    Link.read_env_file w = (Returned env, w)
    /\ Link.dict_get key env = Some value.
Proof.
  intros Hw Hd Hp Hc Hin Hv Hfile Hrun.
  rewrite sync_file_runs in Hrun by assumption. injection Hrun as Hfs.
  unfold Link.read_env_file. rewrite <- Hfs.
  change (Env.write ".env" ?c ?f ".env"%string) with (Some c).
  eexists. split; [reflexivity|].
  apply synced_read_back; assumption.
Qed.

Lemma env_write_then_read_witness :
  exists env,
    Link.read_env_file Examples.synced_world
    = (Returned env, Examples.synced_world)
    /\ Link.dict_get Examples.SUPABASE_URL env
       = Some (txt "https://abc.supabase.co").
Proof.
  apply (env_write_then_read Examples.scenario Examples.old_files
           Examples.SUPABASE_URL (txt "https://abc.supabase.co")
           Examples.synced_world).
  - repeat constructor.
  - repeat constructor; simpl; intuition discriminate.
  - repeat constructor.
  - repeat constructor.
  - left. reflexivity.
  - reflexivity.
  - intros l [<- | [<- | [<- | []]]]; vm_compute; intros H;
      first [exact H | discriminate H].
  - vm_compute. reflexivity.
Defined.

(** A counterpart of the hypothesis on indented lines: the pass does not
    see an indented assignment, and [read_env_file] reads it last.  And a
    counterpart of the one on carriage returns: a value that holds one is
    read back cut at it. *)
Lemma indented_assignment_is_read :
  (exists after,
      Env.update_vars Examples.new_url
        (txt "SUPABASE_URL=a" ++ LF :: txt "  SUPABASE_URL=b") = Some after
      /\ Link.dict_get Examples.SUPABASE_URL (Link.parse_env after)
         = Some (txt "b"))
  /\ (exists after,
        Env.update_vars [(Examples.SUPABASE_URL, txt "p" ++ CR :: txt "q")]
          [] = Some after
        /\ Link.dict_get Examples.SUPABASE_URL (Link.parse_env after)
           = Some (txt "p")).
Proof. split; eexists; split; vm_compute; reflexivity. Qed.

(** ** The number of lines *)

Lemma length_appended (env_vars : list (text * text)) (ls : list text) :
  length (Env.appended env_vars ls)
  = length (filter (fun kv => negb (existsb (Env.assigns (fst kv)) ls))
              env_vars).
Proof.
  induction env_vars as [|[k v] m IH]; [reflexivity|].
  cbn [Env.appended filter fst]. rewrite length_app, IH.
  destruct (existsb (Env.assigns k) ls); reflexivity.
Qed.

(** X2.  The pass removes no line: the file grows by one line for each key of
    the mapping that no line assigned. *)
Theorem sync_line_count (env_vars : list (text * text))
    (env_content after : text) :
  Forall Env.word_key (map fst env_vars) ->
  Env.is_dict env_vars ->
  Forall Env.plain_value (map snd env_vars) ->
  Env.update_vars env_vars env_content = Some after ->
  length (split_lines after)
  = length (split_lines env_content)
    + length (filter
                (fun kv => negb (existsb (Env.assigns (fst kv))
                                   (split_lines env_content)))
                env_vars).
Proof.
  intros Hw Hd Hp H. rewrite update_vars_lines in H by assumption.
  injection H as <-.
  rewrite split_sync_lines; try assumption;
    [| apply split_lines_not_nil | apply split_lines_one_line].
  rewrite sync_lines_spec by assumption.
  rewrite length_app, length_map, length_appended. reflexivity.
Qed.

Lemma sync_line_count_witness :
  length (split_lines Examples.old_env_scenario)
  = length (split_lines Examples.old_env)
    + length (filter
                (fun kv => negb (existsb (Env.assigns (fst kv))
                                   (split_lines Examples.old_env)))
                Examples.scenario).
Proof.
  apply (sync_line_count Examples.scenario Examples.old_env
           Examples.old_env_scenario).
  - repeat constructor.
  - repeat constructor; simpl; intuition discriminate.
  - repeat constructor.
  - vm_compute. reflexivity.
Defined.

(** ** From the empty file *)

Lemma appended_on_empty (env_vars : list (text * text)) :
  Env.appended env_vars [[]]
  = map (fun kv => Env.assignment (fst kv) (snd kv)) env_vars.
Proof.
  induction env_vars as [|[k v] m IH]; [reflexivity|].
  cbn [Env.appended map fst snd]. rewrite IH.
  assert (Env.assigns k [] = false) as Hk
    by (unfold Env.assigns; destruct k; reflexivity).
  cbn [existsb]. rewrite Hk. reflexivity.
Qed.

Lemma join_lines_after_blank (ls : list text) :
  join_lines ([] :: ls) = concat (map (fun l => LF :: l) ls).
Proof.
  induction ls as [|l ls IH]; [reflexivity|].
  rewrite join_lines_cons by discriminate. cbn [app map concat].
  f_equal. destruct ls as [|l' ls].
  - simpl. rewrite app_nil_r. reflexivity.
  - rewrite join_lines_cons by discriminate.
    rewrite join_lines_cons in IH by discriminate.
    cbn [app] in IH. rewrite IH. reflexivity.
Qed.

(** X3.  From the empty text the pass writes the assignments of the mapping in
    insertion order, each after a line feed. *)
Theorem sync_from_empty (env_vars : list (text * text)) :
  Forall Env.word_key (map fst env_vars) ->
  Env.is_dict env_vars ->
  Forall Env.plain_value (map snd env_vars) ->
  Env.update_vars env_vars []
  = Some (concat (map (fun kv => LF :: Env.assignment (fst kv) (snd kv))
                    env_vars)).
Proof.
  intros Hw Hd Hp. rewrite update_vars_lines by assumption.
  cbn [split_lines]. rewrite sync_lines_spec by assumption.
  rewrite appended_on_empty. cbn [map].
  rewrite rewrite_line_untouched
    by (intros k _; unfold Env.assigns; destruct k; reflexivity).
  cbn [app]. rewrite join_lines_after_blank, map_map. reflexivity.
Qed.

Lemma sync_from_empty_witness :
  Env.update_vars Examples.scenario []
  = Some (concat (map (fun kv => LF :: Env.assignment (fst kv) (snd kv))
                    Examples.scenario)).
Proof.
  apply (sync_from_empty Examples.scenario).
  - repeat constructor.
  - repeat constructor; simpl; intuition discriminate.
  - repeat constructor.
Defined.

(** ** Loops that end the process after the last attempt *)

Lemma fatal_attempt_eq (cmd : list text) (last delay attempt : Z) (w : world) :
  Setup.fatal_attempt cmd last delay attempt w
  = if (exit_code (cli w (length (ran w)) cmd) =? 0)%Z
    then (Returned (Return true), record_run cmd w)
    else if (attempt =? last)%Z then (Exited 1%Z, record_run cmd w)
    else (Returned Next, record_sleep delay (record_run cmd w)).
Proof.
  unfold Setup.fatal_attempt, bind, run_command. cbn [andb returncode].
  destruct (exit_code (cli w (length (ran w)) cmd) =? 0)%Z; [reflexivity|].
  destruct (attempt =? last)%Z; reflexivity.
Qed.

(** A loop of [fatal_attempt] rounds whose last attempt is the one that
    exits: it runs the command [k] times, sleeps between the runs, and
    either returns [True] on the first run that exits with zero, or ends
    the process after the last attempt.  It never falls out of the loop. *)
Lemma fatal_loop (cmd : list text) (last delay : Z) (before : list Z) :
  ~ In last before ->
  forall w, exists k o w',
    for_each (before ++ [last]) (Setup.fatal_attempt cmd last delay) w
    = (o, w')
    /\ 1 <= k <= S (length before)
    /\ ran w' = ran w ++ repeat cmd k
    /\ slept w' = slept w ++ repeat delay (k - 1)
    /\ fs w' = fs w
    /\ cli w' = cli w
    /\ (forall i, i < k - 1 ->
                  exit_code (cli w (length (ran w) + i) cmd) <> 0%Z)
    /\ ((o = Returned (Some true)
         /\ exit_code (cli w (length (ran w) + (k - 1)) cmd) = 0%Z)
        \/ (o = Exited 1%Z /\ k = S (length before)
            /\ exit_code (cli w (length (ran w) + (k - 1)) cmd) <> 0%Z)).
Proof.
  induction before as [|a before IH]; intros Hlast w.
  - cbn [app]. rewrite for_each_cons, fatal_attempt_eq.
    destruct (exit_code (cli w (length (ran w)) cmd) =? 0)%Z eqn:E.
    + exists 1, (Returned (Some true)), (record_run cmd w).
      cbn. rewrite app_nil_r, Nat.add_0_r. apply Z.eqb_eq in E.
      repeat split; try lia. left. split; [reflexivity | exact E].
    + rewrite Z.eqb_refl.
      exists 1, (Exited 1%Z), (record_run cmd w).
      cbn. rewrite app_nil_r, Nat.add_0_r. apply Z.eqb_neq in E.
      repeat split; try lia. right. repeat split. exact E.
  - rewrite <- app_comm_cons, for_each_cons, fatal_attempt_eq.
    destruct (exit_code (cli w (length (ran w)) cmd) =? 0)%Z eqn:E.
    + exists 1, (Returned (Some true)), (record_run cmd w).
      cbn. rewrite app_nil_r, Nat.add_0_r. apply Z.eqb_eq in E.
      repeat split; try lia. left. split; [reflexivity | exact E].
    + assert ((a =? last)%Z = false) as Ha.
      { apply Z.eqb_neq. intros ->. apply Hlast. left. reflexivity. }
      rewrite Ha. apply Z.eqb_neq in E.
      destruct (IH (fun H => Hlast (or_intror H))
                  (record_sleep delay (record_run cmd w)))
        as (k & o & w' & Hrun & Hk & Hran & Hslept & Hfs & Hcli & Hbad & Hend).
      cbn [record_sleep record_run ran slept fs cli] in Hran, Hslept, Hfs,
        Hcli, Hbad, Hend.
      rewrite length_app in Hbad, Hend. cbn [length] in Hbad, Hend.
      exists (S k), o, w'. rewrite Hrun.
      split; [reflexivity|]. split; [cbn [length]; lia|].
      split; [rewrite Hran, <- app_assoc; reflexivity|].
      split.
      { rewrite Hslept, <- app_assoc. f_equal.
        destruct k as [|k]; [lia|]. cbn. rewrite Nat.sub_0_r. reflexivity. }
      split; [exact Hfs|]. split; [exact Hcli|].
      split.
      { intros [|i] Hi.
        - rewrite Nat.add_0_r. exact E.
        - replace (length (ran w) + S i) with (length (ran w) + 1 + i) by lia.
          apply Hbad. lia. }
      replace (length (ran w) + (S k - 1))
        with (length (ran w) + 1 + (k - 1)) by lia.
      destruct Hend as [[-> H0] | (-> & -> & H0)].
      * left. split; [reflexivity | exact H0].
      * right. cbn [length]. repeat split. exact H0.
Qed.

(** X4.  [link_project] of [setup.py] returns [True] or ends the process with
    code 1; the [return False] after its loop is never reached.  It runs
    the link command [k] times, at most five, and sleeps ten seconds
    between two runs; it returns on the first run that exits with zero and
    ends the process when the fifth run fails as the four before it. *)
Theorem link_project_true_or_exit (project_id db_password : text)
    (w : world) :
  exists k o w',
    Setup.link_project project_id db_password w = (o, w')
    /\ 1 <= k <= 5
    /\ ran w' = ran w ++ repeat (Setup.link_command project_id db_password) k
    /\ slept w' = slept w ++ repeat 10%Z (k - 1)
    /\ fs w' = fs w
    /\ (forall i, i < k - 1 ->
          exit_code (cli w (length (ran w) + i)
                       (Setup.link_command project_id db_password)) <> 0%Z)
    /\ ((o = Returned true
         /\ exit_code (cli w (length (ran w) + (k - 1))
                         (Setup.link_command project_id db_password)) = 0%Z)
        \/ (o = Exited 1%Z /\ k = 5
            /\ exit_code (cli w (length (ran w) + (k - 1))
                            (Setup.link_command project_id db_password))
               <> 0%Z)).
Proof.
  unfold Setup.link_project, bind. rewrite range_1_6.
  change [1; 2; 3; 4; 5]%Z with ([1; 2; 3; 4] ++ [5])%Z.
  destruct (fatal_loop (Setup.link_command project_id db_password) 5 10
              [1; 2; 3; 4]%Z) with (w := w)
    as (k & o & w' & Hrun & Hk & Hran & Hslept & Hfs & _ & Hbad & Hend).
  { simpl. intuition discriminate. }
  rewrite Hrun. cbn [length] in Hk, Hend.
  destruct Hend as [[-> H0] | (-> & -> & H0)].
  - exists k, (Returned true), w'. repeat split; try assumption; try lia.
    left. split; [reflexivity | exact H0].
  - exists 5, (Exited 1%Z), w'. repeat split; try assumption; try lia.
    right. repeat split. exact H0.
Qed.

(** X5.  [sync_remote_changes] and [apply_migrations] of [setup.py] share one
    loop: it returns [True] or ends the process with code 1, never
    [False]; it runs its command at most three times, five seconds
    apart. *)
Theorem three_attempts_true_or_exit (cmd : list text) (w : world) :
  exists k o w',
    Setup.three_attempts cmd w = (o, w')
    /\ 1 <= k <= 3
    /\ ran w' = ran w ++ repeat cmd k
    /\ slept w' = slept w ++ repeat 5%Z (k - 1)
    /\ fs w' = fs w
    /\ (forall i, i < k - 1 ->
          exit_code (cli w (length (ran w) + i) cmd) <> 0%Z)
    /\ ((o = Returned true
         /\ exit_code (cli w (length (ran w) + (k - 1)) cmd) = 0%Z)
        \/ (o = Exited 1%Z /\ k = 3
            /\ exit_code (cli w (length (ran w) + (k - 1)) cmd) <> 0%Z)).
Proof.
  unfold Setup.three_attempts, bind. rewrite range_1_4.
  change [1; 2; 3]%Z with ([1; 2] ++ [3])%Z.
  destruct (fatal_loop cmd 3 5 [1; 2]%Z) with (w := w)
    as (k & o & w' & Hrun & Hk & Hran & Hslept & Hfs & _ & Hbad & Hend).
  { simpl. intuition discriminate. }
  rewrite Hrun. cbn [length] in Hk, Hend.
  destruct Hend as [[-> H0] | (-> & -> & H0)].
  - exists k, (Returned true), w'. repeat split; try assumption; try lia.
    left. split; [reflexivity | exact H0].
  - exists 3, (Exited 1%Z), w'. repeat split; try assumption; try lia.
    right. repeat split. exact H0.
Qed.

Lemma config_attempt_eq (cmd : list text) (attempt : Z) (w : world) :
  Setup.config_attempt cmd attempt w
  = if (exit_code (cli w (length (ran w)) cmd) =? 0)%Z
    then (Returned Break, record_run cmd w)
    else if (attempt =? 3)%Z then (Exited 1%Z, record_run cmd w)
    else (Returned Next, record_sleep 3 (record_run cmd w)).
Proof.
  unfold Setup.config_attempt, bind, run_command. cbn [andb returncode].
  destruct (exit_code (cli w (length (ran w)) cmd) =? 0)%Z; [reflexivity|].
  destruct (attempt =? 3)%Z; reflexivity.
Qed.

Lemma config_loop (cmd : list text) (before : list Z) :
  ~ In 3%Z before ->
  forall w, exists k o w',
    for_each (before ++ [3%Z]) (Setup.config_attempt cmd) w = (o, w')
    /\ 1 <= k <= S (length before)
    /\ ran w' = ran w ++ repeat cmd k
    /\ slept w' = slept w ++ repeat 3%Z (k - 1)
    /\ fs w' = fs w
    /\ cli w' = cli w
    /\ (o = Returned None \/ (o = Exited 1%Z /\ k = S (length before))).
Proof.
  induction before as [|a before IH]; intros Hlast w.
  - cbn [app]. rewrite for_each_cons, config_attempt_eq.
    destruct (exit_code (cli w (length (ran w)) cmd) =? 0)%Z.
    + exists 1, (Returned None), (record_run cmd w).
      cbn. rewrite app_nil_r. repeat split; try lia. left. reflexivity.
    + rewrite Z.eqb_refl. exists 1, (Exited 1%Z), (record_run cmd w).
      cbn. rewrite app_nil_r. repeat split; try lia. right. split; reflexivity.
  - rewrite <- app_comm_cons, for_each_cons, config_attempt_eq.
    destruct (exit_code (cli w (length (ran w)) cmd) =? 0)%Z.
    + exists 1, (Returned None), (record_run cmd w).
      cbn. rewrite app_nil_r. repeat split; try lia. left. reflexivity.
    + assert ((a =? 3)%Z = false) as Ha.
      { apply Z.eqb_neq. intros ->. apply Hlast. left. reflexivity. }
      rewrite Ha.
      destruct (IH (fun H => Hlast (or_intror H))
                  (record_sleep 3 (record_run cmd w)))
        as (k & o & w' & Hrun & Hk & Hran & Hslept & Hfs & Hcli & Hend).
      cbn [record_sleep record_run ran slept fs cli] in Hran, Hslept, Hfs,
        Hcli.
      exists (S k), o, w'. rewrite Hrun.
      split; [reflexivity|]. split; [cbn [length]; lia|].
      split; [rewrite Hran, <- app_assoc; reflexivity|].
      split.
      { rewrite Hslept, <- app_assoc. f_equal.
        destruct k as [|k]; [lia|]. cbn. rewrite Nat.sub_0_r. reflexivity. }
      split; [exact Hfs|]. split; [exact Hcli|].
      destruct Hend as [-> | (-> & ->)].
      * left. reflexivity.
      * right. cbn [length]. split; reflexivity.
Qed.

Lemma config_set_outcomes (name value : text) (w : world) :
  exists k o w',
    Setup.config_set name value w = (o, w')
    /\ 1 <= k <= 3
    /\ ran w'
       = ran w
         ++ repeat (map txt ["npx"; "supabase"; "config"; "set"]%string
                    ++ [name; value]) k
    /\ slept w' = slept w ++ repeat 3%Z (k - 1)
    /\ fs w' = fs w
    /\ (o = Returned tt \/ (o = Exited 1%Z /\ k = 3)).
Proof.
  unfold Setup.config_set, bind. rewrite range_1_4.
  change [1; 2; 3]%Z with ([1; 2] ++ [3])%Z.
  destruct (config_loop (map txt ["npx"; "supabase"; "config"; "set"]%string
                         ++ [name; value]) [1; 2]%Z) with (w := w)
    as (k & o & w' & Hrun & Hk & Hran & Hslept & Hfs & _ & Hend).
  { simpl. intuition discriminate. }
  rewrite Hrun. cbn [length] in Hk, Hend.
  destruct Hend as [-> | (-> & ->)].
  - exists k, (Returned tt), w'. repeat split; try assumption; try lia.
    left. reflexivity.
  - exists 3, (Exited 1%Z), w'. repeat split; try assumption; try lia.
    right. split; reflexivity.
Qed.

(** X6.  [setup_auth_urls] of [setup.py] returns [True] or ends the process
    with code 1.  It sets the site URL in at most three runs, then the
    redirect URLs in at most three runs, three seconds apart within each
    loop; the redirect URLs are not touched when the site URL could not
    be set. *)
Theorem setup_auth_urls_true_or_exit (w : world) :
  exists j k o w',
    Setup.setup_auth_urls w = (o, w')
    /\ 1 <= j <= 3 /\ k <= 3
    /\ ran w'
       = ran w ++ repeat MigratePy.site_url_command j
         ++ repeat MigratePy.redirect_urls_command k
    /\ slept w' = slept w ++ repeat 3%Z (j - 1 + (k - 1))
    /\ fs w' = fs w
    /\ ((o = Returned true /\ 1 <= k)
        \/ (o = Exited 1%Z /\ ((j = 3 /\ k = 0) \/ k = 3))).
Proof.
  unfold Setup.setup_auth_urls. unfold bind at 1.
  destruct (config_set_outcomes (txt "auth.site_url")
              (txt "http://localhost:3000") w)
    as (j & o1 & w1 & Hrun1 & Hj & Hran1 & Hslept1 & Hfs1 & Hend1).
  rewrite Hrun1. destruct Hend1 as [-> | (-> & ->)].
  - unfold bind at 1.
    destruct (config_set_outcomes (txt "auth.additional_redirect_urls")
                (txt "[" ++ quoted (txt "http://localhost:3000") ++ txt "]")
                w1)
      as (k & o2 & w2 & Hrun2 & Hk & Hran2 & Hslept2 & Hfs2 & Hend2).
    rewrite Hrun2.
    assert (slept w2 = slept w ++ repeat 3%Z (j - 1 + (k - 1))) as Hslept.
    { rewrite Hslept2, Hslept1, <- app_assoc, repeat_app. reflexivity. }
    assert (ran w2
            = ran w ++ repeat MigratePy.site_url_command j
              ++ repeat MigratePy.redirect_urls_command k) as Hran.
    { rewrite Hran2, Hran1, <- app_assoc. reflexivity. }
    destruct Hend2 as [-> | (-> & ->)].
    + exists j, k, (Returned true), w2.
      repeat split; try assumption; try lia; try congruence.
      left. split; [reflexivity | lia].
    + exists j, 3, (Exited 1%Z), w2.
      repeat split; try assumption; try lia; try congruence.
      right. split; [reflexivity | right; reflexivity].
  - exists 3, 0, (Exited 1%Z), w1.
    repeat split; try assumption; try lia.
    right. split; [reflexivity | left; split; reflexivity].
Qed.

(** ** What the lookups return *)

Lemma find_project_id_sound (project_name : text) (projects : list json)
    (project_id : json) :
  Setup.find_project_id project_name projects = inr (Some project_id) ->
  truthy project_id = true
  /\ exists project name,
       In project projects
       /\ get project (txt "name") = inr name
       /\ is_str name project_name = true
       /\ get project (txt "id") = inr project_id.
Proof.
  induction projects as [|project rest IH]; cbn [Setup.find_project_id];
    [discriminate|].
  destruct (get project (txt "name")) as [e|name] eqn:Hname; [discriminate|].
  destruct (is_str name project_name) eqn:Hstr.
  - destruct (get project (txt "id")) as [e|v] eqn:Hid; [discriminate|].
    destruct (truthy v) eqn:Hv.
    + intros [= ->]. split; [exact Hv|].
      exists project, name. repeat split; try assumption. left. reflexivity.
    + intros H. destruct (IH H) as (Ht & p & n & Hin & Hrest).
      split; [exact Ht|]. exists p, n. split; [right; exact Hin | exact Hrest].
  - intros H. destruct (IH H) as (Ht & p & n & Hin & Hrest).
    split; [exact Ht|]. exists p, n. split; [right; exact Hin | exact Hrest].
Qed.

Lemma has_project_sound (project_name : text) (projects : list json) :
  Setup.has_project project_name projects = inr true ->
  exists project name,
    In project projects
    /\ get project (txt "name") = inr name
    /\ is_str name project_name = true.
Proof.
  induction projects as [|project rest IH]; cbn [Setup.has_project];
    [discriminate|].
  destruct (get project (txt "name")) as [e|name] eqn:Hname; [discriminate|].
  destruct (is_str name project_name) eqn:Hstr.
  - intros _. exists project, name. repeat split; try assumption.
    left. reflexivity.
  - intros H. destruct (IH H) as (p & n & Hin & Hrest).
    exists p, n. split; [right; exact Hin | exact Hrest].
Qed.

(** The answer of the CLI to the command [cmd] when it is the [n]-th
    command after those that ran before [w]. *)
Lemma read_round {A} (cmd : list text)
    (read : completed_process -> M (option A)) (delay : Z) (w : world) :
  (forall result, reads_only (read result)) ->
  (result <- run_command cmd false true ;;
   answer <- read result ;;
   match answer with
   | Some a => ret (Return a)
   | None => sleep delay ;;; ret Next
   end) w
  = match fst (read {| returncode := exit_code (cli w (length (ran w)) cmd);
                       stdout := Some (output (cli w (length (ran w)) cmd)) |}
                 (record_run cmd w)) with
    | Returned (Some a) => (Returned (Return a), record_run cmd w)
    | Returned None => (Returned Next, record_sleep delay (record_run cmd w))
    | Exited code => (Exited code, record_run cmd w)
    | Raised e => (Raised e, record_run cmd w)
    end.
Proof.
  intros Hread. unfold bind at 1. unfold run_command. cbn [andb].
  unfold bind at 1.
  match goal with
  | |- context [read ?r ?w1] =>
      destruct (Hread r w1) as [Hw _]; destruct (read r w1) as [o w2]
  end.
  cbn [fst snd] in Hw |- *. subst w2.
  destruct o as [[a|]|code|e]; reflexivity.
Qed.

(** A loop of rounds that run [cmd], read its answer and sleep before the
    next round: when the loop returns a value, the value was read in the
    answer to the last run, and every run before it was followed by a
    sleep. *)
Lemma read_loop_returns {A} (cmd : list text)
    (read : completed_process -> M (option A)) (delay : Z)
    (body : Z -> M (flow A)) :
  (forall x w,
      body x w
      = (result <- run_command cmd false true ;;
         answer <- read result ;;
         match answer with
         | Some a => ret (Return a)
         | None => sleep delay ;;; ret Next
         end) w) ->
  (forall result, reads_only (read result)) ->
  forall xs w a w',
    for_each xs body w = (Returned (Some a), w') ->
    exists k w1,
      k < length xs
      /\ ran w' = ran w ++ repeat cmd (S k)
      /\ slept w' = slept w ++ repeat delay k
      /\ fs w' = fs w
      /\ json_loads w1 = json_loads w
      /\ fst (read {| returncode :=
                        exit_code (cli w (length (ran w) + k) cmd);
                      stdout :=
                        Some (output (cli w (length (ran w) + k) cmd)) |}
                w1)
         = Returned (Some a).
Proof.
  intros Hbody Hread. induction xs as [|x xs IH]; intros w a w' H.
  - discriminate H.
  - rewrite for_each_cons, Hbody, (read_round cmd read delay w Hread) in H.
    destruct (fst (read _ (record_run cmd w))) as [[a0|]|code|e] eqn:E.
    + injection H as <- <-. exists 0, (record_run cmd w).
      rewrite Nat.add_0_r. cbn. rewrite app_nil_r.
      repeat split; try lia. exact E.
    + apply IH in H.
      destruct H as (k & w1 & Hk & Hran & Hslept & Hfs & Hloads & Hfound).
      cbn [record_sleep record_run ran slept fs cli json_loads] in *.
      rewrite length_app in Hfound. cbn [length] in Hfound.
      replace (length (ran w) + 1 + k) with (length (ran w) + S k)
        in Hfound by lia.
      exists (S k), w1. split; [cbn [length]; lia|].
      split; [rewrite Hran, <- app_assoc; reflexivity|].
      split; [rewrite Hslept, <- app_assoc; reflexivity|].
      repeat split; assumption.
    + discriminate H.
    + discriminate H.
Qed.

Lemma read_project_id_sound (project_name : text)
    (result : completed_process) (w : world) (project_id : json) :
  fst (Setup.read_project_id project_name result w)
  = Returned (Some project_id) ->
  Setup.succeeded result = true
  /\ exists projects items,
       json_loads w (stdout_text result) = Some projects
       /\ iterate projects = inr items
       /\ Setup.find_project_id project_name items = inr (Some project_id).
Proof.
  unfold Setup.read_project_id.
  destruct (Setup.succeeded result); [|discriminate].
  unfold bind, loads.
  destruct (json_loads w (stdout_text result)) as [projects|] eqn:Hloads;
    [|discriminate].
  destruct (iterate projects) as [e|items] eqn:Hiter; [discriminate|].
  cbn [lift ret].
  destruct (Setup.find_project_id project_name items) as [e|[id|]] eqn:Hfind;
    try discriminate.
  cbn. intros [= ->]. split; [reflexivity|].
  exists projects, items. repeat split; assumption.
Qed.

(** X7.  The identifier that [get_project_id] of [setup.py] returns is truthy
    and is the [id] of a project of the requested name in the list that
    the CLI gave in its last answer, an answer with exit code zero that
    [json.loads] accepted; the lookup slept ten seconds after each of the
    [k] answers before it. *)
Theorem get_project_id_sound (project_name : text) (w w' : world)
    (project_id : json) :
  Setup.get_project_id project_name w = (Returned (Some project_id), w') ->
  truthy project_id = true
  /\ exists k projects items project name,
       k < 5
       /\ ran w' = ran w ++ repeat Setup.projects_list_json (S k)
       /\ slept w' = slept w ++ repeat 10%Z k
       /\ exit_code (cli w (length (ran w) + k) Setup.projects_list_json)
          = 0%Z
       /\ json_loads w
            (output (cli w (length (ran w) + k) Setup.projects_list_json))
          = Some projects
       /\ iterate projects = inr items
       /\ In project items
       /\ get project (txt "name") = inr name
       /\ is_str name project_name = true
       /\ get project (txt "id") = inr project_id.
Proof.
  intros H. unfold Setup.get_project_id in H.
  apply (read_loop_returns Setup.projects_list_json
           (Setup.read_project_id project_name) 10
           (Setup.project_id_attempt project_name)) in H;
    [| reflexivity | apply read_project_id_reads_only].
  destruct H as (k & w1 & Hk & Hran & Hslept & _ & Hloads & Hread).
  apply read_project_id_sound in Hread.
  destruct Hread as (Hok & projects & items & Hparsed & Hiter & Hfind).
  apply find_project_id_sound in Hfind.
  destruct Hfind as (Ht & project & name & Hin & Hname & Hstr & Hid).
  split; [exact Ht|].
  exists k, projects, items, project, name.
  rewrite Hloads in Hparsed. cbn [stdout_text stdout] in Hparsed.
  unfold Setup.succeeded in Hok. cbn [returncode] in Hok.
  apply andb_prop in Hok. destruct Hok as [Hrc _]. apply Z.eqb_eq in Hrc.
  rewrite range_1_6 in Hk. cbn [length] in Hk.
  repeat split; assumption.
Qed.

Lemma get_project_id_sound_witness :
  truthy (JStr (txt "abcd")) = true
  /\ exists k projects items project name,
       k < 5
       /\ ran (snd (Setup.get_project_id (txt "demo") Examples.created_anyway))
          = ran Examples.created_anyway
            ++ repeat Setup.projects_list_json (S k)
       /\ slept (snd (Setup.get_project_id (txt "demo")
                        Examples.created_anyway))
          = slept Examples.created_anyway ++ repeat 10%Z k
       /\ exit_code (cli Examples.created_anyway
                       (length (ran Examples.created_anyway) + k)
                       Setup.projects_list_json)
          = 0%Z
       /\ json_loads Examples.created_anyway
            (output (cli Examples.created_anyway
                       (length (ran Examples.created_anyway) + k)
                       Setup.projects_list_json))
          = Some projects
       /\ iterate projects = inr items
       /\ In project items
       /\ get project (txt "name") = inr name
       /\ is_str name (txt "demo") = true
       /\ get project (txt "id") = inr (JStr (txt "abcd")).
Proof.
  apply (get_project_id_sound (txt "demo") Examples.created_anyway
           (snd (Setup.get_project_id (txt "demo") Examples.created_anyway))
           (JStr (txt "abcd"))).
  vm_compute. reflexivity.
Defined.

Lemma exists_read_reads_only (project_name : text)
    (result : completed_process) :
  reads_only
    (if Setup.succeeded result then
       parsed <- loads (stdout_text result) ;;
       match parsed with
       | Some projects =>
           if negb (truthy projects) then ret (Some false)
           else
             items <- lift (iterate projects) ;;
             found <- lift (Setup.has_project project_name items) ;;
             ret (Some found)
       | None => ret None
       end
     else ret None).
Proof.
  destruct (Setup.succeeded result); [|apply reads_only_ret].
  apply reads_only_bind; [apply reads_only_loads|]. intros [projects|].
  - destruct (negb (truthy projects)); [apply reads_only_ret|].
    apply reads_only_bind; [apply reads_only_lift|]. intros items.
    apply reads_only_bind; [apply reads_only_lift|]. intros found.
    apply reads_only_ret.
  - apply reads_only_ret.
Qed.

(** X8.  [check_project_exists] of [setup.py] answers [True] only when the
    list that the CLI gave in its last answer, an answer with exit code
    zero that [json.loads] accepted, holds a project of the requested
    name; it slept one second after each of the [k] answers before it. *)
Theorem check_project_exists_sound (project_name : text) (w w' : world) :
  Setup.check_project_exists project_name w = (Returned true, w') ->
  exists k projects items project name,
    k < 3
    /\ ran w' = ran w ++ repeat Setup.projects_list_json (S k)
    /\ slept w' = slept w ++ repeat 1%Z k
    /\ exit_code (cli w (length (ran w) + k) Setup.projects_list_json) = 0%Z
    /\ json_loads w
         (output (cli w (length (ran w) + k) Setup.projects_list_json))
       = Some projects
    /\ iterate projects = inr items
    /\ In project items
    /\ get project (txt "name") = inr name
    /\ is_str name project_name = true.
Proof.
  intros H. unfold Setup.check_project_exists, bind in H.
  destruct (for_each (range 1 4) (Setup.exists_attempt project_name) w)
    as [[[b|]|code|e] w1] eqn:Hloop; try discriminate H.
  injection H as -> ->.
  apply (read_loop_returns Setup.projects_list_json
           (fun result =>
              if Setup.succeeded result then
                parsed <- loads (stdout_text result) ;;
                match parsed with
                | Some projects =>
                    if negb (truthy projects) then ret (Some false)
                    else
                      items <- lift (iterate projects) ;;
                      found <- lift (Setup.has_project project_name items) ;;
                      ret (Some found)
                | None => ret None
                end
              else ret None) 1
           (Setup.exists_attempt project_name)) in Hloop;
    [| reflexivity | apply exists_read_reads_only].
  destruct Hloop as (k & w2 & Hk & Hran & Hslept & _ & Hloads & Hread).
  rewrite range_1_4 in Hk. cbn [length] in Hk.
  unfold Setup.succeeded in Hread. cbn [returncode stdout_text stdout] in Hread.
  destruct (exit_code (cli w (length (ran w) + k) Setup.projects_list_json)
            =? 0)%Z eqn:Hrc; [|discriminate Hread].
  apply Z.eqb_eq in Hrc. cbn [andb] in Hread.
  destruct (negb (text_eqb _ [])); [|discriminate Hread].
  unfold bind, loads in Hread. rewrite Hloads in Hread.
  destruct (json_loads w _) as [projects|] eqn:Hparsed; [|discriminate Hread].
  destruct (negb (truthy projects)); [discriminate Hread|].
  destruct (iterate projects) as [e|items] eqn:Hiter; [discriminate Hread|].
  cbn [lift ret] in Hread.
  destruct (Setup.has_project project_name items) as [e|[|]] eqn:Hhas;
    try discriminate Hread.
  apply has_project_sound in Hhas. destruct Hhas as (p & n & Hin & Hn & Hs).
  exists k, projects, items, p, n. repeat split; assumption.
Qed.

Lemma check_project_exists_sound_witness :
  exists k projects items project name,
    k < 3
    /\ ran (snd (Setup.check_project_exists (txt "demo")
                   Examples.created_anyway))
       = ran Examples.created_anyway
         ++ repeat Setup.projects_list_json (S k)
    /\ slept (snd (Setup.check_project_exists (txt "demo")
                     Examples.created_anyway))
       = slept Examples.created_anyway ++ repeat 1%Z k
    /\ exit_code (cli Examples.created_anyway
                    (length (ran Examples.created_anyway) + k)
                    Setup.projects_list_json) = 0%Z
    /\ json_loads Examples.created_anyway
         (output (cli Examples.created_anyway
                    (length (ran Examples.created_anyway) + k)
                    Setup.projects_list_json))
       = Some projects
    /\ iterate projects = inr items
    /\ In project items
    /\ get project (txt "name") = inr name
    /\ is_str name (txt "demo") = true.
Proof.
  apply (check_project_exists_sound (txt "demo") Examples.created_anyway
           (snd (Setup.check_project_exists (txt "demo")
                   Examples.created_anyway))).
  vm_compute. reflexivity.
Defined.

(** ** What leaves the files alone *)

Lemma keeps_files_ret {A} (a : A) : keeps_files (ret a).
Proof. intros w. reflexivity. Qed.

Lemma keeps_files_exit {A} (code : Z) : keeps_files (@exit A code).
Proof. intros w. reflexivity. Qed.

Lemma keeps_files_lift {A} (r : exn + A) : keeps_files (lift r).
Proof. intros w. destruct r; reflexivity. Qed.

Lemma keeps_files_loads (s : text) : keeps_files (loads s).
Proof. intros w. reflexivity. Qed.

Lemma keeps_files_sleep (seconds : Z) : keeps_files (sleep seconds).
Proof. intros w. reflexivity. Qed.

Lemma keeps_files_choice (alphabet : text) : keeps_files (choice alphabet).
Proof. intros w. reflexivity. Qed.

Lemma keeps_files_run_command (cmd : list text) (check capture_output : bool) :
  keeps_files (run_command cmd check capture_output).
Proof.
  intros w. unfold run_command.
  destruct (check && negb (exit_code (cli w (length (ran w)) cmd) =? 0)%Z);
    reflexivity.
Qed.

Lemma keeps_files_bind {A B} (m : M A) (k : A -> M B) :
  keeps_files m -> (forall a, keeps_files (k a)) -> keeps_files (bind m k).
Proof.
  intros Hm Hk w. unfold bind. specialize (Hm w).
  destruct (m w) as [[a|code|e] w1]; cbn [snd] in Hm |- *;
    try rewrite Hk; exact Hm.
Qed.

Lemma keeps_files_for_each {A R} (xs : list A) (body : A -> M (flow R)) :
  (forall x, keeps_files (body x)) -> keeps_files (for_each xs body).
Proof.
  intros Hbody. induction xs as [|x xs IH]; cbn [for_each].
  - apply keeps_files_ret.
  - apply keeps_files_bind; [apply Hbody|].
    intros [| |r]; [exact IH | apply keeps_files_ret | apply keeps_files_ret].
Qed.

Lemma keeps_files_join_choices (n : nat) (alphabet : text) :
  keeps_files (join_choices n alphabet).
Proof.
  induction n as [|n IH]; cbn [join_choices]; [apply keeps_files_ret|].
  apply keeps_files_bind; [apply keeps_files_choice|]. intros c.
  apply keeps_files_bind; [exact IH|]. intros rest. apply keeps_files_ret.
Qed.

(** ** Creating a project *)

Lemma create_attempt_eq (cmd : list text) (attempt : Z) (w : world) :
  Setup.create_attempt cmd attempt w
  = if (exit_code (cli w (length (ran w)) cmd) =? 0)%Z
    then (Returned Break, record_run cmd w)
    else (Returned Next,
          if (attempt <? 3)%Z then record_sleep 1 (record_run cmd w)
          else record_run cmd w).
Proof.
  unfold Setup.create_attempt, bind, run_command. cbn [andb returncode].
  destruct (exit_code (cli w (length (ran w)) cmd) =? 0)%Z; [reflexivity|].
  destruct (attempt <? 3)%Z; reflexivity.
Qed.

(** The creation loop never ends the process: it runs the command one to
    three times and goes on. *)
Lemma create_loop (cmd : list text) (w : world) :
  exists j w',
    for_each (range 1 4) (Setup.create_attempt cmd) w = (Returned None, w')
    /\ 1 <= j <= 3
    /\ ran w' = ran w ++ repeat cmd j
    /\ slept w' = slept w ++ repeat 1%Z (j - 1)
    /\ fs w' = fs w.
Proof.
  rewrite range_1_4. rewrite for_each_cons, create_attempt_eq.
  destruct (exit_code (cli w (length (ran w)) cmd) =? 0)%Z.
  { exists 1. eexists. split; [reflexivity|]. cbn. rewrite app_nil_r.
    repeat split; lia. }
  cbn [Z.ltb Z.compare Pos.compare Pos.compare_cont].
  rewrite for_each_cons, create_attempt_eq.
  match goal with
  | |- context [(exit_code ?r =? 0)%Z] => destruct (exit_code r =? 0)%Z
  end.
  { exists 2. eexists. split; [reflexivity|]. cbn. rewrite <- !app_assoc.
    repeat split; lia. }
  cbn [Z.ltb Z.compare Pos.compare Pos.compare_cont].
  rewrite for_each_cons, create_attempt_eq.
  match goal with
  | |- context [(exit_code ?r =? 0)%Z] => destruct (exit_code r =? 0)%Z
  end.
  { exists 3. eexists. split; [reflexivity|]. cbn. rewrite <- !app_assoc.
    repeat split; lia. }
  cbn [Z.ltb Z.compare Pos.compare Pos.compare_cont for_each ret].
  exists 3. eexists. split; [reflexivity|]. cbn. rewrite <- !app_assoc.
  repeat split; lia.
Qed.

Lemma read_loop_runs {A} (cmd : list text)
    (read : completed_process -> M (option A)) (delay : Z)
    (body : Z -> M (flow A)) :
  (forall x w,
      body x w
      = (result <- run_command cmd false true ;;
         answer <- read result ;;
         match answer with
         | Some a => ret (Return a)
         | None => sleep delay ;;; ret Next
         end) w) ->
  (forall result, reads_only (read result)) ->
  forall xs w, exists k o w',
    for_each xs body w = (o, w')
    /\ k <= length xs
    /\ ran w' = ran w ++ repeat cmd k
    /\ fs w' = fs w.
Proof.
  intros Hbody Hread. induction xs as [|x xs IH]; intros w.
  - exists 0, (Returned None), w. cbn. rewrite app_nil_r.
    repeat split. lia.
  - rewrite for_each_cons, Hbody, (read_round cmd read delay w Hread).
    destruct (fst (read _ (record_run cmd w))) as [[a0|]|code|e].
    + exists 1. eexists. eexists. split; [reflexivity|]. cbn.
      repeat split. lia.
    + destruct (IH (record_sleep delay (record_run cmd w)))
        as (k & o & w' & Hrun & Hk & Hran & Hfs).
      exists (S k), o, w'. rewrite Hrun. cbn in Hran, Hfs |- *.
      rewrite Hran, <- app_assoc. repeat split; try assumption. lia.
    + exists 1. eexists. eexists. split; [reflexivity|]. cbn.
      repeat split. lia.
    + exists 1. eexists. eexists. split; [reflexivity|]. cbn.
      repeat split. lia.
Qed.

(** X9.  [create_project] of [setup.py] writes the password it generated,
    sixteen characters of its alphabet, to [template_postgres_pw] and
    touches no other file; every creation command carries this password,
    and it is the password returned, also when all three creation
    commands failed and the process goes on or exits.  The
    creation command is run one to three times and the list command up to
    five times; an identifier that is returned is truthy. *)
Theorem create_project_saves_password (project_name org_id region : text)
    (w : world) :
  exists db_password j k o w',
    Setup.create_project project_name org_id region w = (o, w')
    /\ length db_password = 16
    /\ Forall (fun c => In c Setup.alphabet) db_password
    /\ fs w' = Env.write "template_postgres_pw" db_password (fs w)
    /\ 1 <= j <= 3 /\ k <= 5
    /\ ran w'
       = ran w
         ++ repeat (Setup.create_command project_name org_id db_password
                      region) j
         ++ repeat Setup.projects_list_json k
    /\ (forall project_id password,
          o = Returned (project_id, password) ->
          password = db_password /\ truthy project_id = true).
Proof.
  unfold Setup.create_project, Setup.generate_secure_password.
  unfold bind at 1.
  destruct (join_choices_spec (Z.to_nat 16) Setup.alphabet w)
    as (pw & w1 & Hp & Hlen & Hall & _ & _ & Hr & _); [discriminate|].
  pose proof (keeps_files_join_choices (Z.to_nat 16) Setup.alphabet w) as Hfs1.
  rewrite Hp in Hfs1 |- *. cbn [snd] in Hfs1.
  unfold bind at 1. unfold write_file at 1.
  match goal with
  | |- context [bind (for_each _ _) _ ?w2] => remember w2 as wr eqn:Hwr
  end.
  assert (ran wr = ran w) as Hr2 by (subst wr; exact Hr).
  assert (fs wr = Env.write "template_postgres_pw" pw (fs w)) as Hfs2
    by (subst wr; cbn [fs]; rewrite Hfs1; reflexivity).
  clear Hwr. unfold bind at 1.
  destruct (create_loop
              (Setup.create_command project_name org_id pw region) wr)
    as (j & w3 & Hloop & Hj & Hran3 & _ & Hfs3).
  rewrite Hloop. unfold bind at 1. unfold Setup.get_project_id.
  destruct (read_loop_runs Setup.projects_list_json
              (Setup.read_project_id project_name) 10
              (Setup.project_id_attempt project_name)
              (fun x w => eq_refl)
              (read_project_id_reads_only project_name) (range 1 6) w3)
    as (k & o & w4 & Hrun & Hk & Hran4 & Hfs4).
  rewrite Hrun.
  assert (ran w4
          = ran w
            ++ repeat (Setup.create_command project_name org_id pw region) j
            ++ repeat Setup.projects_list_json k) as Hran.
  { rewrite Hran4, Hran3, Hr2, <- app_assoc. reflexivity. }
  assert (fs w4 = Env.write "template_postgres_pw" pw (fs w)) as Hfs
    by congruence.
  rewrite range_1_6 in Hk. cbn [length] in Hk.
  destruct o as [[id|]|code|e].
  - exists pw, j, k, (Returned (id, pw)), w4.
    repeat split; try assumption; try lia.
    + injection H as _ <-. reflexivity.
    + injection H as <- _.
      apply (read_loop_returns Setup.projects_list_json
               (Setup.read_project_id project_name) 10
               (Setup.project_id_attempt project_name)) in Hrun;
        [| reflexivity | apply read_project_id_reads_only].
      destruct Hrun as (k' & w5 & _ & _ & _ & _ & _ & Hread).
      apply read_project_id_sound in Hread.
      destruct Hread as (_ & projects & items & _ & _ & Hfind).
      apply find_project_id_sound in Hfind. apply Hfind.
  - exists pw, j, k, (Exited 1%Z), w4.
    repeat split; try assumption; try lia; discriminate.
  - exists pw, j, k, (Exited code), w4.
    repeat split; try assumption; try lia; discriminate.
  - exists pw, j, k, (Raised e), w4.
    repeat split; try assumption; try lia; discriminate.
Qed.

(** ** The scripts that fail fast *)

Lemma run_checked (cmd : list text) (capture_output : bool) (w : world) :
  run_command cmd true capture_output w
  = if (exit_code (cli w (length (ran w)) cmd) =? 0)%Z
    then (Returned {| returncode := exit_code (cli w (length (ran w)) cmd);
                      stdout := if capture_output
                                then Some (output (cli w (length (ran w)) cmd))
                                else None |},
          record_run cmd w)
    else (Exited 1%Z, record_run cmd w).
Proof.
  unfold run_command. cbn [andb].
  destruct (exit_code (cli w (length (ran w)) cmd) =? 0)%Z; reflexivity.
Qed.

(** X10.  [get_api_keys] of [create-project.py] runs one command and never
    sleeps or retries.  It ends the process with code 1 when the command
    exits with a non-zero code or [json.loads] rejects its output; the two
    keys it returns are both truthy, so that the test of [main] on empty
    keys never fires. *)
Theorem create_project_get_api_keys (project_id : text) (w : world) :
  exists o,
    CreateProject.get_api_keys project_id w
    = (o, record_run
            (map txt ["npx"; "supabase"; "projects"; "api-keys"]%string
             ++ [txt "--project-ref=" ++ project_id; txt "-o"; txt "json"])
            w)
    /\ (exit_code
          (cli w (length (ran w))
             (map txt ["npx"; "supabase"; "projects"; "api-keys"]%string
              ++ [txt "--project-ref=" ++ project_id; txt "-o"; txt "json"]))
        <> 0%Z -> o = Exited 1%Z)
    /\ (json_loads w
          (output
             (cli w (length (ran w))
                (map txt ["npx"; "supabase"; "projects"; "api-keys"]%string
                 ++ [txt "--project-ref=" ++ project_id; txt "-o";
                     txt "json"])))
        = None -> o = Exited 1%Z)
    /\ (forall anon_key service_key,
          o = Returned (anon_key, service_key) ->
          truthy anon_key = true /\ truthy service_key = true).
Proof.
  unfold CreateProject.get_api_keys. unfold bind at 1. rewrite run_checked.
  destruct (exit_code _ =? 0)%Z eqn:Hrc.
  - apply Z.eqb_eq in Hrc. unfold bind at 1. unfold loads.
    cbn [stdout_text stdout].
    change (json_loads (record_run ?c w)) with (json_loads w).
    destruct (json_loads w _) as [keys_data|] eqn:Hloads.
    + unfold bind at 1. destruct (iterate keys_data) as [e|items].
      { exists (Raised e). cbn. repeat split; try discriminate.
        intros H. contradiction. }
      cbn [lift ret]. unfold bind at 1.
      destruct (Setup.scan_keys items JNull JNull) as [e|[a s]].
      { exists (Raised e). cbn. repeat split; try discriminate.
        intros H. contradiction. }
      cbn [lift ret fst snd].
      destruct (truthy a && truthy s) eqn:Ht.
      * exists (Returned (a, s)). cbn. repeat split; try discriminate.
        -- intros H. contradiction.
        -- injection H as <- _. apply andb_prop in Ht. apply Ht.
        -- injection H as _ <-. apply andb_prop in Ht. apply Ht.
      * exists (Exited 1%Z). cbn. repeat split; discriminate.
    + exists (Exited 1%Z). cbn. repeat split; discriminate.
  - exists (Exited 1%Z). repeat split; discriminate.
Qed.

Lemma create_project_get_project_id_outcomes (project_name : text)
    (w : world) :
  exists o,
    CreateProject.get_project_id project_name w
    = (o, record_run Setup.projects_list_json w)
    /\ (exit_code (cli w (length (ran w)) Setup.projects_list_json) <> 0%Z ->
        o = Exited 1%Z)
    /\ (forall project_id,
          o = Returned project_id ->
          truthy project_id = true
          /\ exit_code (cli w (length (ran w)) Setup.projects_list_json)
             = 0%Z).
Proof.
  unfold CreateProject.get_project_id. unfold bind at 1. rewrite run_checked.
  destruct (exit_code _ =? 0)%Z eqn:Hrc.
  - apply Z.eqb_eq in Hrc. unfold bind at 1. unfold loads.
    cbn [stdout_text stdout].
    change (json_loads (record_run ?c w)) with (json_loads w).
    destruct (json_loads w _) as [projects|].
    + unfold bind at 1. destruct (iterate projects) as [e|items].
      { exists (Raised e). cbn. repeat split; try discriminate.
        intros H. contradiction. }
      cbn [lift ret]. unfold bind at 1.
      destruct (Setup.find_project_id project_name items) as [e|[id|]] eqn:E.
      * exists (Raised e). cbn. repeat split; try discriminate.
        intros H. contradiction.
      * exists (Returned id). cbn. repeat split; try assumption.
        -- intros H. contradiction.
        -- injection H as <-. apply (find_project_id_sound _ _ _ E).
      * exists (Exited 1%Z). cbn. repeat split; discriminate.
    + exists (Exited 1%Z). cbn. repeat split; discriminate.
  - exists (Exited 1%Z). repeat split; discriminate.
Qed.

(** X11.  [create_project] of [create-project.py] returns only when both the
    creation command and the list command exited with zero: it then ran
    exactly these two commands, and returns a truthy identifier with the
    password that the creation command carried, sixteen characters of the
    safe alphabet.  When the creation command fails, the process ends
    with code 1 and nothing else is run.  No file is written and nothing
    sleeps. *)
Theorem create_project_fail_fast (project_name org_id region : text)
    (w : world) :
  exists db_password o w',
    CreateProject.create_project project_name org_id region w = (o, w')
    /\ length db_password = 16
    /\ Forall (fun c => In c CreateProject.safe_alphabet) db_password
    /\ fs w' = fs w
    /\ slept w' = slept w
    /\ (exit_code
          (cli w (length (ran w))
             (CreateProject.create_command project_name org_id db_password
                region)) <> 0%Z ->
        o = Exited 1%Z
        /\ ran w'
           = ran w ++ [CreateProject.create_command project_name org_id
                         db_password region])
    /\ (forall project_id password,
          o = Returned (project_id, password) ->
          password = db_password
          /\ truthy project_id = true
          /\ ran w'
             = ran w ++ [CreateProject.create_command project_name org_id
                           db_password region;
                         Setup.projects_list_json]
          /\ exit_code
               (cli w (length (ran w))
                  (CreateProject.create_command project_name org_id
                     db_password region)) = 0%Z
          /\ exit_code
               (cli w (S (length (ran w))) Setup.projects_list_json) = 0%Z).
Proof.
  unfold CreateProject.create_project, CreateProject.generate_secure_password.
  unfold bind at 1.
  destruct (join_choices_spec (Z.to_nat 16) CreateProject.safe_alphabet w)
    as (pw & w1 & Hp & Hlen & Hall & _ & Hs & Hr & Hc); [discriminate|].
  pose proof (keeps_files_join_choices (Z.to_nat 16)
                CreateProject.safe_alphabet w) as Hfs1.
  rewrite Hp in Hfs1 |- *. cbn [snd] in Hfs1.
  exists pw. unfold bind at 1. rewrite run_checked. rewrite Hc, Hr.
  destruct (exit_code
              (cli w (length (ran w))
                 (CreateProject.create_command project_name org_id pw region))
            =? 0)%Z eqn:Hrc.
  - apply Z.eqb_eq in Hrc. unfold bind at 1.
    destruct (create_project_get_project_id_outcomes project_name
                (record_run
                   (CreateProject.create_command project_name org_id pw
                      region) w1))
      as (o & Hrun & Hbad & Hgood).
    rewrite Hrun. cbn [record_run ran cli] in Hbad, Hgood.
    rewrite Hc, Hr, length_app, Nat.add_1_r in Hgood. cbn [length] in Hgood.
    destruct o as [id|code|e].
    + destruct (Hgood id eq_refl) as [Ht Hlist]. rewrite Ht. cbn [negb].
      eexists. eexists. split; [reflexivity|].
      cbn [record_run fs slept ran].
      split; [exact Hlen|]. split; [exact Hall|]. split; [exact Hfs1|].
      split; [exact Hs|]. split; [intros H; contradiction|].
      intros project_id password H. injection H as <- <-.
      split; [reflexivity|]. split; [exact Ht|].
      split; [rewrite Hr, <- app_assoc; reflexivity|].
      split; [exact Hrc | exact Hlist].
    + eexists. eexists. split; [reflexivity|].
      cbn [record_run fs slept ran].
      split; [exact Hlen|]. split; [exact Hall|]. split; [exact Hfs1|].
      split; [exact Hs|]. split; [intros H; contradiction|].
      intros project_id password H. discriminate H.
    + eexists. eexists. split; [reflexivity|].
      cbn [record_run fs slept ran].
      split; [exact Hlen|]. split; [exact Hall|]. split; [exact Hfs1|].
      split; [exact Hs|]. split; [intros H; contradiction|].
      intros project_id password H. discriminate H.
  - apply Z.eqb_neq in Hrc.
    eexists. eexists. split; [reflexivity|].
    cbn [record_run fs slept ran].
    split; [exact Hlen|]. split; [exact Hall|]. split; [exact Hfs1|].
    split; [exact Hs|]. split.
    + intros _. split; [reflexivity|]. rewrite Hr. reflexivity.
    + intros project_id password H. discriminate H.
Qed.

(** ** [link.py] *)

Lemma checked_unit (cmd : list text) (capture_output : bool) (w : world) :
  (run_command cmd true capture_output ;;; ret tt) w
  = if (exit_code (cli w (length (ran w)) cmd) =? 0)%Z
    then (Returned tt, record_run cmd w)
    else (Exited 1%Z, record_run cmd w).
Proof.
  unfold bind. rewrite run_checked.
  destruct (exit_code (cli w (length (ran w)) cmd) =? 0)%Z; reflexivity.
Qed.

Lemma ensure_login_eq (w : world) :
  LinkPy.ensure_login w
  = if (exit_code (cli w (length (ran w)) Setup.projects_list) =? 0)%Z
    then (Returned tt, record_run Setup.projects_list w)
    else if (exit_code (cli w (S (length (ran w))) Setup.login_command)
             =? 0)%Z
         then (Returned tt,
               record_run Setup.login_command
                 (record_run Setup.projects_list w))
         else (Exited 1%Z,
               record_run Setup.login_command
                 (record_run Setup.projects_list w)).
Proof.
  unfold LinkPy.ensure_login, LinkPy.check_supabase_login,
    CreateProject.check_supabase_login. unfold bind at 1. unfold bind at 1.
  unfold run_command at 1. cbn [andb ret returncode].
  destruct (exit_code (cli w (length (ran w)) Setup.projects_list) =? 0)%Z;
    [reflexivity|].
  unfold LinkPy.login_to_supabase, CreateProject.login_to_supabase.
  rewrite checked_unit. cbn [record_run ran cli].
  rewrite length_app, Nat.add_1_r. reflexivity.
Qed.

Lemma ensure_login_outcomes (w : world) :
  exists o w1 before,
    LinkPy.ensure_login w = (o, w1)
    /\ fs w1 = fs w /\ slept w1 = slept w /\ cli w1 = cli w
    /\ ran w1 = ran w ++ before
    /\ incl before [Setup.projects_list; Setup.login_command]
    /\ (o = Returned tt \/ o = Exited 1%Z).
Proof.
  rewrite ensure_login_eq.
  destruct (exit_code (cli w (length (ran w)) Setup.projects_list) =? 0)%Z.
  - exists (Returned tt), (record_run Setup.projects_list w),
      [Setup.projects_list].
    repeat split; try reflexivity.
    + intros x [<- | []]. left. reflexivity.
    + left. reflexivity.
  - destruct (exit_code (cli w (S (length (ran w))) Setup.login_command)
              =? 0)%Z.
    + exists (Returned tt),
        (record_run Setup.login_command (record_run Setup.projects_list w)),
        [Setup.projects_list; Setup.login_command].
      repeat split; try reflexivity.
      * cbn [record_run ran]. rewrite <- app_assoc. reflexivity.
      * apply incl_refl.
      * left. reflexivity.
    + exists (Exited 1%Z),
        (record_run Setup.login_command (record_run Setup.projects_list w)),
        [Setup.projects_list; Setup.login_command].
      repeat split; try reflexivity.
      * cbn [record_run ran]. rewrite <- app_assoc. reflexivity.
      * apply incl_refl.
      * right. reflexivity.
Qed.

Lemma read_env_file_eq (w : world) :
  Link.read_env_file w
  = match fs w ".env"%string with
    | Some content => (Returned (Link.parse_env content), w)
    | None => (Exited 1%Z, w)
    end.
Proof.
  unfold Link.read_env_file. destruct (fs w ".env"%string); reflexivity.
Qed.

Lemma initialize_supabase_eq (w : world) :
  LinkPy.initialize_supabase w
  = match fs w "supabase"%string with
    | Some _ => (Returned tt, w)
    | None =>
        if (exit_code (cli w (length (ran w)) Setup.init_command) =? 0)%Z
        then (Returned tt, record_run Setup.init_command w)
        else (Exited 1%Z, record_run Setup.init_command w)
    end.
Proof.
  unfold LinkPy.initialize_supabase, Setup.path_exists. unfold bind at 1.
  destruct (fs w "supabase"%string); [reflexivity|].
  apply checked_unit.
Qed.

Lemma link_project_eq (project_id db_password : text) (w : world) :
  LinkPy.link_project project_id db_password w
  = match db_password with
    | [] => (Exited 1%Z, w)
    | _ :: _ =>
        if (exit_code
              (cli w (length (ran w))
                 (Setup.link_command project_id db_password)) =? 0)%Z
        then (Returned tt,
              record_run (Setup.link_command project_id db_password) w)
        else (Exited 1%Z,
              record_run (Setup.link_command project_id db_password) w)
    end.
Proof.
  unfold LinkPy.link_project. destruct db_password as [|c s]; [reflexivity|].
  apply checked_unit.
Qed.

Lemma required_eq (value : option text) (w : world) :
  LinkPy.required value w
  = match value with
    | Some (c :: s) => (Returned (c :: s), w)
    | _ => (Exited 1%Z, w)
    end.
Proof. destruct value as [[|c s]|]; reflexivity. Qed.

(** X12.  [main()] of [link.py] returns or ends the process with code 1; it
    writes no file and never sleeps.  When it returns, [.env] was there,
    also when both values came with the command line; the last command it
    ran is the link command, with the project identifier and the password
    taken from the command line first and from [.env] otherwise, neither
    of them empty; before it only the login test, the login and the
    initialisation can have run. *)
Theorem link_main_outcomes (args_project_id args_db_password : option text)
    (w : world) :
  exists o w',
    LinkPy.main args_project_id args_db_password w = (o, w')
    /\ fs w' = fs w
    /\ slept w' = slept w
    /\ (o = Returned tt \/ o = Exited 1%Z)
    /\ (o = Returned tt ->
        exists content project_id db_password before,
          fs w ".env"%string = Some content
          /\ LinkPy.or_else args_project_id
               (Link.dict_get (txt "SUPABASE_PROJECT_ID")
                  (Link.parse_env content)) = Some project_id
          /\ LinkPy.or_else args_db_password
               (Link.dict_get (txt "SUPABASE_DB_PASSWORD")
                  (Link.parse_env content)) = Some db_password
          /\ project_id <> [] /\ db_password <> []
          /\ ran w'
             = ran w ++ before
               ++ [Setup.link_command project_id db_password]
          /\ incl before
               [Setup.projects_list; Setup.login_command;
                Setup.init_command]).
Proof.
  unfold LinkPy.main. unfold bind at 1.
  destruct (ensure_login_outcomes w)
    as (o1 & w1 & before1 & Hlogin & Hfs1 & Hslept1 & Hcli1 & Hran1 & Hin1
        & Ho1).
  rewrite Hlogin. destruct Ho1 as [-> | ->].
  2:{ exists (Exited 1%Z), w1. repeat split; try assumption.
      - right. reflexivity.
      - intros H. discriminate H. }
  unfold bind at 1. rewrite read_env_file_eq. rewrite Hfs1.
  destruct (fs w ".env"%string) as [content|] eqn:Henv.
  2:{ exists (Exited 1%Z), w1. repeat split; try assumption.
      - right. reflexivity.
      - intros H. discriminate H. }
  unfold bind at 1. rewrite required_eq.
  destruct (LinkPy.or_else args_project_id _) as [[|c s]|] eqn:Hid.
  1,3: exists (Exited 1%Z), w1; repeat split; try assumption;
       [right; reflexivity | intros H; discriminate H].
  unfold bind at 1. rewrite required_eq.
  destruct (LinkPy.or_else args_db_password _) as [[|c' s']|] eqn:Hpw.
  1,3: exists (Exited 1%Z), w1; repeat split; try assumption;
       [right; reflexivity | intros H; discriminate H].
  unfold bind at 1. rewrite initialize_supabase_eq. rewrite Hfs1, Hcli1.
  assert (incl before1
            [Setup.projects_list; Setup.login_command; Setup.init_command])
    as Hin.
  { intros x Hx. destruct (Hin1 x Hx) as [<- | [<- | []]];
      [left | right; left]; reflexivity. }
  destruct (fs w "supabase"%string) as [dir|].
  - rewrite link_project_eq. rewrite Hcli1.
    destruct (exit_code _ =? 0)%Z.
    + eexists. eexists. split; [reflexivity|]. cbn [record_run fs slept ran].
      split; [exact Hfs1|]. split; [exact Hslept1|].
      split; [left; reflexivity|]. intros _.
      exists content, (c :: s), (c' :: s'), before1.
      repeat split; try assumption; try discriminate.
      rewrite Hran1, <- app_assoc. reflexivity.
    + eexists. eexists. split; [reflexivity|]. cbn [record_run fs slept ran].
      repeat split; try assumption; [right; reflexivity|].
      intros H. discriminate H.
  - destruct (exit_code _ =? 0)%Z.
    + rewrite link_project_eq. cbn [record_run cli]. rewrite Hcli1.
      destruct (exit_code _ =? 0)%Z.
      * eexists. eexists. split; [reflexivity|].
        cbn [record_run fs slept ran].
        split; [exact Hfs1|]. split; [exact Hslept1|].
        split; [left; reflexivity|]. intros _.
        exists content, (c :: s), (c' :: s'),
          (before1 ++ [Setup.init_command]).
        repeat split; try assumption; try discriminate.
        -- rewrite Hran1, <- !app_assoc. reflexivity.
        -- intros x Hx. apply in_app_or in Hx. destruct Hx as [Hx | [<- | []]].
           ++ exact (Hin x Hx).
           ++ right. right. left. reflexivity.
      * eexists. eexists. split; [reflexivity|].
        cbn [record_run fs slept ran].
        repeat split; try assumption; [right; reflexivity|].
        intros H. discriminate H.
    + eexists. eexists. split; [reflexivity|]. cbn [record_run fs slept ran].
      repeat split; try assumption; [right; reflexivity|].
      intros H. discriminate H.
Qed.

(** ** From [create-project.py] to [link.py] *)

(** X13.  What [update_env_file] of [create-project.py] left in [.env] is what
    [link.py] links with: run without arguments in a world whose files
    are those that [update_env_file] left and where every command exits
    with zero, [main()] of [link.py] returns after the link command for
    the project identifier and the password that were written.  The
    values hold no line feed, no carriage return and no backslash, the two
    that are read back have no white space at their end and are not empty,
    and no line of the former file held an indented assignment of their
    keys. *)
Theorem link_after_create_project
    (project_id project_url anon_key service_key db_password org_id : text)
    (files : Env.files) (w : world) :
  Forall Env.plain_value
    [project_id; project_url; anon_key; service_key; db_password; org_id] ->
  Forall no_cr
    [project_id; project_url; anon_key; service_key; db_password; org_id] ->
  rstrip project_id = project_id ->
  rstrip db_password = db_password ->
  project_id <> [] ->
  db_password <> [] ->
  (forall key l,
      In key [txt "SUPABASE_PROJECT_ID"; txt "SUPABASE_DB_PASSWORD"] ->
      In l (split_lines (Env.read_env (Env.ensure_env files))) ->
      Env.assigns key (strip l) = true -> Env.assigns key l = true) ->
  CreateProject.update_env_file project_id project_url anon_key service_key
    db_password org_id files = Some (fs w) ->
  (forall n cmd, exit_code (cli w n cmd) = 0%Z) ->
  exists w',
    LinkPy.main None None w = (Returned tt, w')
    /\ ran w'
       = ran w
         ++ Setup.projects_list
            :: match fs w "supabase"%string with
               | Some _ => []
               | None => [Setup.init_command]
               end
         ++ [Setup.link_command project_id db_password].
Proof.
  intros Hplain Hcr Hid Hpw Hne1 Hne2 Hfile Hupd Hok.
  pose proof (all_vars_word_keys project_id project_url anon_key service_key
                db_password org_id) as Hw.
  pose proof (all_vars_is_dict project_id project_url anon_key service_key
                db_password org_id) as Hd.
  pose proof (all_vars_values Env.plain_value project_id project_url
                anon_key service_key db_password org_id Hplain) as Hp.
  pose proof (all_vars_values no_cr project_id project_url anon_key
                service_key db_password org_id Hcr) as Hc.
  rewrite create_project_update_env_file_all in Hupd.
  rewrite update_vars_lines in Hupd by assumption.
  injection Hupd as Hfs.
  assert (forall key value,
             In key [txt "SUPABASE_PROJECT_ID"; txt "SUPABASE_DB_PASSWORD"] ->
             In (key, value)
               (CreateProject.all_vars project_id project_url anon_key
                  service_key db_password org_id) ->
             rstrip value = value ->
             exists content,
               fs w ".env"%string = Some content
               /\ Link.dict_get key (Link.parse_env content) = Some value)
    as Hread.
  { intros key value Hkey Hin Hv.
    exists (join_lines
              (Env.sync_lines
                 (CreateProject.all_vars project_id project_url anon_key
                    service_key db_password org_id)
                 (split_lines (Env.read_env (Env.ensure_env files))))).
    split.
    - rewrite <- Hfs. reflexivity.
    - apply synced_read_back; try assumption.
      intros l. apply Hfile. exact Hkey. }
  destruct (Hread (txt "SUPABASE_PROJECT_ID") project_id)
    as (content & Henv & Hget_id);
    [left; reflexivity | apply in_or_app; left; simpl; tauto | exact Hid |].
  destruct (Hread (txt "SUPABASE_DB_PASSWORD") db_password)
    as (content' & Henv' & Hget_pw);
    [right; left; reflexivity | apply in_or_app; left; simpl; tauto
    | exact Hpw |].
  rewrite Henv in Henv'. injection Henv' as <-. clear Hread Hfs.
  unfold LinkPy.main. unfold bind at 1. rewrite ensure_login_eq.
  rewrite Hok. cbn [Z.eqb].
  unfold bind at 1. rewrite read_env_file_eq. cbn [record_run fs].
  rewrite Henv.
  unfold bind at 1. rewrite required_eq. cbn [LinkPy.or_else].
  rewrite Hget_id. destruct project_id as [|c s]; [congruence|].
  unfold bind at 1. rewrite required_eq. cbn [LinkPy.or_else].
  rewrite Hget_pw. destruct db_password as [|c' s']; [congruence|].
  unfold bind at 1. rewrite initialize_supabase_eq. cbn [record_run fs cli].
  destruct (fs w "supabase"%string).
  - rewrite link_project_eq. cbn [record_run cli]. rewrite Hok. cbn [Z.eqb].
    eexists. split; [reflexivity|]. cbn [record_run ran].
    rewrite <- app_assoc. reflexivity.
  - rewrite Hok. cbn [Z.eqb]. rewrite link_project_eq.
    cbn [record_run cli]. rewrite Hok. cbn [Z.eqb].
    eexists. split; [reflexivity|]. cbn [record_run ran].
    rewrite <- !app_assoc. reflexivity.
Qed.

Lemma link_after_create_project_witness :
  exists w',
    LinkPy.main None None Examples.ready_world = (Returned tt, w')
    /\ ran w'
       = ran Examples.ready_world
         ++ Setup.projects_list
            :: match fs Examples.ready_world "supabase"%string with
               | Some _ => []
               | None => [Setup.init_command]
               end
         ++ [Setup.link_command (txt "abcd") (txt "pw")].
Proof.
  apply (link_after_create_project (txt "abcd")
           (txt "https://abcd.supabase.co") (txt "k1") (txt "k2")
           (txt "pw") (txt "org") (fun _ => None) Examples.ready_world).
  - repeat constructor.
  - repeat constructor.
  - reflexivity.
  - reflexivity.
  - discriminate.
  - discriminate.
  - intros key l Hkey [<- | []].
    destruct Hkey as [<- | [<- | []]]; vm_compute; intros H; exact H.
  - vm_compute. reflexivity.
  - intros n cmd. reflexivity.
Defined.

(** ** [migrate.py] *)

Lemma check_project_linked_eq (w : world) :
  MigratePy.check_project_linked w
  = match fs w ".supabase/config.json"%string with
    | Some _ =>
        (Returned
           ((exit_code (cli w (length (ran w)) MigratePy.status_command)
             =? 0)%Z
            || is_infix (txt "Project ID:")
                 (output (cli w (length (ran w)) MigratePy.status_command))),
         record_run MigratePy.status_command w)
    | None => (Returned false, w)
    end.
Proof.
  unfold MigratePy.check_project_linked, Setup.path_exists.
  unfold bind at 1.
  destruct (fs w ".supabase/config.json"%string); reflexivity.
Qed.

Lemma migrate_setup_auth_urls_eq (w : world) :
  MigratePy.setup_auth_urls w
  = if (exit_code (cli w (length (ran w)) MigratePy.site_url_command)
        =? 0)%Z
    then
      if (exit_code
            (cli w (S (length (ran w))) MigratePy.redirect_urls_command)
          =? 0)%Z
      then (Returned tt,
            record_run MigratePy.redirect_urls_command
              (record_run MigratePy.site_url_command w))
      else (Exited 1%Z,
            record_run MigratePy.redirect_urls_command
              (record_run MigratePy.site_url_command w))
    else (Exited 1%Z, record_run MigratePy.site_url_command w).
Proof.
  unfold MigratePy.setup_auth_urls. unfold bind at 1. rewrite run_checked.
  destruct (exit_code (cli w (length (ran w)) MigratePy.site_url_command)
            =? 0)%Z; [|reflexivity].
  rewrite checked_unit. cbn [record_run ran cli].
  rewrite length_app, Nat.add_1_r. reflexivity.
Qed.

(** X14.  [main()] of [migrate.py] runs its commands in one fixed order (the
    status, the remote changes, the push, then the two settings of the
    auth URLs unless they are skipped) and stops at the first that fails:
    the commands it ran are a prefix of this list.  It returns only after
    the whole list, every command after the status having exited with
    zero; otherwise the process ends with code 1.  Without
    [.supabase/config.json] it runs nothing.  It writes no file and never
    sleeps. *)
Theorem migrate_main_fail_fast (skip_auth_setup : bool) (w : world) :
  exists k o w',
    MigratePy.main skip_auth_setup w = (o, w')
    /\ fs w' = fs w
    /\ slept w' = slept w
    /\ ran w'
       = ran w
         ++ firstn k
              ([MigratePy.status_command; MigratePy.remote_changes_command;
                MigratePy.push_command]
               ++ (if skip_auth_setup then []
                   else [MigratePy.site_url_command;
                         MigratePy.redirect_urls_command]))
    /\ (o = Returned tt \/ o = Exited 1%Z)
    /\ (fs w ".supabase/config.json"%string = None ->
        k = 0 /\ o = Exited 1%Z)
    /\ (o = Returned tt ->
        k = (if skip_auth_setup then 3 else 5)
        /\ (exit_code (cli w (length (ran w)) MigratePy.status_command)
            = 0%Z
            \/ is_infix (txt "Project ID:")
                 (output (cli w (length (ran w)) MigratePy.status_command))
               = true)
        /\ forall i, 1 <= i < k ->
             exit_code
               (cli w (i + length (ran w))
                  (nth i
                     ([MigratePy.status_command;
                       MigratePy.remote_changes_command;
                       MigratePy.push_command]
                      ++ (if skip_auth_setup then []
                          else [MigratePy.site_url_command;
                                MigratePy.redirect_urls_command]))
                     [])) = 0%Z).
Proof.
  unfold MigratePy.main. unfold bind at 1. rewrite check_project_linked_eq.
  destruct (fs w ".supabase/config.json"%string) as [config|].
  2:{ exists 0, (Exited 1%Z), w. cbn [firstn]. rewrite app_nil_r.
      repeat split; try reflexivity; try discriminate.
      right. reflexivity. }
  destruct (_ || _) eqn:Hlinked; cbn [negb].
  2:{ exists 1, (Exited 1%Z), (record_run MigratePy.status_command w).
      repeat split; try reflexivity; try discriminate.
      right. reflexivity. }
  assert (exit_code (cli w (length (ran w)) MigratePy.status_command) = 0%Z
          \/ is_infix (txt "Project ID:")
               (output (cli w (length (ran w)) MigratePy.status_command))
             = true) as Hstatus.
  { apply orb_prop in Hlinked. destruct Hlinked as [H | H];
      [left; apply Z.eqb_eq; exact H | right; exact H]. }
  clear Hlinked.
  unfold MigratePy.sync_remote_changes, MigratePy.apply_migrations.
  unfold bind at 1. rewrite checked_unit. cbn [record_run ran cli].
  rewrite length_app, Nat.add_1_r. cbn [length].
  destruct (exit_code
              (cli w (S (length (ran w))) MigratePy.remote_changes_command)
            =? 0)%Z eqn:E1.
  2:{ exists 2, (Exited 1%Z). eexists. split; [reflexivity|].
      cbn [record_run fs slept ran firstn app].
      rewrite <- app_assoc.
      repeat split; try reflexivity; try discriminate.
      right. reflexivity. }
  unfold bind at 1. rewrite checked_unit. cbn [record_run ran cli].
  rewrite !length_app, !Nat.add_1_r. cbn [length].
  destruct (exit_code
              (cli w (S (S (length (ran w)))) MigratePy.push_command)
            =? 0)%Z eqn:E2.
  2:{ exists 3, (Exited 1%Z). eexists. split; [reflexivity|].
      cbn [record_run fs slept ran firstn app].
      rewrite <- !app_assoc.
      repeat split; try reflexivity; try discriminate.
      right. reflexivity. }
  apply Z.eqb_eq in E1, E2.
  destruct skip_auth_setup; cbn [negb].
  - exists 3, (Returned tt). eexists. split; [reflexivity|].
    cbn [record_run fs slept ran firstn app].
    rewrite <- !app_assoc.
    repeat split; try reflexivity; try discriminate; try assumption.
    + left. reflexivity.
    + intros i Hi. destruct i as [|[|[|i]]]; try lia; assumption.
  - rewrite migrate_setup_auth_urls_eq. cbn [record_run ran cli].
    rewrite !length_app, !Nat.add_1_r. cbn [length].
    destruct (exit_code
                (cli w (S (S (S (length (ran w)))))
                   MigratePy.site_url_command) =? 0)%Z eqn:E3.
    2:{ exists 4, (Exited 1%Z). eexists. split; [reflexivity|].
        cbn [record_run fs slept ran firstn app].
        rewrite <- !app_assoc.
        repeat split; try reflexivity; try discriminate.
        right. reflexivity. }
    destruct (exit_code
                (cli w (S (S (S (S (length (ran w))))))
                   MigratePy.redirect_urls_command) =? 0)%Z eqn:E4.
    2:{ exists 5, (Exited 1%Z). eexists. split; [reflexivity|].
        cbn [record_run fs slept ran firstn app].
        rewrite <- !app_assoc.
        repeat split; try reflexivity; try discriminate.
        right. reflexivity. }
    apply Z.eqb_eq in E3, E4.
    exists 5, (Returned tt). eexists. split; [reflexivity|].
    cbn [record_run fs slept ran firstn app].
    rewrite <- !app_assoc.
    repeat split; try reflexivity; try discriminate; try assumption.
    + left. reflexivity.
    + intros i Hi. destruct i as [|[|[|[|[|i]]]]]; try lia; assumption.
Qed.

(** ** [link-and-migrate.py] *)

Lemma bind_ext {A B} (m m' : M A) (k k' : A -> M B) (w : world) :
  (forall w0, m w0 = m' w0) -> (forall a w0, k a w0 = k' a w0) ->
  bind m k w = bind m' k' w.
Proof.
  intros Hm Hk. unfold bind. rewrite Hm.
  destruct (m' w) as [[a|code|e] w1]; [apply Hk|reflexivity|reflexivity].
Qed.

Lemma bind_assoc {A B C} (m : M A) (k : A -> M B) (h : B -> M C)
    (w : world) :
  bind (bind m k) h w = bind m (fun a => bind (k a) h) w.
Proof.
  unfold bind. destruct (m w) as [[a|code|e] w1]; reflexivity.
Qed.

(** The helpers of [link-and-migrate.py] against those of [link.py] and
    [migrate.py]. *)
Lemma lam_check_supabase_login (w : world) :
  LinkAndMigrate.check_supabase_login w = LinkPy.check_supabase_login w.
Proof. reflexivity. Qed.

Lemma lam_login_to_supabase (w : world) :
  LinkAndMigrate.login_to_supabase w = LinkPy.login_to_supabase w.
Proof. reflexivity. Qed.

Lemma lam_read_env_file (w : world) :
  LinkAndMigrate.read_env_file w = Link.read_env_file w.
Proof.
  unfold LinkAndMigrate.read_env_file, Link.read_env_file, Link.parse_env.
  destruct (fs w ".env"%string); reflexivity.
Qed.

Lemma lam_initialize_supabase (w : world) :
  LinkAndMigrate.initialize_supabase w = LinkPy.initialize_supabase w.
Proof.
  unfold LinkAndMigrate.initialize_supabase, LinkPy.initialize_supabase.
  unfold bind at 1 3. unfold Setup.path_exists.
  destruct (fs w "supabase"%string); reflexivity.
Qed.

Lemma lam_link_project (project_id db_password : text) (w : world) :
  LinkAndMigrate.link_project project_id db_password w
  = LinkPy.link_project project_id db_password w.
Proof.
  unfold LinkAndMigrate.link_project, LinkPy.link_project.
  destruct db_password as [|c s]; reflexivity.
Qed.

Lemma lam_sync_remote_changes (w : world) :
  LinkAndMigrate.sync_remote_changes w = MigratePy.sync_remote_changes w.
Proof. reflexivity. Qed.

Lemma lam_apply_migrations (w : world) :
  LinkAndMigrate.apply_migrations w = MigratePy.apply_migrations w.
Proof. reflexivity. Qed.

Lemma lam_setup_auth_urls (w : world) :
  LinkAndMigrate.setup_auth_urls w = MigratePy.setup_auth_urls w.
Proof. reflexivity. Qed.

(** X15.  [main()] of [link-and-migrate.py] does what [main()] of [link.py]
    does and, when that returns, the three steps of [migrate.py]: the
    remote changes, the push and the auth URLs, each ending the process
    when its command fails.  It does not test that a project is linked,
    and the auth URLs cannot be skipped. *)
Theorem link_and_migrate_composes
    (args_project_id args_db_password : option text) (w : world) :
  LinkAndMigrate.main args_project_id args_db_password w
  = (LinkPy.main args_project_id args_db_password ;;;
     MigratePy.sync_remote_changes ;;;
     MigratePy.apply_migrations ;;;
     MigratePy.setup_auth_urls) w.
Proof.
  unfold LinkAndMigrate.main, LinkPy.main, LinkPy.ensure_login.
  rewrite !bind_assoc.
  apply bind_ext; [exact lam_check_supabase_login|].
  intros logged_in w1. cbv beta. rewrite ?bind_assoc.
  apply bind_ext;
    [intros w0; destruct logged_in; [reflexivity|apply lam_login_to_supabase]|].
  intros [] w2. cbv beta. rewrite ?bind_assoc.
  apply bind_ext; [exact lam_read_env_file|].
  intros env_vars w3. cbv beta. rewrite ?bind_assoc.
  apply bind_ext; [reflexivity|].
  intros project_id w4. cbv beta. rewrite ?bind_assoc.
  apply bind_ext; [reflexivity|].
  intros db_password w5. cbv beta. rewrite ?bind_assoc.
  apply bind_ext; [exact lam_initialize_supabase|].
  intros [] w6.
  apply bind_ext; [apply lam_link_project|].
  intros [] w7.
  apply bind_ext; [exact lam_sync_remote_changes|].
  intros [] w8.
  apply bind_ext; [exact lam_apply_migrations|].
  intros [] w9. apply lam_setup_auth_urls.
Qed.

(** ** Project names *)

Lemma slug_char (c : ascii) :
  let c' := if Ascii.eqb (lower_char c) " " then "-"%char else lower_char c in
  c' <> " "%char /\ ~ (65 <= nat_of_ascii c' <= 90).
Proof.
  destruct c as [[] [] [] [] [] [] [] []]; vm_compute;
    (split; [discriminate | lia]).
Qed.

Lemma slug_chars (s : text) :
  Forall (fun c => c <> " "%char /\ ~ (65 <= nat_of_ascii c <= 90))
    (replace_char " " "-" (lower s)).
Proof.
  unfold replace_char, lower. rewrite map_map. apply Forall_forall.
  intros c Hc. apply in_map_iff in Hc. destruct Hc as (c0 & <- & _).
  apply slug_char.
Qed.

Lemma package_name_world (w : world) : snd (Setup.package_name w) = w.
Proof.
  unfold Setup.package_name, Setup.path_exists. unfold bind at 1.
  destruct (fs w "package.json"%string) as [content|] eqn:Hfile;
    [|reflexivity].
  unfold bind at 1. unfold loads. rewrite Hfile.
  destruct (json_loads w (universal_newlines content)) as [package_data|]; [|reflexivity].
  unfold bind at 1. destruct (Setup.has_name package_data) as [e|[|]];
    try reflexivity.
  cbn [lift ret]. unfold bind at 1.
  destruct (Setup.item_name package_data) as [e|item]; [reflexivity|].
  cbn [lift ret]. unfold bind at 1.
  destruct (Setup.slug item); reflexivity.
Qed.

(** X16.  The name that [get_project_name] takes from [package.json] holds no
    space and no capital letter of ASCII, and reading it changes
    nothing. *)
Theorem package_name_slug (w w' : world) (name : text) :
  Setup.package_name w = (Returned (Some name), w') ->
  w' = w
  /\ Forall (fun c => c <> " "%char /\ ~ (65 <= nat_of_ascii c <= 90)) name.
Proof.
  unfold Setup.package_name, Setup.path_exists. unfold bind at 1.
  destruct (fs w "package.json"%string) as [content|] eqn:Hfile;
    [|cbv beta iota delta [ret]; discriminate].
  unfold bind at 1. unfold loads. rewrite Hfile.
  destruct (json_loads w (universal_newlines content)) as [package_data|];
    [|cbv beta iota delta [ret]; discriminate].
  unfold bind at 1. destruct (Setup.has_name package_data) as [e|[|]];
    try discriminate.
  cbn [lift ret]. unfold bind at 1.
  destruct (Setup.item_name package_data) as [e|item]; [discriminate|].
  cbn [lift ret]. unfold bind at 1.
  destruct item as [| | |s| |]; try discriminate.
  cbn [Setup.slug lift ret]. intros H. injection H as <- <-.
  split; [reflexivity | apply slug_chars].
Qed.

Lemma package_name_slug_witness :
  snd (Setup.package_name (Examples.package_world (txt "My App")))
  = Examples.package_world (txt "My App")
  /\ Forall (fun c => c <> " "%char /\ ~ (65 <= nat_of_ascii c <= 90))
       (txt "my-app").
Proof.
  apply (package_name_slug (Examples.package_world (txt "My App"))
           (snd (Setup.package_name (Examples.package_world (txt "My App"))))
           (txt "my-app")).
  vm_compute. reflexivity.
Defined.

(** [get_project_name] of [setup.py] returns the name of [package.json]
    as it is, an empty one too. *)
Lemma setup_project_name_may_be_empty :
  fst (Setup.get_project_name None (Examples.package_world []))
  = Returned [].
Proof. vm_compute. reflexivity. Qed.

(** X17.  [get_project_name] of [create-project.py] never returns an empty
    name, with or without a prompt: an empty name of [package.json] and an
    empty answer both give way to the default.  It changes nothing. *)
Theorem create_project_name_not_empty (non_interactive : bool)
    (typed : option text) (w w' : world) (name : text) :
  CreateProject.get_project_name non_interactive typed w
  = (Returned name, w') ->
  name <> [] /\ w' = w.
Proof.
  unfold CreateProject.get_project_name. unfold bind at 1.
  destruct (Setup.package_name w) as [[package_name|code|e] w1] eqn:Hpkg;
    try discriminate.
  assert (w1 = w) as ->.
  { pose proof (package_name_world w) as Hw. rewrite Hpkg in Hw. exact Hw. }
  assert (match package_name with
          | Some (c :: s) => c :: s
          | _ => Setup.default_name
          end <> []) as Hdefault.
  { destruct package_name as [[|c s]|]; discriminate. }
  destruct non_interactive.
  - intros [= <- <-]. split; [exact Hdefault | reflexivity].
  - destruct typed as [line|]; [|discriminate].
    intros [= <- <-]. split; [|reflexivity].
    destruct (strip line); [exact Hdefault | discriminate].
Qed.

Lemma create_project_name_not_empty_witness :
  Setup.default_name <> []
  /\ snd (CreateProject.get_project_name true None
            (Examples.package_world []))
     = Examples.package_world [].
Proof.
  apply (create_project_name_not_empty true None
           (Examples.package_world [])
           (snd (CreateProject.get_project_name true None
                   (Examples.package_world [])))
           Setup.default_name).
  vm_compute. reflexivity.
Defined.

(** ** The shape of what [read_env_file] returns *)

Lemma lstrip_head (s : text) :
  lstrip s = [] \/ exists c r, lstrip s = c :: r /\ isspace c = false.
Proof.
  induction s as [|c s IH]; [left; reflexivity|].
  simpl. destruct (isspace c) eqn:E; [exact IH|].
  right. exists c, s. split; [reflexivity | exact E].
Qed.

Lemma lstrip_idem (s : text) : lstrip (lstrip s) = lstrip s.
Proof.
  destruct (lstrip_head s) as [-> | (c & r & -> & Hc)]; [reflexivity|].
  apply lstrip_solid. exact Hc.
Qed.

Lemma rstrip_strip (s : text) : rstrip (strip s) = strip s.
Proof.
  unfold rstrip, strip. rewrite rev_involutive, lstrip_idem. reflexivity.
Qed.

Lemma lstrip_strip (s : text) : lstrip (strip s) = strip s.
Proof.
  unfold strip. fold (rstrip (lstrip s)).
  destruct (lstrip_head s) as [-> | (c & r & -> & Hc)]; [reflexivity|].
  change (c :: r) with (([] ++ [c]) ++ r). rewrite (rstrip_app [] c r Hc).
  apply lstrip_solid. exact Hc.
Qed.

Lemma first_eq_parts (line : text) :
  contains "=" (Link.before_first_eq line) = false
  /\ (contains "=" line = true ->
      line = (Link.before_first_eq line ++ ["="%char])
             ++ Link.after_first_eq line).
Proof.
  unfold contains. induction line as [|c line [IH1 IH2]].
  - split; [reflexivity | discriminate].
  - cbn [Link.before_first_eq Link.after_first_eq existsb].
    destruct (Ascii.eqb c "=") eqn:E.
    + apply Ascii.eqb_eq in E. subst c. split; [reflexivity|].
      intros _. reflexivity.
    + cbn [existsb]. rewrite Ascii.eqb_sym, E. cbn [orb].
      split; [exact IH1|]. intros H. rewrite <- !app_comm_cons.
      f_equal. apply IH2. exact H.
Qed.

Lemma dict_set_in (k v k' v' : text) (d : Link.dict) :
  In (k, v) (Link.dict_set k' v' d) ->
  (exists k0, text_eqb k0 k' = true /\ (k, v) = (k0, v')) \/ In (k, v) d.
Proof.
  induction d as [|[k0 v0] d IH]; cbn [Link.dict_set].
  - intros [H | []]. left. exists k'. split; [apply text_eqb_refl|].
    symmetry. exact H.
  - destruct (text_eqb k0 k') eqn:E.
    + intros [H | H].
      * left. exists k0. split; [exact E | symmetry; exact H].
      * right. right. exact H.
    + intros [H | H].
      * right. left. exact H.
      * destruct (IH H) as [Hl | Hr]; [left; exact Hl | right; right; exact Hr].
Qed.

Lemma read_lines_in (lines : list text) (d : Link.dict) (k v : text) :
  In (k, v) (Link.read_lines lines d) ->
  In (k, v) d
  \/ exists line,
       In line lines
       /\ Link.is_assignment (strip line) = true
       /\ k = Link.before_first_eq (strip line)
       /\ v = Link.after_first_eq (strip line).
Proof.
  revert d. induction lines as [|line lines IH]; intros d H; [left; exact H|].
  cbn [Link.read_lines] in H.
  destruct (Link.is_assignment (strip line)) eqn:E.
  - rewrite split_once_first_eq in H. apply IH in H.
    destruct H as [H | (l & Hl & Hrest)].
    + apply dict_set_in in H. destruct H as [(k0 & Hk0 & Heq) | H].
      * right. exists line. apply text_eqb_eq in Hk0. subst k0.
        injection Heq as -> ->. repeat split; try assumption.
        left. reflexivity.
      * left. exact H.
    + right. exists l. split; [right; exact Hl | exact Hrest].
  - apply IH in H. destruct H as [H | (l & Hl & Hrest)].
    + left. exact H.
    + right. exists l. split; [right; exact Hl | exact Hrest].
Qed.

(** X18.  Every entry of the mapping that [read_env_file] returns has a key
    without [=] and without white space at its start, and a value without
    white space at its end; white space around the [=] is kept. *)
Theorem parse_env_shape (content key value : text) :
  In (key, value) (Link.parse_env content) ->
  contains "=" key = false /\ lstrip key = key /\ rstrip value = value.
Proof.
  intros H. apply read_lines_in in H.
  destruct H as [[] | (line & _ & Hkept & -> & ->)].
  unfold Link.is_assignment in Hkept.
  apply andb_prop in Hkept. destruct Hkept as [_ Heq].
  destruct (first_eq_parts (strip line)) as [Hkey Hparts].
  specialize (Hparts Heq).
  split; [exact Hkey|]. split.
  - pose proof (lstrip_strip line) as Hl. rewrite Hparts in Hl at 1 2.
    destruct (Link.before_first_eq (strip line)) as [|c k]; [reflexivity|].
    cbn [app lstrip] in Hl |- *.
    destruct (isspace c) eqn:Hc; [|reflexivity].
    exfalso. destruct (lstrip_head (k ++ "="%char :: Link.after_first_eq (strip line)))
      as [E | (c0 & r & E & Hc0)].
    + rewrite <- app_assoc in Hl. cbn [app] in Hl. rewrite E in Hl.
      discriminate Hl.
    + rewrite <- app_assoc in Hl. cbn [app] in Hl. rewrite E in Hl.
      injection Hl as -> _. congruence.
  - pose proof (rstrip_strip line) as Hr. rewrite Hparts in Hr at 1 2.
    rewrite (rstrip_app _ "=" _ eq_refl) in Hr.
    apply app_inv_head in Hr. exact Hr.
Qed.

Lemma parse_env_shape_witness :
  contains "=" Examples.SUPABASE_URL = false
  /\ lstrip Examples.SUPABASE_URL = Examples.SUPABASE_URL
  /\ rstrip (txt "old") = txt "old".
Proof.
  apply (parse_env_shape Examples.old_env Examples.SUPABASE_URL (txt "old")).
  vm_compute. left. reflexivity.
Defined.

(** ** From [setup.py] to [link.py] *)

Lemma sync_lines_without_key (env_vars : list (text * text))
    (ls : list text) (key : text) :
  Forall Env.word_key (map fst env_vars) -> Env.is_dict env_vars ->
  ~ In key (map fst env_vars) ->
  (forall l, In l ls -> Env.assigns key (strip l) = false) ->
  Link.spec_last key
    (map (fun line => (Link.before_first_eq line, Link.after_first_eq line))
       (filter (fun line => negb (Link.spec_skipped line))
          (map strip (Env.sync_lines env_vars ls))))
  = None.
Proof.
  intros Hw Hd Hkey Hfile.
  destruct (Link.spec_last key _) as [v|] eqn:E; [|reflexivity].
  exfalso. apply spec_last_in in E. apply in_map_iff in E.
  destruct E as (line & Hentry & Hline). injection Hentry as Hb _.
  apply filter_In in Hline. destruct Hline as [Hline Hkept].
  apply negb_true_iff in Hkept. apply not_skipped_contains in Hkept.
  destruct (read_key_assigns key line Hkept Hb) as [Hassigns _].
  apply in_map_iff in Hline. destruct Hline as (l' & <- & Hl').
  assert (forall k' v', In (k', v') env_vars ->
            l' = Env.assignment k' v' -> False) as Hwritten.
  { intros k' v' Hin ->.
    pose proof (word_key_in _ _ Hw (in_keys _ _ _ Hin)) as Hk'.
    rewrite (strip_assignment _ _ Hk') in Hb.
    destruct (before_first_eq_assignment k' (rstrip v') Hk') as [Hb' _].
    rewrite Hb' in Hb. subst k'. apply Hkey. exact (in_keys _ _ _ Hin). }
  rewrite sync_lines_spec in Hl' by assumption.
  apply in_app_or in Hl'. destruct Hl' as [Hl' | Hl'].
  - apply in_map_iff in Hl'. destruct Hl' as (l & <- & Hl).
    destruct (rewrite_line_cases env_vars l)
      as [H | (k' & v' & Hin' & _ & H)].
    + rewrite H in Hassigns. rewrite (Hfile l Hl) in Hassigns.
      discriminate Hassigns.
    + exact (Hwritten k' v' Hin' H).
  - destruct (appended_assignments _ _ _ Hl') as (k' & v' & Hin' & H & _).
    exact (Hwritten k' v' Hin' H).
Qed.

(** X19.  [update_env_file] of [setup.py] writes no
    [SUPABASE_PROJECT_ID]: in a world whose files are those it left, for
    values that hold no line feed, no carriage return and no backslash
    and from a file that held no assignment of this key, [main()] of
    [link.py] run without a project identifier ends the process with
    code 1, whatever the password argument and whatever the CLI
    answers. *)
Theorem link_after_setup_needs_project_id
    (project_id project_url anon_key service_key db_password org_id : text)
    (files : Env.files) (args_db_password : option text) (w : world) :
  Forall Env.plain_value
    [project_url; anon_key; service_key; db_password; org_id] ->
  Forall no_cr [project_url; anon_key; service_key; db_password; org_id] ->
  (forall l,
      In l (split_lines (Env.read_env (Env.ensure_env files))) ->
      Env.assigns (txt "SUPABASE_PROJECT_ID") (strip l) = false) ->
  Setup.update_env_file project_id project_url anon_key service_key
    db_password org_id files = Some (fs w) ->
  exists w', LinkPy.main None args_db_password w = (Exited 1%Z, w').
Proof.
  intros Hplain Hcr Hfile Hupd.
  pose proof (setup_env_vars_word_keys project_url anon_key service_key
                db_password org_id) as Hw.
  pose proof (setup_env_vars_is_dict project_url anon_key service_key
                db_password org_id) as Hd.
  assert (Forall Env.plain_value
            (map snd (Setup.env_vars project_url anon_key service_key
                        db_password org_id))) as Hp.
  { inversion Hplain as [|? ? Hu H1]; subst.
    inversion H1 as [|? ? Ha H2]; subst. inversion H2 as [|? ? Hs H3]; subst.
    inversion H3 as [|? ? Hpw H4]; subst. inversion H4 as [|? ? Ho H5]; subst.
    repeat constructor; assumption. }
  assert (Forall no_cr
            (map snd (Setup.env_vars project_url anon_key service_key
                        db_password org_id))) as Hc.
  { inversion Hcr as [|? ? Hu H1]; subst.
    inversion H1 as [|? ? Ha H2]; subst. inversion H2 as [|? ? Hs H3]; subst.
    inversion H3 as [|? ? Hpw H4]; subst. inversion H4 as [|? ? Ho H5]; subst.
    repeat constructor; assumption. }
  unfold Setup.update_env_file in Hupd. cbv zeta in Hupd.
  rewrite update_vars_lines in Hupd by assumption.
  injection Hupd as Hfs.
  assert (fs w ".env"%string
          = Some (join_lines
                    (Env.sync_lines
                       (Setup.env_vars project_url anon_key service_key
                          db_password org_id)
                       (split_lines (Env.read_env (Env.ensure_env files))))))
    as Henv by (rewrite <- Hfs; reflexivity).
  assert (Link.dict_get (txt "SUPABASE_PROJECT_ID")
            (Link.parse_env
               (join_lines
                  (Env.sync_lines
                     (Setup.env_vars project_url anon_key service_key
                        db_password org_id)
                     (split_lines (Env.read_env (Env.ensure_env files))))))
          = None) as Hget.
  { rewrite parse_env_lines.
    rewrite (universal_id _ (synced_no_cr _ files Hw Hc)).
    rewrite split_sync_lines; try assumption;
      [| apply split_lines_not_nil | apply split_lines_one_line].
    apply sync_lines_without_key; try assumption.
    simpl. intuition discriminate. }
  clear Hfs. unfold LinkPy.main. unfold bind at 1.
  destruct (ensure_login_outcomes w)
    as (o1 & w1 & before1 & Hlogin & Hfs1 & _ & _ & _ & _ & Ho1).
  rewrite Hlogin. destruct Ho1 as [-> | ->]; [|exists w1; reflexivity].
  unfold bind at 1. rewrite read_env_file_eq, Hfs1, Henv.
  unfold bind at 1. rewrite required_eq. cbn [LinkPy.or_else].
  rewrite Hget. exists w1. reflexivity.
Qed.

Lemma link_after_setup_needs_project_id_witness :
  exists w', LinkPy.main None None Examples.after_setup = (Exited 1%Z, w').
Proof.
  apply (link_after_setup_needs_project_id (txt "abcd")
           (txt "https://abcd.supabase.co") (txt "k1") (txt "k2")
           (txt "pw") (txt "org") (fun _ => None) None Examples.after_setup).
  - repeat constructor.
  - repeat constructor.
  - intros l [<- | []]. reflexivity.
  - vm_compute. reflexivity.
Defined.

(** ** The existence check of [create-project.py] *)

(** X20.  [check_project_exists] of [create-project.py] runs the list command
    once and never retries.  When the command exits with a non-zero code
    or [json.loads] rejects its output the process ends with code 1,
    where [setup.py] would try again and answer [False]; it answers
    [True] only for a list that holds a project of the requested name. *)
Theorem create_project_check_exists (project_name : text) (w : world) :
  exists o,
    CreateProject.check_project_exists project_name w
    = (o, record_run Setup.projects_list_json w)
    /\ (exit_code (cli w (length (ran w)) Setup.projects_list_json) <> 0%Z ->
        o = Exited 1%Z)
    /\ (json_loads w
          (output (cli w (length (ran w)) Setup.projects_list_json)) = None ->
        o = Exited 1%Z)
    /\ (o = Returned true ->
        exists projects items project name,
          exit_code (cli w (length (ran w)) Setup.projects_list_json) = 0%Z
          /\ json_loads w
               (output (cli w (length (ran w)) Setup.projects_list_json))
             = Some projects
          /\ iterate projects = inr items
          /\ In project items
          /\ get project (txt "name") = inr name
          /\ is_str name project_name = true).
Proof.
  unfold CreateProject.check_project_exists. unfold bind at 1.
  rewrite run_checked.
  destruct (exit_code (cli w (length (ran w)) Setup.projects_list_json)
            =? 0)%Z eqn:Hrc.
  2:{ exists (Exited 1%Z). repeat split; discriminate. }
  apply Z.eqb_eq in Hrc. unfold bind at 1. unfold loads.
  cbn [stdout_text stdout].
  change (json_loads (record_run Setup.projects_list_json w))
    with (json_loads w).
  destruct (json_loads w _) as [projects|] eqn:Hloads.
  2:{ exists (Exited 1%Z). repeat split; try discriminate;
      try (intros H; contradiction). }
  destruct (negb (truthy projects)).
  { exists (Returned false). repeat split; try discriminate;
      try (intros H; contradiction). }
  unfold bind at 1. destruct (iterate projects) as [e|items] eqn:Hiter.
  { exists (Raised e). repeat split; try discriminate;
      try (intros H; contradiction). }
  cbn [lift ret].
  destruct (Setup.has_project project_name items) as [e|[|]] eqn:Hhas.
  - exists (Raised e). repeat split; try discriminate;
      try (intros H; contradiction).
  - exists (Returned true). repeat split; try discriminate.
    + intros H. contradiction.
    + intros _. apply has_project_sound in Hhas.
      destruct Hhas as (p & n & Hin & Hn & Hs).
      exists projects, items, p, n. repeat split; assumption.
  - exists (Returned false). repeat split; try discriminate;
      try (intros H; contradiction).
Qed.

(** ** The files that [update_env_file] touches *)

Lemma ensure_env_other (files : Env.files) (path : string) :
  path <> ".env"%string -> Env.ensure_env files path = files path.
Proof.
  intros H. apply String.eqb_neq in H. unfold Env.ensure_env.
  destruct (files ".env"%string); [reflexivity|].
  destruct (files ".env.example"%string);
    [unfold Env.write; rewrite H; reflexivity|].
  destruct (files ".env.template"%string);
    unfold Env.write; rewrite H; reflexivity.
Qed.

(** X21.  [update_env_file] of either script leaves a [.env] behind and changes
    no other file: the templates it may have copied are as they were. *)
Theorem update_env_file_only_env
    (project_id project_url anon_key service_key db_password org_id : text)
    (files files' : Env.files) :
  Setup.update_env_file project_id project_url anon_key service_key
    db_password org_id files = Some files'
  \/ CreateProject.update_env_file project_id project_url anon_key
       service_key db_password org_id files = Some files' ->
  files' ".env"%string <> None
  /\ forall path, path <> ".env"%string -> files' path = files path.
Proof.
  assert (forall content,
             Env.write ".env" content (Env.ensure_env files) ".env"%string
             <> None
             /\ forall path, path <> ".env"%string ->
                  Env.write ".env" content (Env.ensure_env files) path
                  = files path) as Hwrite.
  { intros content. split; [discriminate|]. intros path Hpath.
    unfold Env.write. rewrite (proj2 (String.eqb_neq _ _) Hpath).
    apply ensure_env_other. exact Hpath. }
  intros [H | H].
  - unfold Setup.update_env_file in H. cbv zeta in H.
    destruct (Env.update_vars _ _) as [content|]; [|discriminate H].
    injection H as <-. apply Hwrite.
  - rewrite create_project_update_env_file_all in H.
    destruct (Env.update_vars _ _) as [content|]; [|discriminate H].
    injection H as <-. apply Hwrite.
Qed.

Lemma update_env_file_only_env_witness :
  Examples.setup_files ".env"%string <> None
  /\ forall path, path <> ".env"%string -> Examples.setup_files path = None.
Proof.
  apply (update_env_file_only_env (txt "abcd")
           (txt "https://abcd.supabase.co") (txt "k1") (txt "k2")
           (txt "pw") (txt "org") (fun _ => None) Examples.setup_files).
  left. vm_compute. reflexivity.
Defined.

(** ** Exhausted retries *)

Lemma never_eqb (cmd : list text) (w : world) (n : nat) :
  never_succeeds cmd w -> (exit_code (cli w n cmd) =? 0)%Z = false.
Proof. intros H. apply Z.eqb_neq. apply H. Qed.

(** A loop of rounds that run [cmd] and read its answer: when no answer
    gives anything to read, the loop runs every round, sleeps after each,
    and ends without a value. *)
Lemma read_loop_exhausted {A} (cmd : list text)
    (read : completed_process -> M (option A)) (delay : Z)
    (body : Z -> M (flow A)) (w : world) :
  (forall x w0,
      body x w0
      = (result <- run_command cmd false true ;;
         answer <- read result ;;
         match answer with
         | Some a => ret (Return a)
         | None => sleep delay ;;; ret Next
         end) w0) ->
  (forall result, reads_only (read result)) ->
  (forall n w1,
      json_loads w1 = json_loads w ->
      fst (read {| returncode := exit_code (cli w n cmd);
                   stdout := Some (output (cli w n cmd)) |} w1)
      = Returned None) ->
  forall xs w0,
    cli w0 = cli w -> json_loads w0 = json_loads w ->
    exists w',
      for_each xs body w0 = (Returned None, w')
      /\ cli w' = cli w /\ json_loads w' = json_loads w
      /\ ran w' = ran w0 ++ repeat cmd (length xs)
      /\ slept w' = slept w0 ++ repeat delay (length xs).
Proof.
  intros Hbody Hread Hnone. induction xs as [|x xs IH]; intros w0 Hc Hj.
  - exists w0. cbn. rewrite !app_nil_r. repeat split; assumption.
  - rewrite for_each_cons, Hbody, (read_round cmd read delay w0 Hread).
    rewrite Hc, (Hnone (length (ran w0)) (record_run cmd w0) Hj).
    destruct (IH (record_sleep delay (record_run cmd w0)) Hc Hj)
      as (w' & Hrun & Hc' & Hj' & Hran & Hslept).
    exists w'. rewrite Hrun. cbn [record_sleep record_run ran slept] in *.
    rewrite Hran, Hslept, <- !app_assoc. repeat split; assumption.
Qed.

Lemma exists_read_none (project_name : text) (w w1 : world)
    (r : response) :
  unusable w r -> json_loads w1 = json_loads w ->
  fst ((if Setup.succeeded {| returncode := exit_code r;
                              stdout := Some (output r) |} then
          parsed <- loads (stdout_text {| returncode := exit_code r;
                                          stdout := Some (output r) |}) ;;
          match parsed with
          | Some projects =>
              if negb (truthy projects) then ret (Some false)
              else
                items <- lift (iterate projects) ;;
                found <- lift (Setup.has_project project_name items) ;;
                ret (Some found)
          | None => ret None
          end
        else ret None) w1)
  = Returned None.
Proof.
  intros H Hj. unfold Setup.succeeded. cbn [returncode stdout_text stdout].
  destruct (exit_code r =? 0)%Z eqn:Hrc; [|reflexivity].
  destruct (text_eqb (output r) []) eqn:Hout; [reflexivity|].
  cbn [andb negb]. unfold bind, loads. rewrite Hj.
  destruct H as [H | [H | H]].
  - apply Z.eqb_eq in Hrc. contradiction.
  - apply text_eqb_neq in Hout. contradiction.
  - rewrite H. reflexivity.
Qed.

Lemma read_project_id_none (project_name : text) (w w1 : world)
    (r : response) :
  no_project project_name w r -> json_loads w1 = json_loads w ->
  fst (Setup.read_project_id project_name
         {| returncode := exit_code r; stdout := Some (output r) |} w1)
  = Returned None.
Proof.
  intros H Hj. unfold Setup.read_project_id, Setup.succeeded.
  cbn [returncode stdout_text stdout].
  destruct (exit_code r =? 0)%Z eqn:Hrc; [|reflexivity].
  destruct (text_eqb (output r) []) eqn:Hout; [reflexivity|].
  cbn [andb negb]. unfold bind, loads. rewrite Hj.
  destruct H as [[H | [H | H]] | (projects & items & Hp & Hi & Hf)].
  - apply Z.eqb_eq in Hrc. contradiction.
  - apply text_eqb_neq in Hout. contradiction.
  - rewrite H. reflexivity.
  - rewrite Hp, Hi. cbn [lift ret]. rewrite Hf. reflexivity.
Qed.

Lemma read_api_keys_none (w w1 : world) (r : response) :
  no_keys w r -> json_loads w1 = json_loads w ->
  Setup.read_api_keys
    {| returncode := exit_code r; stdout := Some (output r) |} w1
  = (Returned None, w1).
Proof.
  intros H Hj. unfold Setup.read_api_keys, Setup.succeeded.
  cbn [returncode stdout_text stdout].
  destruct (exit_code r =? 0)%Z eqn:Hrc; [|reflexivity].
  destruct (text_eqb (output r) []) eqn:Hout; [reflexivity|].
  cbn [andb negb]. unfold bind, loads. rewrite Hj.
  destruct H as [H | [H | [[H He] | (keys_data & items & keys & Hk & Hi
                                     & Hs & Ht)]]].
  - apply Z.eqb_eq in Hrc. contradiction.
  - apply text_eqb_neq in Hout. contradiction.
  - rewrite H, He. reflexivity.
  - rewrite Hk, Hi. cbn [lift ret]. rewrite Hs. cbn [lift ret].
    rewrite Ht. reflexivity.
Qed.

Lemma check_project_exists_exhausted (project_name : text) (w : world) :
  (forall n, unusable w (cli w n Setup.projects_list_json)) ->
  fst (Setup.check_project_exists project_name w) = Returned false.
Proof.
  intros H. unfold Setup.check_project_exists, bind.
  destruct (read_loop_exhausted Setup.projects_list_json
              (fun result =>
                 if Setup.succeeded result then
                   parsed <- loads (stdout_text result) ;;
                   match parsed with
                   | Some projects =>
                       if negb (truthy projects) then ret (Some false)
                       else
                         items <- lift (iterate projects) ;;
                         found <- lift (Setup.has_project project_name
                                          items) ;;
                         ret (Some found)
                   | None => ret None
                   end
                 else ret None) 1
              (Setup.exists_attempt project_name) w
              (fun x w0 => eq_refl)
              (exists_read_reads_only project_name)
              (fun n w1 => exists_read_none project_name w w1 _ (H n))
              (range 1 4) w eq_refl eq_refl)
    as (w' & Hrun & _).
  rewrite Hrun. reflexivity.
Qed.

Lemma get_project_id_exhausted (project_name : text) (w0 w : world) :
  cli w0 = cli w -> json_loads w0 = json_loads w ->
  (forall n, no_project project_name w (cli w n Setup.projects_list_json)) ->
  exists w',
    Setup.get_project_id project_name w0 = (Returned None, w')
    /\ ran w' = ran w0 ++ repeat Setup.projects_list_json 5.
Proof.
  intros Hc Hj H. unfold Setup.get_project_id.
  destruct (read_loop_exhausted Setup.projects_list_json
              (Setup.read_project_id project_name) 10
              (Setup.project_id_attempt project_name) w
              (fun x w0 => eq_refl)
              (read_project_id_reads_only project_name)
              (fun n w1 => read_project_id_none project_name w w1 _ (H n))
              (range 1 6) w0 Hc Hj)
    as (w' & Hrun & _ & _ & Hran & _).
  exists w'. split; [exact Hrun | exact Hran].
Qed.

Lemma api_keys_attempt_none (project_id : text) (attempt : Z)
    (w0 w : world) :
  cli w0 = cli w -> json_loads w0 = json_loads w ->
  (forall n, no_keys w (cli w n (Setup.api_keys_json_command project_id))) ->
  Setup.api_keys_attempt project_id attempt w0
  = (Returned Next,
     record_sleep (attempt * 5)
       (record_run (Setup.api_keys_json_command project_id)
          (if (attempt =? 1)%Z
           then record_run (Setup.api_keys_command project_id) w0
           else w0))).
Proof.
  intros Hc Hj H. rewrite api_keys_attempt_eq. unfold Setup.json_answer.
  rewrite Hc. rewrite (read_api_keys_none w _ _ (H _)); [reflexivity|].
  destruct (attempt =? 1)%Z; exact Hj.
Qed.

Lemma get_api_keys_exhausted (project_id : text) (w : world) :
  (forall n, no_keys w (cli w n (Setup.api_keys_json_command project_id))) ->
  (forall n,
      no_shown_keys
        (cli w n
           (map txt ["npx"; "supabase"; "projects"; "show";
                     "--project-ref"]%string ++ [project_id]))) ->
  fst (Setup.get_api_keys project_id w) = Returned (JNull, JNull).
Proof.
  intros Hkeys Hshow. unfold Setup.get_api_keys, bind at 1.
  rewrite range_1_6.
  repeat (rewrite for_each_cons,
            (api_keys_attempt_none project_id _ _ w)
            by first [reflexivity | exact Hkeys];
          cbn [Z.eqb Pos.eqb]).
  cbn [for_each ret]. unfold bind at 1. unfold run_command. cbn [andb].
  unfold Setup.succeeded. cbn [returncode stdout_text stdout cli
                               record_run record_sleep].
  match goal with
  | |- context [cli w ?n ?cmd] => specialize (Hshow n)
  end.
  destruct (exit_code _ =? 0)%Z eqn:Hrc; [|reflexivity].
  destruct (text_eqb (output _) []) eqn:Hout; [reflexivity|].
  cbn [andb negb].
  destruct Hshow as [H | [H | [H | H]]].
  - apply Z.eqb_eq in Hrc. contradiction.
  - apply text_eqb_neq in Hout. contradiction.
  - rewrite H. reflexivity.
  - rewrite H. clear H.
    destruct (Re.search (Setup.show_pattern (txt "anon")) _); reflexivity.
Qed.

Lemma fatal_loop_never (cmd : list text) (last delay : Z)
    (before : list Z) (w : world) :
  ~ In last before -> never_succeeds cmd w ->
  fst (for_each (before ++ [last]) (Setup.fatal_attempt cmd last delay) w)
  = Exited 1%Z.
Proof.
  intros Hlast Hnever.
  destruct (fatal_loop cmd last delay before Hlast w)
    as (k & o & w' & Hrun & _ & _ & _ & _ & _ & _ & Hend).
  rewrite Hrun. destruct Hend as [[_ H0] | [-> _]]; [|reflexivity].
  exfalso. exact (Hnever _ H0).
Qed.

Lemma config_loop_never (cmd : list text) (before : list Z) (w : world) :
  ~ In 3%Z before -> never_succeeds cmd w ->
  forall w0, cli w0 = cli w ->
    fst (for_each (before ++ [3%Z]) (Setup.config_attempt cmd) w0)
    = Exited 1%Z.
Proof.
  intros Hlast Hnever.
  induction before as [|a before IH]; intros w0 Hc.
  - cbn [app]. rewrite for_each_cons, config_attempt_eq, Hc.
    rewrite (never_eqb cmd w _ Hnever). reflexivity.
  - rewrite <- app_comm_cons, for_each_cons, config_attempt_eq, Hc.
    rewrite (never_eqb cmd w _ Hnever).
    assert ((a =? 3)%Z = false) as Ha.
    { apply Z.eqb_neq. intros ->. apply Hlast. left. reflexivity. }
    rewrite Ha. apply IH; [|exact Hc].
    intros H. apply Hlast. right. exact H.
Qed.

Lemma setup_auth_urls_never (w : world) :
  never_succeeds MigratePy.site_url_command w
  \/ never_succeeds MigratePy.redirect_urls_command w ->
  fst (Setup.setup_auth_urls w) = Exited 1%Z.
Proof.
  intros H. unfold Setup.setup_auth_urls. unfold bind at 1.
  unfold Setup.config_set at 1. unfold bind at 1. rewrite range_1_4.
  change [1; 2; 3]%Z with ([1; 2] ++ [3])%Z.
  change (map txt ["npx"; "supabase"; "config"; "set"]%string
          ++ [txt "auth.site_url"; txt "http://localhost:3000"])
    with MigratePy.site_url_command.
  destruct (config_loop MigratePy.site_url_command [1; 2]%Z) with (w := w)
    as (k & o & w1 & Hrun & _ & _ & _ & _ & Hc & Hend).
  { simpl. intuition discriminate. }
  rewrite Hrun. destruct H as [H | H].
  - pose proof (config_loop_never MigratePy.site_url_command [1; 2]%Z w
                  ltac:(simpl; intuition discriminate) H w eq_refl) as Hsite.
    rewrite Hrun in Hsite. cbn [fst] in Hsite. subst o. reflexivity.
  - destruct Hend as [-> | [-> _]]; [|reflexivity].
    cbn [ret]. unfold bind at 1. unfold Setup.config_set, bind at 1.
    rewrite range_1_4. change [1; 2; 3]%Z with ([1; 2] ++ [3])%Z.
    change (map txt ["npx"; "supabase"; "config"; "set"]%string
            ++ [txt "auth.additional_redirect_urls";
                txt "[" ++ quoted (txt "http://localhost:3000") ++ txt "]"])
      with MigratePy.redirect_urls_command.
    pose proof (config_loop_never MigratePy.redirect_urls_command [1; 2]%Z
                  w ltac:(simpl; intuition discriminate) H w1 Hc)
      as Hredirect.
    destruct (for_each _ _ w1) as [o2 w2]. cbn [fst] in Hredirect.
    subst o2. reflexivity.
Qed.

Lemma join_choices_loads (n : nat) (alphabet : text) (w : world) :
  json_loads (snd (join_choices n alphabet w)) = json_loads w.
Proof.
  revert w. induction n as [|n IH]; intros w; [reflexivity|].
  cbn [join_choices]. unfold bind at 1. unfold choice at 1.
  match goal with
  | |- context [bind (join_choices n alphabet) _ ?w1] =>
      specialize (IH w1); destruct (join_choices n alphabet w1)
        as [[rest|code|e] w'] eqn:E
  end; unfold bind; rewrite E; exact IH.
Qed.

Lemma create_loop_never (cmd : list text) (w0 w : world) :
  cli w0 = cli w -> never_succeeds cmd w ->
  for_each (range 1 4) (Setup.create_attempt cmd) w0
  = (Returned None,
     record_run cmd
       (record_sleep 1 (record_run cmd (record_sleep 1 (record_run cmd w0))))).
Proof.
  intros Hc H. rewrite range_1_4.
  repeat (rewrite for_each_cons, create_attempt_eq;
          cbn [cli record_run record_sleep]; rewrite Hc;
          rewrite (never_eqb cmd w _ H);
          cbn [Z.ltb Z.compare Pos.compare Pos.compare_cont]).
  reflexivity.
Qed.

Lemma create_project_never (project_name org_id region : text) (w : world) :
  (forall password,
      never_succeeds
        (Setup.create_command project_name org_id password region) w) ->
  (forall n, no_project project_name w (cli w n Setup.projects_list_json)) ->
  exists password w',
    Setup.create_project project_name org_id region w = (Exited 1%Z, w')
    /\ ran w'
       = ran w
         ++ repeat (Setup.create_command project_name org_id password
                      region) 3
         ++ repeat Setup.projects_list_json 5.
Proof.
  intros Hcreate Hlist.
  unfold Setup.create_project, Setup.generate_secure_password.
  unfold bind at 1.
  destruct (join_choices_spec (Z.to_nat 16) Setup.alphabet w)
    as (pw & w1 & Hp & _ & _ & _ & _ & Hr & Hc); [discriminate|].
  pose proof (join_choices_loads (Z.to_nat 16) Setup.alphabet w) as Hj.
  rewrite Hp in Hj |- *. cbn [snd] in Hj. exists pw.
  unfold bind at 1. unfold write_file at 1.
  match goal with
  | |- context [bind (for_each _ _) _ ?w2] => remember w2 as wr eqn:Hwr
  end.
  assert (cli wr = cli w) as Hc2 by (subst wr; exact Hc).
  assert (json_loads wr = json_loads w) as Hj2 by (subst wr; exact Hj).
  assert (ran wr = ran w) as Hr2 by (subst wr; exact Hr).
  clear Hwr. unfold bind at 1.
  rewrite (create_loop_never _ wr w Hc2 (Hcreate pw)).
  unfold bind at 1.
  destruct (get_project_id_exhausted project_name
              (record_run
                 (Setup.create_command project_name org_id pw region)
                 (record_sleep 1
                    (record_run
                       (Setup.create_command project_name org_id pw region)
                       (record_sleep 1
                          (record_run
                             (Setup.create_command project_name org_id pw
                                region) wr))))) w Hc2 Hj2 Hlist)
    as (w' & Hrun & Hran).
  rewrite Hrun. exists w'. split; [reflexivity|].
  rewrite Hran. cbn [record_run record_sleep ran]. rewrite Hr2.
  rewrite <- !app_assoc. reflexivity.
Qed.



